(** * k8au-shell-analyzer: the history/config analysis engine

    A shallow embedding of [internal/analyzer/shell_analysis.go] and
    [internal/analyzer/analyzer.go], followed by the properties of the
    analysis core.

    Conventions of the embedding.
    - A Go [string] is a byte sequence: Rocq's [string] (one [ascii] per byte).
    - A Go [int] is a 64-bit two's complement integer: [Z] with [Int.wrap].
    - A Go [float64] obtained as [float64(a) / float64(b)] is represented by
      the exact rational [a / b] in [Q]; Go rounds that quotient to the nearest
      double, which keeps 0, 1 and 1/4 exact and keeps the order.
    - A Go [map] is a [gmap]. The order in which [range] visits a map and the
      order in which [sort.Slice] leaves equal elements are not fixed by Go:
      both are taken from a [GoRuntime] value, and every property is stated
      for all runtimes that respect the language's guarantees. Two runs are
      two runtimes. Within a run a runtime gives one order per map; the
      loops that range a map once per entry do not depend on that order
      ([tally_runtime_irrelevant]).
    - The file system, the process table and the clock are a [Host] value. *)

From Stdlib Require Import ZArith QArith Lqa Ascii String List Lia Bool.
From stdpp Require Import gmap strings list fin_maps sorting.

Local Open Scope string_scope.
Local Open Scope Z_scope.
Local Open Scope list_scope.

(* ===================================================================== *)
(** * Part I. Definitions                                                 *)
(* ===================================================================== *)

(** ** Machine integers *)

Module Int.
Definition min_int : Z := - 2 ^ 63.
Definition max_int : Z := 2 ^ 63 - 1.
(** Two's complement wrap-around of a 64-bit [int]. *)
Definition wrap (z : Z) : Z := (z + 2 ^ 63) mod 2 ^ 64 - 2 ^ 63.
Definition add (a b : Z) : Z := wrap (a + b).
(** [x++] *)
Definition incr (a : Z) : Z := add a 1.
(** [len(x)] of a slice or string. *)
Definition len {A} (l : list A) : Z := Z.of_nat (length l).
End Int.

(** ** Byte strings *)

Module Bytes.
Definition val (c : ascii) : Z := Z.of_N (N_of_ascii c).

(** [s[i]]; the callers below only read inside the string. *)
Definition at_ (s : string) (i : nat) : Z :=
  match String.get i s with Some c => val c | None => 0 end.

Fixpoint take (n : nat) (s : string) : string :=
  match n, s with
  | S k, String c t => String c (take k t)
  | _, _ => ""
  end.

Fixpoint drop (n : nat) (s : string) : string :=
  match n, s with
  | S k, String _ t => drop k t
  | _, _ => s
  end.

(** Is the byte [c] one of the bytes of [set]? *)
Fixpoint mem (c : ascii) (set : string) : bool :=
  match set with
  | "" => false
  | String d t => Ascii.eqb c d || mem c t
  end.

Fixpoint existsb (p : ascii -> bool) (s : string) : bool :=
  match s with
  | "" => false
  | String c t => p c || existsb p t
  end.

(** The pieces of [l] one after the other. *)
Fixpoint join (l : list string) : string :=
  match l with
  | [] => ""
  | s :: l' => s +:+ join l'
  end.
End Bytes.

(** ** Package [unicode/utf8] *)

Module Utf8.
Definition RuneError : Z := 0xFFFD.
Definition RuneSelf : Z := 0x80.
Definition UTFMax : Z := 4.

Definition maskx : Z := 0x3F.
Definition mask2 : Z := 0x1F.
Definition mask3 : Z := 0x0F.
Definition mask4 : Z := 0x07.
Definition locb : Z := 0x80.
Definition hicb : Z := 0xBF.

(** The table [first]: what the first byte of a sequence announces.
    [as_] is an ASCII byte, [xx] an invalid first byte, [lead sz lo hi] the
    first byte of a [sz]-byte sequence whose second byte must lie in
    [lo..hi] (the table [acceptRanges]). *)
Inductive firstInfo : Type :=
| as_
| xx
| lead (sz : nat) (lo hi : Z).

Definition first (b : Z) : firstInfo :=
  if b <? 0x80 then as_
  else if b <? 0xC2 then xx
  else if b <? 0xE0 then lead 2 locb hicb
  else if b =? 0xE0 then lead 3 0xA0 hicb
  else if b <? 0xED then lead 3 locb hicb
  else if b =? 0xED then lead 3 locb 0x9F
  else if b <? 0xF0 then lead 3 locb hicb
  else if b =? 0xF0 then lead 4 0x90 hicb
  else if b <? 0xF4 then lead 4 locb hicb
  else if b =? 0xF4 then lead 4 locb 0x8F
  else xx.

(** [utf8.DecodeRuneInString]: the first rune of [s] and its width in
    bytes; [(RuneError, 1)] for an invalid or truncated encoding. *)
Definition DecodeRuneInString (s : string) : Z * nat :=
  match s with
  | "" => (RuneError, 0%nat)
  | String c0 _ =>
    let s0 := Bytes.val c0 in
    match first s0 with
    | as_ => (s0, 1%nat)
    | xx => (RuneError, 1%nat)
    | lead sz lo hi =>
      if (String.length s <? sz)%nat then (RuneError, 1%nat) else
      let s1 := Bytes.at_ s 1 in
      if (s1 <? lo) || (hi <? s1) then (RuneError, 1%nat) else
      if (sz <=? 2)%nat then
        (Z.lor (Z.shiftl (Z.land s0 mask2) 6) (Z.land s1 maskx), 2%nat)
      else
      let s2 := Bytes.at_ s 2 in
      if (s2 <? locb) || (hicb <? s2) then (RuneError, 1%nat) else
      if (sz <=? 3)%nat then
        (Z.lor (Z.lor (Z.shiftl (Z.land s0 mask3) 12)
                      (Z.shiftl (Z.land s1 maskx) 6))
               (Z.land s2 maskx), 3%nat)
      else
      let s3 := Bytes.at_ s 3 in
      if (s3 <? locb) || (hicb <? s3) then (RuneError, 1%nat) else
      (Z.lor (Z.lor (Z.lor (Z.shiftl (Z.land s0 mask4) 18)
                           (Z.shiftl (Z.land s1 maskx) 12))
                    (Z.shiftl (Z.land s2 maskx) 6))
             (Z.land s3 maskx), 4%nat)
    end
  end.

(** [utf8.RuneStart] *)
Definition RuneStart (b : Z) : bool := negb (Z.land b 0xC0 =? 0x80).

(** The backwards scan of [DecodeLastRuneInString]:
    [for start--; start >= lim; start-- { if RuneStart(s[start]) { break } }]
    entered with [start] already decremented. *)
Fixpoint lastStart (fuel : nat) (s : string) (start lim : Z) : Z :=
  match fuel with
  | O => start
  | S f =>
    if start <? lim then start
    else if RuneStart (Bytes.at_ s (Z.to_nat start)) then start
    else lastStart f s (start - 1) lim
  end.

(** [utf8.DecodeLastRuneInString]: the last rune of [s] and its width. *)
Definition DecodeLastRuneInString (s : string) : Z * nat :=
  let end_ := Z.of_nat (String.length s) in
  if end_ =? 0 then (RuneError, 0%nat) else
  let r := Bytes.at_ s (Z.to_nat (end_ - 1)) in
  if r <? RuneSelf then (r, 1%nat) else
  let lim := Z.max 0 (end_ - UTFMax) in
  let start := Z.max 0 (lastStart 4 s (end_ - 2) lim) in
  let '(r, size) :=
    DecodeRuneInString (Bytes.drop (Z.to_nat start) s) in
  if negb (start + Z.of_nat size =? end_) then (RuneError, 1%nat)
  else (r, size).

(** [for _, r := range s]: the runes of [s] in order, each with the bytes
    that encode it. [fuel] bounds the number of runes. *)
Fixpoint rangeFuel (fuel : nat) (s : string) : list (Z * string) :=
  match fuel with
  | O => []
  | S f =>
    match s with
    | "" => []
    | _ =>
      let '(r, n) := DecodeRuneInString s in
      (r, Bytes.take n s) :: rangeFuel f (Bytes.drop n s)
    end
  end.

Definition range (s : string) : list (Z * string) :=
  rangeFuel (String.length s) s.
End Utf8.

(** ** Package [unicode] *)

Module Unicode.
(** [unicode.IsSpace]: the Latin-1 spaces and the [White_Space] table. *)
Definition IsSpace (r : Z) : bool :=
  if r <=? 0xFF then
    (r =? 0x09) || (r =? 0x0A) || (r =? 0x0B) || (r =? 0x0C) || (r =? 0x0D)
    || (r =? 0x20) || (r =? 0x85) || (r =? 0xA0)
  else
    (r =? 0x1680) || ((0x2000 <=? r) && (r <=? 0x200A))
    || (r =? 0x2028) || (r =? 0x2029) || (r =? 0x202F) || (r =? 0x205F)
    || (r =? 0x3000).
End Unicode.

(** ** Package [strings] *)

Module Strings.
(** [strings.HasPrefix(s, prefix)] *)
Definition HasPrefix (s pre : string) : bool := String.prefix pre s.

(** [strings.HasSuffix(s, suffix)] *)
Definition HasSuffix (s suf : string) : bool :=
  (String.length suf <=? String.length s)%nat
  && String.eqb (Bytes.drop (String.length s - String.length suf) s) suf.

(** [strings.TrimPrefix] *)
Definition TrimPrefix (s pre : string) : string :=
  if HasPrefix s pre then Bytes.drop (String.length pre) s else s.

(** [strings.TrimSuffix] *)
Definition TrimSuffix (s suf : string) : string :=
  if HasSuffix s suf
  then Bytes.take (String.length s - String.length suf) s else s.

(** [strings.Contains(s, substr)]: [substr] occurs at some offset of [s];
    the empty [substr] occurs in every string. *)
Fixpoint Contains (s substr : string) : bool :=
  String.prefix substr s
  || match s with
     | "" => false
     | String _ t => Contains t substr
     end.

(** [strings.ContainsAny(s, chars)] for a set [chars] of ASCII bytes: an
    ASCII byte of [s] is always a rune of its own, so the runes of [s]
    that are in [chars] are the bytes of [s] that are. *)
Definition ContainsAny (s chars : string) : bool :=
  Bytes.existsb (fun c => Bytes.mem c chars) s.

(** [strings.ContainsFunc(s, unicode.IsSpace)]: some rune of [s] is white
    space. *)
Definition ContainsSpace (s : string) : bool :=
  existsb (fun '(r, _) => Unicode.IsSpace r) (Utf8.range s).

(** The loop of [strings.FieldsFunc(s, unicode.IsSpace)] over the runes of
    [s]: [cur] holds the bytes of the field that is open ([""]: none). *)
Fixpoint fieldsGo (rs : list (Z * string)) (cur : string) : list string :=
  match rs with
  | [] => if String.eqb cur "" then [] else [cur]
  | (r, b) :: rs' =>
    if Unicode.IsSpace r then
      if String.eqb cur "" then fieldsGo rs' "" else cur :: fieldsGo rs' ""
    else fieldsGo rs' (cur +:+ b)
  end.

(** [strings.Fields]: the maximal runs of non-space runes. (For an
    all-ASCII string Go takes a byte-wise path with the same result.) *)
Definition Fields (s : string) : list string := fieldsGo (Utf8.range s) "".

(** [strings.TrimLeftFunc(s, unicode.IsSpace)] *)
Fixpoint trimLeftSpace (rs : list (Z * string)) : string :=
  match rs with
  | [] => ""
  | (r, b) :: rs' =>
    if Unicode.IsSpace r then trimLeftSpace rs'
    else Bytes.join (map snd rs)
  end.

(** [strings.TrimRightFunc(s, unicode.IsSpace)], decoding from the end. *)
Fixpoint trimRightSpace (fuel : nat) (s : string) : string :=
  match fuel with
  | O => s
  | S f =>
    match s with
    | "" => ""
    | _ =>
      let '(r, n) := Utf8.DecodeLastRuneInString s in
      if Unicode.IsSpace r
      then trimRightSpace f (Bytes.take (String.length s - n) s)
      else s
    end
  end.

(** [strings.TrimSpace] *)
Definition TrimSpace (s : string) : string :=
  let l := trimLeftSpace (Utf8.range s) in
  trimRightSpace (String.length l) l.

Fixpoint trimLeftASCII (s cutset : string) : string :=
  match s with
  | "" => ""
  | String c t => if Bytes.mem c cutset then trimLeftASCII t cutset else s
  end.

Definition trimRightASCII (s cutset : string) : string :=
  String.rev (trimLeftASCII (String.rev s) cutset).

(** [strings.Trim(s, cutset)] for a cutset of ASCII bytes (Go's
    [makeASCIISet] path): leading and trailing bytes of the set go. *)
Definition Trim (s cutset : string) : string :=
  trimLeftASCII (trimRightASCII s cutset) cutset.

(** [strings.SplitN(s, sep, 2)] for a non-empty [sep]: cut at the first
    occurrence of [sep], or the whole of [s] when there is none. *)
Definition SplitN2 (s sep : string) : list string :=
  match String.index 0 sep s with
  | Some i => [Bytes.take i s; Bytes.drop (i + String.length sep) s]
  | None => [s]
  end.

Definition isLower (b : Z) : bool := (0x61 <=? b) && (b <=? 0x7A).
Definition isUpper (b : Z) : bool := (0x41 <=? b) && (b <=? 0x5A).
Definition isDigit (b : Z) : bool := (0x30 <=? b) && (b <=? 0x39).

(** [isSeparator] of package [strings], on an ASCII byte: letters, digits
    and the underscore are not separators, everything else is. *)
Definition isSeparator (b : Z) : bool :=
  negb (isLower b || isUpper b || isDigit b || (b =? 0x5F)).

Definition toTitle (c : ascii) : ascii :=
  if isLower (Bytes.val c)
  then ascii_of_N (Z.to_N (Bytes.val c - 0x20)) else c.

Fixpoint titleGo (prev : Z) (s : string) : string :=
  match s with
  | "" => ""
  | String c t =>
    String (if isSeparator prev then toTitle c else c)
           (titleGo (Bytes.val c) t)
  end.

(** [strings.Title] on ASCII text (every identifier it is applied to is a
    key of the language table, all of them ASCII): the first letter of each
    word goes to upper case. *)
Definition Title (s : string) : string := titleGo 0x20 s.
End Strings.

(** ** Package [bufio]: a [Scanner] with the default [ScanLines] split *)

Module Bufio.
(** [bufio.MaxScanTokenSize]: a line that does not fit the buffer stops the
    scan with [ErrTooLong]. *)
Definition MaxScanTokenSize : Z := 64 * 1024.

(** [dropCR] *)
Definition dropCR (line : string) : string :=
  Strings.TrimSuffix line (String "013"%char "").

(** The raw lines of [s]: the pieces between newlines; a final piece
    without newline is a line when it is not empty. [cur] is the piece
    being read, reversed. *)
Fixpoint rawLines (s : string) (cur : string) : list string :=
  match s with
  | "" => if String.eqb cur "" then [] else [String.rev cur]
  | String c t =>
    if Ascii.eqb c "010"%char then String.rev cur :: rawLines t ""
    else rawLines t (String c cur)
  end.

Definition fits (raw : string) : bool :=
  Z.of_nat (String.length raw) <? MaxScanTokenSize.

(** The tokens that successive [Scan()] calls deliver (with [Text()]), and
    whether the scan ended with an error ([scanner.Err() != nil]):
    [ioErr] says that the underlying read failed after the content. *)
Fixpoint scanGo (raws : list string) (ioErr : bool) : list string * bool :=
  match raws with
  | [] => ([], ioErr)
  | raw :: raws' =>
    if fits raw then
      let '(ls, e) := scanGo raws' ioErr in (dropCR raw :: ls, e)
    else ([], true)
  end.

Definition Scan (content : string) (ioErr : bool) : list string * bool :=
  scanGo (rawLines content "") ioErr.
End Bufio.


(** ** The Go runtime: map iteration order and [sort.Slice] *)

(** [rangeMap m] is the order in which a [range] statement visits the map
    [m]; [sortSlice less l] is the slice that [sort.Slice] leaves. Go fixes
    neither the iteration order nor the relative order of elements that
    [less] does not separate, so both are parameters. One runtime visits
    equal maps in one order; Go may choose anew at every [range] statement,
    so two calls whose orders may differ are given two runtimes. *)
Record GoRuntime : Type := {
  rangeMap : forall (K : Type) (EqK : EqDecision K) (CK : Countable K)
                    (V : Type), gmap K V -> list (K * V);
  sortSlice : forall (A : Type), (A -> A -> bool) -> list A -> list A
}.
Arguments rangeMap _ {K EqK CK V} _.
Arguments sortSlice _ {A} _ _.

(** What the documentation of [sort] asks of [less]: a strict ordering that
    is transitive and whose incomparability is transitive as well. *)
Record LessOK {A} (less : A -> A -> bool) : Prop := {
  less_irrefl : forall x, less x x = false;
  less_trans : forall x y z, less x y = true -> less y z = true ->
                             less x z = true;
  less_negtrans : forall x y z, less x y = false -> less y z = false ->
                                less x z = false
}.

(** [sorted less l]: no element of [l] must sort before an earlier one. *)
Definition sorted {A} (less : A -> A -> bool) (l : list A) : Prop :=
  StronglySorted (fun x y => less y x = false) l.

(** The guarantees of the language: [range] visits every entry once, and
    [sort.Slice] permutes the slice into sorted order. *)
Record RuntimeOK (rt : GoRuntime) : Prop := {
  range_perm : forall (K : Type) (EqK : EqDecision K) (CK : Countable K)
                      (V : Type) (m : gmap K V),
      rangeMap rt m ≡ₚ map_to_list m;
  sort_perm : forall (A : Type) (less : A -> A -> bool) (l : list A),
      sortSlice rt less l ≡ₚ l;
  sort_sorted : forall (A : Type) (less : A -> A -> bool) (l : list A),
      LessOK less -> sorted less (sortSlice rt less l)
}.

Module Sort.
(** The inner loop of Go's [insertionSort]:
    [for j := i; j > a && less(data[j], data[j-1]); j-- { swap(j, j-1) }],
    on the sorted part read from right to left. *)
Fixpoint sink {A} (less : A -> A -> bool) (x : A) (left : list A) : list A :=
  match left with
  | y :: r => if less x y then y :: sink less x r else x :: y :: r
  | [] => [x]
  end.

(** Insertion sort, which is what [sort.Slice] runs on a slice of at most
    12 elements. *)
Definition insertionSort {A} (less : A -> A -> bool) (l : list A) : list A :=
  rev (fold_left (fun acc x => sink less x acc) l []).
End Sort.

(** Two runtimes: maps visited in the order of stdpp's [map_to_list], or in
    the opposite order; both sort by insertion. *)
Definition runtimeA : GoRuntime := {|
  rangeMap := fun K _ _ V m => map_to_list m;
  sortSlice := fun A less l => Sort.insertionSort less l
|}.

Definition runtimeB : GoRuntime := {|
  rangeMap := fun K _ _ V m => rev (map_to_list m);
  sortSlice := fun A less l => Sort.insertionSort less l
|}.

(** Go map reads and updates on counters: a missing key reads as 0. *)
Module Counter.
Definition get {K} `{Countable K} (m : gmap K Z) (k : K) : Z :=
  default 0 (m !! k).
(** [m[k]++] *)
Definition incr {K} `{Countable K} (m : gmap K Z) (k : K) : gmap K Z :=
  <[k := Int.incr (get m k)]> m.
End Counter.

(** ** The host: file system, processes, clock *)

(** A [time.Time], reduced to what the analysis reads: the instant and the
    hour of day (0..23) that the local wall clock shows at it. *)
Record Time : Type := { Unix : Z; Hour : Z }.

(** [os.FileInfo] *)
Record FileInfo : Type := { IsDir : bool; ModTime : Time }.

(** [os.DirEntry]; [Info] is [None] when [entry.Info()] returns an error
    (the entry vanished after the directory was read). *)
Record DirEntry : Type := {
  Name : string;
  EntryIsDir : bool;
  Info : option FileInfo
}.

Record Host : Type := {
  (** [os.UserHomeDir()] *)
  UserHomeDir : option string;
  (** [os.Open(path)] and the reads that follow: the bytes delivered and
      whether the stream ended with a read error; [None] when the file
      cannot be opened. *)
  Open : string -> option (string * bool);
  (** [os.Stat(path)] *)
  Stat : string -> option FileInfo;
  (** [os.ReadFile(path)], whose error the analyzer ignores. *)
  ReadFile : string -> string;
  (** [os.ReadDir(path)] *)
  ReadDir : string -> option (list DirEntry);
  (** [exec.LookPath(tool)] succeeds. *)
  LookPath : string -> bool;
  (** [exec.Command("sh", "-c", cmd).Output()]; [None] on any failure. *)
  shOutput : string -> option string;
  (** [time.Now()] when the entry for line [i] of the file [path] is made. *)
  Now : string -> nat -> Time;
  (** [filepath.Join] and [filepath.Base], kept abstract. *)
  Join : string -> string -> string;
  Base : string -> string
}.

(** A Go call either returns or panics. *)
Inductive result (A : Type) : Type :=
| Ok (a : A)
| Panic (msg : string).
Arguments Ok {A} a.
Arguments Panic {A} msg.

Definition bind {A B} (r : result A) (k : A -> result B) : result B :=
  match r with
  | Ok a => k a
  | Panic msg => Panic msg
  end.

Notation "'do' x <- r ; k" := (bind r (fun x => k))
  (at level 10, x name, r at level 100, k at level 200).

(** ** The data model ([analyzer.go], [types.go]) *)

Record CommandEntry : Type := {
  Command : string;
  Timestamp : Time;
  Count : Z;
  Categories : list string
}.

Record TechProfile : Type := {
  PrimaryRole : string;
  SecondarySkills : list string;
  TechStack : list string;
  Proficiency : gmap string Q
}.

Record WorkPatterns : Type := {
  PeakHours : list Z;
  CommonWorkflows : list string;
  Productivity : gmap string Q
}.

Record ToolUsage : Type := {
  Editors : gmap string Z;
  Languages : gmap string Z;
  BuildTools : gmap string Z
}.

(** The fields [WorkPatterns] and [ToolUsage] carry an underscore: a field
    cannot share the name of a record. Likewise [PluginName] for the [Name]
    of a plugin and [TLTimestamp], [TLCommand], [TLShell] for the fields of
    a timeline entry. *)
Record DetailedInsights : Type := {
  TechnicalProfile : TechProfile;
  WorkPatterns_ : WorkPatterns;
  ToolUsage_ : ToolUsage
}.

Record ConfigInfo : Type := {
  Path : string;
  Modified : Time;
  Content : string
}.

Record PluginInfo : Type := {
  PluginName : string;
  Source : string;
  LastUpdated : Time
}.

Record ShellConfig : Type := {
  ConfigFiles : gmap string ConfigInfo;
  Plugins : list PluginInfo;
  Aliases : gmap string string;
  Environment : gmap string string
}.

Record ShellData : Type := {
  Histories : gmap string (list CommandEntry);
  CommonCmds : gmap string Z;
  TimePatterns : gmap string Z;
  Insights : DetailedInsights;
  ShellConfigs : gmap string ShellConfig
}.

(** [types.TimelineEntry] *)
Record TimelineEntry : Type := {
  TLTimestamp : Time;
  TLCommand : string;
  TLShell : string
}.

(** [InitShellData] *)
Definition InitShellData : ShellData := {|
  Histories := ∅;
  CommonCmds := ∅;
  TimePatterns := ∅;
  Insights := {|
    TechnicalProfile := {| PrimaryRole := ""; SecondarySkills := [];
                           TechStack := []; Proficiency := ∅ |};
    WorkPatterns_ := {| PeakHours := []; CommonWorkflows := [];
                        Productivity := ∅ |};
    ToolUsage_ := {| Editors := ∅; Languages := ∅; BuildTools := ∅ |}
  |};
  ShellConfigs := ∅
|}.

(** ** Source readers and the command classifier ([shell_analysis.go]) *)

(** [cleanHistoryLine] *)
Definition cleanHistoryLine (line : string) : string :=
  let parts := Strings.Fields line in
  if 0 <? Int.len parts then default "" (last parts) else "".

(** The table [patterns] of [categorizeCommand]. *)
Definition categoryPatterns : gmap string (list string) :=
  list_to_map [
    ("development", ["git"; "docker"; "npm"; "go"; "python"]);
    ("system", ["sudo"; "systemctl"; "ps"; "top"]);
    ("file", ["ls"; "cd"; "cp"; "mv"; "rm"])
  ].

(** The inner loop of [categorizeCommand]: does a pattern of the category
    prefix [cmd]? (The [break] leaves at the first one that does.) *)
Definition matchesAny (cmd : string) (patterns : list string) : bool :=
  existsb (fun pattern => Strings.HasPrefix cmd pattern) patterns.

(** [categorizeCommand] *)
Definition categorizeCommand (rt : GoRuntime) (cmd : string) : list string :=
  fold_left
    (fun categories '(category, patterns) =>
       if matchesAny cmd patterns then (categories ++ [category])%list
       else categories)
    (rangeMap rt categoryPatterns) [].


(** The loop of [readHistory] over the scanned lines; [i] is the number of
    the line. *)
Fixpoint historyEntries (rt : GoRuntime) (host : Host) (path : string)
         (i : nat) (lines : list string) : list CommandEntry :=
  match lines with
  | [] => []
  | line :: rest =>
    let cmd := cleanHistoryLine line in
    if negb (String.eqb cmd "") then
      {| Command := cmd;
         Timestamp := Now host path i;
         Count := 0;
         Categories := categorizeCommand rt cmd |}
      :: historyEntries rt host path (S i) rest
    else historyEntries rt host path (S i) rest
  end.

(** [readHistory]: the entries, and whether an error is returned with them
    ([None] entries: the file could not be opened). *)
Definition readHistory (rt : GoRuntime) (host : Host) (path : string)
  : option (list CommandEntry * bool) :=
  match Open host path with
  | None => None
  | Some (content, ioErr) =>
    let '(lines, err) := Bufio.Scan content ioErr in
    Some (historyEntries rt host path 0 lines, err)
  end.

(** [expandPath] *)
Definition expandPath (host : Host) (path : string) : string :=
  if Strings.HasPrefix path "~/" then
    match UserHomeDir host with
    | None => path
    | Some home => Join host home (Bytes.drop 2 path)
    end
  else path.

(** [checkToolInstalled] *)
Definition checkToolInstalled (host : Host) (tool : string) : bool :=
  LookPath host tool.

(** ** The profile aggregator ([shell_analysis.go]) *)

(** [float64(a) / float64(b)] *)
Definition ratio (a b : Z) : Q := (inject_Z a / inject_Z b)%Q.

(** [getPackageManager]: a language without entry reads as the empty
    string. *)
Definition packageManagers : gmap string string :=
  list_to_map [
    ("python", "pip"); ("node", "npm"); ("go", "go get");
    ("rust", "cargo"); ("ruby", "gem"); ("php", "composer")
  ].

Definition getPackageManager (lang : string) : string :=
  default "" (packageManagers !! lang).

(** The regular expressions of [analyzeCommandPattern] use literals,
    concatenation and alternation only. *)
Inductive regexp : Type :=
| Lit (s : string)
| Alt (r1 r2 : regexp)
| Seq (r1 r2 : regexp).

(** The finitely many words of such an expression. *)
Fixpoint words (r : regexp) : list string :=
  match r with
  | Lit s => [s]
  | Alt r1 r2 => (words r1 ++ words r2)%list
  | Seq r1 r2 =>
    flat_map (fun w1 => map (fun w2 => w1 +:+ w2) (words r2)) (words r1)
  end.

(** [regex.MatchString(s)] is not anchored: some word occurs in [s]. *)
Definition MatchString (r : regexp) (s : string) : bool :=
  existsb (fun w => Strings.Contains s w) (words r).

(** The table [patternMap] of [analyzeCommandPattern]. *)
Definition patternMap : gmap string regexp :=
  list_to_map [
    ("git_workflow",
     Seq (Lit "git ")
         (Alt (Lit "commit") (Alt (Lit "push") (Alt (Lit "pull") (Lit "merge")))));
    ("build", Alt (Lit "make") (Alt (Lit "build") (Lit "compile")));
    ("deploy", Alt (Lit "deploy") (Alt (Lit "kubectl") (Lit "docker")));
    ("test", Alt (Lit "test") (Alt (Lit "spec") (Lit "pytest")))
  ].

(** [analyzeCommandPattern] *)
Definition analyzeCommandPattern (rt : GoRuntime) (cmd : string)
           (patterns : gmap string Z) : gmap string Z :=
  fold_left
    (fun patterns '(pattern, regex) =>
       if MatchString regex cmd then Counter.incr patterns pattern
       else patterns)
    (rangeMap rt patternMap) patterns.

(** [getMostUsed] *)
Definition getMostUsed (rt : GoRuntime) (usage : gmap string Z)
  : string * bool :=
  let '(maxKey, maxVal) :=
    fold_left
      (fun '(maxKey, maxVal) '(k, v) =>
         if maxVal <? v then (k, v) else (maxKey, maxVal))
      (rangeMap rt usage) ("", 0) in
  (maxKey, 0 <? maxVal).

(** The local type [hourCount] of [getPeakHours]. *)
Record hourCount : Type := { hour : Z; count : Z }.

(** [getPeakHours] *)
Definition getPeakHours (rt : GoRuntime) (timeOfDay : gmap Z Z) : list Z :=
  let hours :=
    map (fun '(h, c) => {| hour := h; count := c |}) (rangeMap rt timeOfDay) in
  let hours := sortSlice rt (fun a b => count b <? count a) hours in
  map hour (take 3 hours).

(** [calculateProductivityMetrics] *)
Definition calculateProductivityMetrics (entries : list CommandEntry)
           (patterns : gmap string Z) : gmap string Q :=
  let metrics : gmap string Q := ∅ in
  let totalCommands := Int.len entries in
  if totalCommands =? 0 then metrics else
  let uniqueCommands : gmap string bool :=
    fold_left (fun u entry => <[Command entry := true]> u) entries ∅ in
  let metrics :=
    <["Command Variety" :=
        ratio (Z.of_nat (size uniqueCommands)) totalCommands]> metrics in
  let workflowScore :=
    ratio (Int.add (Int.add (Int.add (Counter.get patterns "git_workflow")
                                     (Counter.get patterns "build"))
                            (Counter.get patterns "deploy"))
                   (Counter.get patterns "test"))
          totalCommands in
  <["Workflow Complexity" := workflowScore]> metrics.

(** The table [languages] of [getInstalledLanguages]: identifier and the
    command that probes for it. *)
Definition languages : gmap string string :=
  list_to_map [
    ("python", "python --version"); ("python3", "python3 --version");
    ("node", "node --version"); ("go", "go version");
    ("java", "java -version"); ("ruby", "ruby --version");
    ("php", "php --version"); ("rust", "rustc --version");
    ("perl", "perl --version"); ("scala", "scala -version");
    ("kotlin", "kotlin -version"); ("swift", "swift --version");
    ("r", "R --version"); ("julia", "julia --version");
    ("haskell", "ghc --version"); ("elixir", "elixir --version");
    ("erlang", "erl -version"); ("clang", "clang --version");
    ("gcc", "gcc --version"); ("dotnet", "dotnet --version");
    ("lua", "lua -v"); ("ocaml", "ocaml -version");
    ("dart", "dart --version"); ("zig", "zig version");
    ("nim", "nim --version");
    ("maven", "mvn --version"); ("gradle", "gradle --version");
    ("npm", "npm --version"); ("yarn", "yarn --version");
    ("pnpm", "pnpm --version"); ("pip", "pip --version");
    ("cargo", "cargo --version"); ("composer", "composer --version");
    ("bundler", "bundle --version");
    ("docker", "docker --version"); ("kubectl", "kubectl version --client");
    ("terraform", "terraform version"); ("ansible", "ansible --version");
    ("vagrant", "vagrant --version"); ("helm", "helm version");
    ("aws", "aws --version"); ("gcloud", "gcloud --version");
    ("azure", "az --version");
    ("git", "git --version"); ("svn", "svn --version");
    ("mercurial", "hg --version");
    ("mysql", "mysql --version"); ("psql", "psql --version");
    ("mongodb", "mongod --version"); ("redis", "redis-cli --version");
    ("nginx", "nginx -v"); ("apache2", "apache2 -v");
    ("curl", "curl --version"); ("wget", "wget --version");
    ("vim", "vim --version"); ("nvim", "nvim --version");
    ("emacs", "emacs --version"); ("code", "code --version");
    ("zsh", "zsh --version"); ("bash", "bash --version");
    ("fish", "fish --version"); ("tmux", "tmux -V")
  ].

(** The local type [usageEntry] of [getInstalledLanguages]. *)
Record usageEntry : Type := { name : string; ucount : Z }.

(** [getInstalledLanguages]: at most 10 of the identifiers whose probe
    succeeds, each with the output of its probe. *)
Definition getInstalledLanguages (rt : GoRuntime) (host : Host)
  : gmap string string :=
  let installed : gmap string string :=
    fold_left
      (fun installed '(lang, cmd) =>
         match shOutput host cmd with
         | Some out => <[lang := out]> installed
         | None => installed
         end)
      (rangeMap rt languages) ∅ in
  let usageList :=
    map (fun '(nm, _) => {| name := nm; ucount := 0 |})
        (rangeMap rt installed) in
  let usageList :=
    sortSlice rt (fun a b => ucount b <? ucount a) usageList in
  fold_left
    (fun result u => <[name u := default "" (installed !! name u)]> result)
    (take 10 usageList) ∅.

(** The four maps that the loop of [analyzeCommands] fills. *)
Record Tally : Type := {
  langUsage : gmap string Z;
  toolUsage : gmap string Z;
  timeOfDay : gmap Z Z;
  commandPatterns : gmap string Z
}.

Definition emptyTally : Tally :=
  {| langUsage := ∅; toolUsage := ∅; timeOfDay := ∅; commandPatterns := ∅ |}.

(** The loop [for lang := range installedLangs] over one command. *)
Definition countLanguages (rt : GoRuntime) (installedLangs : gmap string string)
           (cmd : string) (usage : gmap string Z) : gmap string Z :=
  fold_left
    (fun usage '(lang, _) =>
       if Strings.Contains cmd lang
          || Strings.Contains cmd (getPackageManager lang)
       then Counter.incr usage lang else usage)
    (rangeMap rt installedLangs) usage.

(** The loops over a fixed list of tools: a tool counts when it prefixes the
    command and is installed. *)
Definition countTools (host : Host) (tools : list string) (cmd : string)
           (usage : gmap string Z) : gmap string Z :=
  fold_left
    (fun usage tool =>
       if Strings.HasPrefix cmd tool && checkToolInstalled host tool
       then Counter.incr usage tool else usage)
    tools usage.

Definition devTools : list string :=
  ["git"; "docker"; "kubectl"; "terraform"; "ansible"; "make"].

(** The body of the loop [for _, entry := range entries] of
    [analyzeCommands]. *)
Definition analyzeEntry (rt : GoRuntime) (host : Host)
           (installedLangs : gmap string string)
           (t : Tally) (entry : CommandEntry) : Tally :=
  let cmd := Command entry in
  let hour := Hour (Timestamp entry) in
  {| timeOfDay := Counter.incr (timeOfDay t) hour;
     langUsage := countLanguages rt installedLangs cmd (langUsage t);
     toolUsage := countTools host devTools cmd (toolUsage t);
     commandPatterns := analyzeCommandPattern rt cmd (commandPatterns t) |}.

Definition tally (rt : GoRuntime) (host : Host)
           (installedLangs : gmap string string)
           (entries : list CommandEntry) : Tally :=
  fold_left (analyzeEntry rt host installedLangs) entries emptyTally.

(** The two loops that write [techProfile.Proficiency]. *)
Definition setProficiency (rt : GoRuntime) (totalCommands : Z)
           (usage : gmap string Z) (proficiency : gmap string Q)
  : gmap string Q :=
  fold_left
    (fun proficiency '(id, n) => <[id := ratio n totalCommands]> proficiency)
    (rangeMap rt usage) proficiency.

(** [analyzeCommands]: the insights of [data] after the call. *)
Definition analyzeCommands (rt : GoRuntime) (host : Host)
           (entries : list CommandEntry) (data : ShellData) : ShellData :=
  let installedLangs := getInstalledLanguages rt host in
  let t := tally rt host installedLangs entries in
  let techProfile := TechnicalProfile (Insights data) in
  let primaryRole :=
    let '(primaryLang, ok) := getMostUsed rt (langUsage t) in
    if ok then Strings.Title primaryLang +:+ " Developer"
    else PrimaryRole techProfile in
  let techStack :=
    fold_left
      (fun stack '(lang, _) =>
         if 0 <? Counter.get (langUsage t) lang then (stack ++ [lang])%list
         else stack)
      (rangeMap rt installedLangs) [] in
  let totalCommands := Int.len entries in
  let proficiency :=
    if 0 <? totalCommands then
      setProficiency rt totalCommands (toolUsage t)
        (setProficiency rt totalCommands (langUsage t)
           (Proficiency techProfile))
    else Proficiency techProfile in
  let patterns := WorkPatterns_ (Insights data) in
  {| Histories := Histories data;
     CommonCmds := CommonCmds data;
     TimePatterns := TimePatterns data;
     ShellConfigs := ShellConfigs data;
     Insights := {|
       TechnicalProfile := {|
         PrimaryRole := primaryRole;
         SecondarySkills := SecondarySkills techProfile;
         TechStack := techStack;
         Proficiency := proficiency |};
       WorkPatterns_ := {|
         PeakHours := getPeakHours rt (timeOfDay t);
         CommonWorkflows := CommonWorkflows patterns;
         Productivity :=
           calculateProductivityMetrics entries (commandPatterns t) |};
       ToolUsage_ := ToolUsage_ (Insights data) |} |}.

Definition editors : list string := ["vim"; "nvim"; "emacs"; "code"; "nano"].
Definition buildTools : list string :=
  ["make"; "maven"; "gradle"; "npm"; "yarn"; "pip"; "cargo"; "composer";
   "bundler"].

(** [analyzeToolUsage] *)
Definition analyzeToolUsage (rt : GoRuntime) (host : Host)
           (entries : list CommandEntry) : ToolUsage :=
  let installedLangs := getInstalledLanguages rt host in
  fold_left
    (fun (u : ToolUsage) entry =>
       let cmd := Command entry in
       {| Languages := countLanguages rt installedLangs cmd (Languages u);
          Editors := countTools host editors cmd (Editors u);
          BuildTools := countTools host buildTools cmd (BuildTools u) |})
    entries
    {| Editors := ∅; Languages := ∅; BuildTools := ∅ |}.

(** ** The config parser ([shell_analysis.go]) *)

(** The cutset of [strings.Trim] in [parseShellConfig]: the single and the
    double quote. *)
Definition quoteChars : string := String "'"%char (String "034"%char "").

(** One declaration line of [parseShellConfig]: after the keyword, the text
    is cut at the first [=]; the name is trimmed of spaces, the value of
    spaces and then of quotes. *)
Definition parseDecl (keyword line : string) : option (string * string) :=
  if Strings.HasPrefix line keyword then
    match Strings.SplitN2 (Strings.TrimPrefix line keyword) "=" with
    | [n; v] =>
      Some (Strings.TrimSpace n, Strings.Trim (Strings.TrimSpace v) quoteChars)
    | _ => None
    end
  else None.

(** The body of the loop of [parseShellConfig]. *)
Definition parseConfigLine (config : ShellConfig) (line : string)
  : ShellConfig :=
  let aliases :=
    match parseDecl "alias " line with
    | Some (n, v) => <[n := v]> (Aliases config)
    | None => Aliases config
    end in
  let environment :=
    match parseDecl "export " line with
    | Some (n, v) => <[n := v]> (Environment config)
    | None => Environment config
    end in
  {| ConfigFiles := ConfigFiles config;
     Plugins := Plugins config;
     Aliases := aliases;
     Environment := environment |}.

(** [parseShellConfig] *)
Definition parseShellConfig (content : string) (config : ShellConfig)
  : ShellConfig :=
  fold_left parseConfigLine (fst (Bufio.Scan content false)) config.

Definition addPlugin (config : ShellConfig) (p : PluginInfo) : ShellConfig :=
  {| ConfigFiles := ConfigFiles config;
     Plugins := (Plugins config ++ [p])%list;
     Aliases := Aliases config;
     Environment := Environment config |}.

(** The loop over plugin-manager directories shared by [detectZshPlugins]
    and [detectBashPlugins]. *)
Definition detectManagers (host : Host) (managers : list string)
           (config : ShellConfig) : ShellConfig :=
  fold_left
    (fun config manager =>
       let path := expandPath host manager in
       match Stat host path with
       | Some info =>
         if IsDir info then
           addPlugin config {| PluginName := Base host manager;
                               Source := path;
                               LastUpdated := ModTime info |}
         else config
       | None => config
       end)
    managers config.

(** [detectZshPlugins] *)
Definition detectZshPlugins (host : Host) (config : ShellConfig)
  : ShellConfig :=
  let omzPath := expandPath host "~/.oh-my-zsh" in
  let config :=
    match Stat host omzPath with
    | Some info =>
      if IsDir info then
        let pluginsPath := Join host omzPath "plugins" in
        match ReadDir host pluginsPath with
        | Some pluginsDir =>
          fold_left
            (fun config pluginDir =>
               if EntryIsDir pluginDir then
                 addPlugin config
                   {| PluginName := Name pluginDir;
                      Source := Join host pluginsPath (Name pluginDir);
                      LastUpdated := ModTime info |}
               else config)
            pluginsDir config
        | None => config
        end
      else config
    | None => config
    end in
  detectManagers host ["~/.antigen"; "~/.zinit"; "~/.zplug"] config.

(** The loop of [detectFishPlugins]: [info, _ := file.Info()] drops the
    error, and [info.ModTime()] on the nil [info] panics. *)
Fixpoint fishPlugins (host : Host) (fishPluginPath : string)
         (files : list DirEntry) (config : ShellConfig) : result ShellConfig :=
  match files with
  | [] => Ok config
  | file :: rest =>
    if Strings.HasSuffix (Name file) ".fish" then
      match Info file with
      | Some info =>
        fishPlugins host fishPluginPath rest
          (addPlugin config
             {| PluginName := Strings.TrimSuffix (Name file) ".fish";
                Source := Join host fishPluginPath (Name file);
                LastUpdated := ModTime info |})
      | None => Panic "invalid memory address or nil pointer dereference"
      end
    else fishPlugins host fishPluginPath rest config
  end.

(** [detectFishPlugins] *)
Definition detectFishPlugins (host : Host) (config : ShellConfig)
  : result ShellConfig :=
  let fishPluginPath := expandPath host "~/.config/fish/conf.d" in
  match ReadDir host fishPluginPath with
  | Some files => fishPlugins host fishPluginPath files config
  | None => Ok config
  end.

(** [detectBashPlugins] *)
Definition detectBashPlugins (host : Host) (config : ShellConfig)
  : ShellConfig :=
  detectManagers host ["~/.bash_it"; "~/.local/share/bash-completion"] config.

(** [detectPlugins] *)
Definition detectPlugins (host : Host) (shell : string) (config : ShellConfig)
  : result ShellConfig :=
  if String.eqb shell "zsh" then Ok (detectZshPlugins host config)
  else if String.eqb shell "fish" then detectFishPlugins host config
  else if String.eqb shell "bash" then Ok (detectBashPlugins host config)
  else Ok config.

(** The table [configPaths] of [analyzeShellConfigs]. *)
Definition configPaths : gmap string (list string) :=
  list_to_map [
    ("bash", ["~/.bashrc"; "~/.bash_profile"; "~/.bash_aliases"]);
    ("zsh", ["~/.zshrc"; "~/.zsh_plugins"; "~/.zprofile"]);
    ("fish", ["~/.config/fish/config.fish"; "~/.config/fish/functions";
              "~/.config/fish/conf.d"])
  ].

(** The loop of [analyzeShellConfigs] over the config files of a shell. *)
Definition readConfigFiles (host : Host) (paths : list string)
           (config : ShellConfig) : ShellConfig :=
  fold_left
    (fun config path =>
       let expandedPath := expandPath host path in
       match Stat host expandedPath with
       | Some info =>
         let content := ReadFile host expandedPath in
         parseShellConfig content
           {| ConfigFiles :=
                <[path := {| Path := expandedPath;
                             Modified := ModTime info;
                             Content := content |}]> (ConfigFiles config);
              Plugins := Plugins config;
              Aliases := Aliases config;
              Environment := Environment config |}
       | None => config
       end)
    paths config.

(** [analyzeShellConfigs] *)
Definition analyzeShellConfigs (host : Host) (shell : string)
  : result ShellConfig :=
  let config :=
    {| ConfigFiles := ∅; Plugins := []; Aliases := ∅; Environment := ∅ |} in
  let config :=
    readConfigFiles host (default [] (configPaths !! shell)) config in
  detectPlugins host shell config.

(** ** [AnalyzeShells] *)

Definition shellPaths : gmap string string :=
  list_to_map [
    ("bash", "~/.bash_history");
    ("zsh", "~/.zsh_history");
    ("fish", "~/.local/share/fish/fish_history")
  ].

Definition setHistory (shell : string) (history : list CommandEntry)
           (data : ShellData) : ShellData :=
  {| Histories := <[shell := history]> (Histories data);
     CommonCmds := CommonCmds data;
     TimePatterns := TimePatterns data;
     Insights := Insights data;
     ShellConfigs := ShellConfigs data |}.

Definition setShellConfig (shell : string) (config : ShellConfig)
           (data : ShellData) : ShellData :=
  {| Histories := Histories data;
     CommonCmds := CommonCmds data;
     TimePatterns := TimePatterns data;
     Insights := Insights data;
     ShellConfigs := <[shell := config]> (ShellConfigs data) |}.

Definition setToolUsage (u : ToolUsage) (data : ShellData) : ShellData :=
  {| Histories := Histories data;
     CommonCmds := CommonCmds data;
     TimePatterns := TimePatterns data;
     Insights := {| TechnicalProfile := TechnicalProfile (Insights data);
                    WorkPatterns_ := WorkPatterns_ (Insights data);
                    ToolUsage_ := u |};
     ShellConfigs := ShellConfigs data |}.

(** The loop [for shell, path := range shellPaths] of [AnalyzeShells]: a
    shell whose history cannot be read without error is skipped. *)
Fixpoint analyzeShellsLoop (rt : GoRuntime) (host : Host)
         (shells : list (string * string)) (data : ShellData)
  : result ShellData :=
  match shells with
  | [] => Ok data
  | (shell, path) :: rest =>
    let expandedPath := expandPath host path in
    match readHistory rt host expandedPath with
    | Some (history, false) =>
      let data := setHistory shell history data in
      let data := analyzeCommands rt host history data in
      do config <- analyzeShellConfigs host shell;
      analyzeShellsLoop rt host rest (setShellConfig shell config data)
    | _ => analyzeShellsLoop rt host rest data
    end
  end.

(** [AnalyzeShells] *)
Definition AnalyzeShells (rt : GoRuntime) (host : Host) : result ShellData :=
  do data <- analyzeShellsLoop rt host (rangeMap rt shellPaths) InitShellData;
  let allEntries := concat (map snd (rangeMap rt (Histories data))) in
  Ok (setToolUsage (analyzeToolUsage rt host allEntries) data).

(** ** The timeline curator ([analyzer.go]) *)

(** [isTypoCommand] *)
Definition isTypoCommand (command : string) : bool :=
  existsb (fun typo => String.eqb command typo)
    ["sl"; "cd.."; "pythoon"; "gti"; "vmi"; "nivm"; "emasc"; "clea"; "exot"].

(** [isInterestingCommand] *)
Definition isInterestingCommand (command : string) : bool :=
  let interestingCommands :=
    ["git"; "docker"; "kubectl"; "terraform"; "ansible"; "make"; "npm"; "go";
     "python"; "java"; "ssh"; "scp"; "curl"; "wget"; "vim"; "nvim"; "emacs";
     "code"] in
  let hasSpecialChars := Strings.ContainsAny command "|><&;" in
  let isTypo := isTypoCommand command in
  if existsb (fun interesting => Strings.HasPrefix command interesting)
             interestingCommands
  then true
  else hasSpecialChars || isTypo.

(** The state of the loops of [GenerateTimelineData]. *)
Record Curation : Type := {
  timelineData : list TimelineEntry;
  uniqueCommands : gmap string bool
}.

(** The inner loop over one history: [inl] when the history is exhausted,
    [inr] when the function returns from inside the loop. *)
Fixpoint curateHistory (shell : string) (history : list CommandEntry)
         (st : Curation) : Curation + list TimelineEntry :=
  match history with
  | [] => inl st
  | entry :: rest =>
    if default false (uniqueCommands st !! Command entry)
    then curateHistory shell rest st
    else
      let st :=
        if isInterestingCommand (Command entry) then
          {| timelineData :=
               (timelineData st ++
                [{| TLTimestamp := Timestamp entry;
                    TLCommand := Command entry;
                    TLShell := shell |}])%list;
             uniqueCommands := <[Command entry := true]> (uniqueCommands st) |}
        else st in
      if 15 <=? Int.len (timelineData st) then inr (timelineData st)
      else curateHistory shell rest st
  end.

(** The outer loop [for shell, history := range data.Histories]. *)
Fixpoint curateShells (shells : list (string * list CommandEntry))
         (st : Curation) : list TimelineEntry :=
  match shells with
  | [] => timelineData st
  | (shell, history) :: rest =>
    match curateHistory shell history st with
    | inl st' => curateShells rest st'
    | inr timeline => timeline
    end
  end.

(** [GenerateTimelineData] *)
Definition GenerateTimelineData (rt : GoRuntime) (data : ShellData)
  : list TimelineEntry :=
  curateShells (rangeMap rt (Histories data))
               {| timelineData := []; uniqueCommands := ∅ |}.

(** ** The advice helpers ([shell_analysis.go]) *)

(** [strings.Join(elems, sep)] *)
Fixpoint stringsJoin (elems : list string) (sep : string) : string :=
  match elems with
  | [] => ""
  | [e] => e
  | e :: rest => e +:+ sep +:+ stringsJoin rest sep
  end.

(** The body of the loops of [analyzeCommandComplexity]; the two [float64]
    counters [totalCommands] and [complexCommands] are rationals (they hold
    multiples of one half, which doubles add without rounding). *)
Definition complexityStep (acc : Q * Q) (entry : CommandEntry) : Q * Q :=
  let '(totalCommands, complexCommands) := acc in
  let totalCommands := (totalCommands + 1)%Q in
  let complexCommands :=
    if Strings.Contains (Command entry) "|"
       || Strings.Contains (Command entry) ">"
       || Strings.Contains (Command entry) "<"
    then (complexCommands + 1)%Q else complexCommands in
  let complexCommands :=
    if 2 <? Int.len (Strings.Fields (Command entry))
    then (complexCommands + (1 # 2))%Q else complexCommands in
  (totalCommands, complexCommands).

(** [analyzeCommandComplexity] *)
Definition analyzeCommandComplexity (rt : GoRuntime) (data : ShellData) : Q :=
  let '(totalCommands, complexCommands) :=
    fold_left
      (fun acc '(_, history) => fold_left complexityStep history acc)
      (rangeMap rt (Histories data)) (0%Q, 0%Q) in
  if Qeq_bool totalCommands 0 then 0%Q
  else ((complexCommands / totalCommands) * 100)%Q.

(** The body of the loops of [analyzeCommandPatterns]: a command of at least
    two fields counts for its first two fields. *)
Definition sequenceStep (patterns : gmap string Z) (entry : CommandEntry)
  : gmap string Z :=
  let parts := Strings.Fields (Command entry) in
  if 1 <? Int.len parts
  then Counter.incr patterns (stringsJoin (take 2 parts) " ")
  else patterns.

(** [analyzeCommandPatterns] *)
Definition analyzeCommandPatterns (rt : GoRuntime) (data : ShellData)
  : gmap string Z :=
  fold_left
    (fun patterns '(_, history) => fold_left sequenceStep history patterns)
    (rangeMap rt (Histories data)) ∅.

(** [generateWorkflowTips] *)
Definition generateWorkflowTips (rt : GoRuntime) (data : ShellData)
  : list string :=
  let commonPatterns := analyzeCommandPatterns rt data in
  fold_left
    (fun tips '(pattern, n) =>
       if 10 <? n then
         tips ++ ["You frequently use '" +:+ pattern
                  +:+ "'. Consider creating an alias for this pattern"]
       else tips)
    (rangeMap rt commonPatterns) [].

Definition aliasAdvice (shell : string) : string :=
  "Consider adding more aliases to your " +:+ shell
  +:+ " configuration to improve productivity".

Definition pluginAdvice (shell : string) : string :=
  "Explore popular " +:+ shell +:+ " plugins to enhance your shell experience".

(** The body of the loop of [generateRecommendations]. *)
Definition recommendStep (recommendations : list string)
           (item : string * ShellConfig) : list string :=
  let '(shell, config) := item in
  let recommendations :=
    if Z.of_nat (size (Aliases config)) <? 5
    then recommendations ++ [aliasAdvice shell] else recommendations in
  if Int.len (Plugins config) <? 3
  then recommendations ++ [pluginAdvice shell] else recommendations.

(** [generateRecommendations] *)
Definition generateRecommendations (rt : GoRuntime) (data : ShellData)
  : list string :=
  fold_left recommendStep (rangeMap rt (ShellConfigs data)) [].

(** ** Sample hosts and histories *)

Definition newline : string := String "010"%char "".
Definition dquote : string := String "034"%char "".

(** A history file of three lines:
    [git commit -m "x"], [git commit -m "y"], [ls -la]. *)
Definition gitHistory : string :=
  "git commit -m " +:+ dquote +:+ "x" +:+ dquote +:+ newline +:+
  "git commit -m " +:+ dquote +:+ "y" +:+ dquote +:+ newline +:+
  "ls -la" +:+ newline.

(** A host whose home holds that file as the bash history and nothing else,
    with [git] installed and nothing else. *)
Definition gitHost : Host := {|
  UserHomeDir := Some "/home/u";
  Open := fun path =>
    if String.eqb path "/home/u/.bash_history" then Some (gitHistory, false)
    else None;
  Stat := fun _ => None;
  ReadFile := fun _ => "";
  ReadDir := fun _ => None;
  LookPath := fun tool => String.eqb tool "git";
  shOutput := fun cmd =>
    if String.eqb cmd "git --version" then Some "git version 2.43.0"
    else None;
  Now := fun _ _ => {| Unix := 1700000000; Hour := 22 |};
  Join := fun dir file => dir +:+ "/" +:+ file;
  Base := fun path => path
|}.

(** Three instants of one evening: 22:13:20, 22:59:59 and 23:00:00. *)
Definition evening : Time := {| Unix := 1700000000; Hour := 22 |}.
Definition beforeEleven : Time := {| Unix := 1700002799; Hour := 22 |}.
Definition atEleven : Time := {| Unix := 1700002800; Hour := 23 |}.

Definition entryAt (cmd : string) (t : Time) : CommandEntry :=
  {| Command := cmd; Timestamp := t; Count := 0; Categories := [] |}.

(** The entries that [readHistory] makes of [gitHistory]. *)
Definition gitEntries : list CommandEntry :=
  [entryAt (dquote +:+ "x" +:+ dquote) evening;
   entryAt (dquote +:+ "y" +:+ dquote) evening;
   entryAt "-la" evening].


(** A history read across 23:00: one entry made in hour 22, one in hour
    23. *)
Definition tiedEntries : list CommandEntry :=
  [entryAt "pwd" beforeEleven; entryAt "ls" atEleven].

(** Three entries: one in hour 22, two in hour 23. *)
Definition untiedEntries : list CommandEntry :=
  [entryAt "pwd" beforeEleven; entryAt "ls" atEleven; entryAt "cd" atEleven].

(** A history of 20 entries with 5 distinct commands. *)
Definition varietyEntries : list CommandEntry :=
  concat (replicate 4
            (map (fun cmd => entryAt cmd evening)
                 ["git"; "docker"; "npm"; "ls"; "cd"])).

(** A config file that declares the alias [ll] twice. *)
Definition aliasConfig : string :=
  "export EDITOR=vim" +:+ newline +:+
  "alias ll='ls'" +:+ newline +:+
  "alias gs=" +:+ dquote +:+ "git status" +:+ dquote +:+ newline +:+
  "alias ll='ls -la'" +:+ newline.

Definition emptyConfig : ShellConfig :=
  {| ConfigFiles := ∅; Plugins := []; Aliases := ∅; Environment := ∅ |}.

(** A host on which the home directory cannot be resolved; the directory
    in which the analyzer runs holds a directory named [~] with a fish
    history and one fish plugin file. *)
Definition homelessHost : Host := {|
  UserHomeDir := None;
  Open := fun path =>
    if String.eqb path "~/.local/share/fish/fish_history"
    then Some ("ls" +:+ newline, false) else None;
  Stat := fun _ => None;
  ReadFile := fun _ => "";
  ReadDir := fun path =>
    if String.eqb path "~/.config/fish/conf.d"
    then Some [{| Name := "z.fish";
                  EntryIsDir := false;
                  Info := Some {| IsDir := false;
                                  ModTime := {| Unix := 1600000000;
                                                Hour := 8 |} |} |}]
    else None;
  LookPath := fun _ => false;
  shOutput := fun _ => None;
  Now := fun _ _ => {| Unix := 1700000000; Hour := 22 |};
  Join := fun dir file => dir +:+ "/" +:+ file;
  Base := fun path => path
|}.

(** A host whose home holds a [.bashrc] with the content [aliasConfig] and
    a plugin directory [.bash_it], and nothing else. *)
Definition bashrcHost : Host := {|
  UserHomeDir := Some "/home/u";
  Open := fun _ => None;
  Stat := fun path =>
    if String.eqb path "/home/u/.bashrc"
    then Some {| IsDir := false; ModTime := evening |}
    else if String.eqb path "/home/u/.bash_it"
    then Some {| IsDir := true; ModTime := evening |}
    else None;
  ReadFile := fun path =>
    if String.eqb path "/home/u/.bashrc" then aliasConfig else "";
  ReadDir := fun _ => None;
  LookPath := fun _ => false;
  shOutput := fun _ => None;
  Now := fun _ _ => evening;
  Join := fun dir file => dir +:+ "/" +:+ file;
  Base := fun path => path
|}.

(** A host with a bash history read in hour 22 and a zsh history read in
    hour 23; no probe succeeds and no tool is installed. *)
Definition twoShellHost : Host := {|
  UserHomeDir := Some "/home/u";
  Open := fun path =>
    if String.eqb path "/home/u/.bash_history"
    then Some ("ls" +:+ newline, false)
    else if String.eqb path "/home/u/.zsh_history"
    then Some ("pwd" +:+ newline, false)
    else None;
  Stat := fun _ => None;
  ReadFile := fun _ => "";
  ReadDir := fun _ => None;
  LookPath := fun _ => false;
  shOutput := fun _ => None;
  Now := fun path _ =>
    if String.eqb path "/home/u/.zsh_history" then atEleven else beforeEleven;
  Join := fun dir file => dir +:+ "/" +:+ file;
  Base := fun path => path
|}.

(** A [ShellData] that holds the 20 entries of [varietyEntries] as the bash
    history. *)
Definition varietyData : ShellData :=
  setHistory "bash" varietyEntries InitShellData.

(** A [ShellData] whose zsh history holds the command [git status] 11
    times. *)
Definition statusData : ShellData :=
  setHistory "zsh" (replicate 11 (entryAt "git status" evening)) InitShellData.

(** A [ShellData] that holds the empty config for bash. *)
Definition sparseData : ShellData :=
  setShellConfig "bash" emptyConfig InitShellData.


(** A host on which every probe succeeds. *)
Definition probeAllHost : Host := {|
  UserHomeDir := Some "/home/u";
  Open := fun _ => None;
  Stat := fun _ => None;
  ReadFile := fun _ => "";
  ReadDir := fun _ => None;
  LookPath := fun _ => true;
  shOutput := fun cmd => Some cmd;
  Now := fun _ _ => evening;
  Join := fun dir file => dir +:+ "/" +:+ file;
  Base := fun path => path
|}.


(** ** Vocabulary of the properties *)



(** [Chunks s cs]: [cs] cuts [s] into its runes, each decoded at its
    place. *)
Fixpoint Chunks (s : string) (cs : list (Z * string)) : Prop :=
  match cs with
  | [] => s = ""
  | (r, b) :: cs' =>
    b <> "" /\ Utf8.DecodeRuneInString s = (r, String.length b)
    /\ Bytes.take (String.length b) s = b
    /\ Chunks (Bytes.drop (String.length b) s) cs'
  end.

Definition nonspace (c : Z * string) : Prop :=
  Unicode.IsSpace (fst c) = false.

(** A token: a non-empty string none of whose runes is white space. *)
Definition Token (f : string) : Prop :=
  f <> "" /\ Forall nonspace (Utf8.range f).

(** The invariant of the loops of the curator: [uniqueCommands] marks
    exactly the commands [seen] in the timeline so far, and the timeline is
    not full. *)
Definition curating (st : Curation) (seen : gset string) : Prop :=
  (forall cmd, default false (uniqueCommands st !! cmd) = true
               <-> cmd ∈ seen)
  /\ (length (timelineData st) < 15)%nat.

(** The number of elements of [es] that satisfy [h]. *)
Definition hitCount {E} (h : E -> bool) (es : list E) : Z :=
  Z.of_nat (length (List.filter h es)).

(** The test of the language loop: the command mentions the identifier or
    its package manager. *)
Definition usesLanguage (cmd lang : string) : bool :=
  Strings.Contains cmd lang || Strings.Contains cmd (getPackageManager lang).

(** The entry [e] counts for the language [lang]. *)
Definition langHit (installedLangs : gmap string string) (lang : string)
           (e : CommandEntry) : bool :=
  bool_decide (is_Some (installedLangs !! lang))
  && usesLanguage (Command e) lang.

(** The entry [e] counts for the tool [tool] of the list [tools]. *)
Definition toolHit (host : Host) (tools : list string) (tool : string)
           (e : CommandEntry) : bool :=
  bool_decide (tool ∈ tools)
  && (Strings.HasPrefix (Command e) tool && checkToolInstalled host tool).

(** The entry [e] falls into the bucket of the hour [h]. *)
Definition hourHit (h : Z) (e : CommandEntry) : bool :=
  bool_decide (Hour (Timestamp e) = h).

(** The entry [e] matches the pattern named [pattern]. *)
Definition patternHit (pattern : string) (e : CommandEntry) : bool :=
  match patternMap !! pattern with
  | Some regex => MatchString regex (Command e)
  | None => false
  end.

(** The timeline entry of a history entry of the shell [shell]. *)
Definition timelineEntry (shell : string) (entry : CommandEntry)
  : TimelineEntry :=
  {| TLTimestamp := Timestamp entry;
     TLCommand := Command entry;
     TLShell := shell |}.

(** All entries of all shells, in the order in which the curator meets them:
    shell after shell, each history from its first line on. *)
Definition candidates (shells : list (string * list CommandEntry))
  : list TimelineEntry :=
  flat_map (fun '(shell, history) => map (timelineEntry shell) history) shells.

(** The first entry of each command text that is not in [seen]. *)
Fixpoint firstOccurrences (seen : gset string) (l : list TimelineEntry)
  : list TimelineEntry :=
  match l with
  | [] => []
  | e :: l' =>
    if bool_decide (TLCommand e ∈ seen) then firstOccurrences seen l'
    else e :: firstOccurrences ({[TLCommand e]} ∪ seen) l'
  end.

(** The curated timeline in the words of the specification: of the
    interesting entries, the first occurrence of each command text, and of
    those the first 15. *)
Definition curated (shells : list (string * list CommandEntry))
  : list TimelineEntry :=
  take 15
    (firstOccurrences ∅
       (List.filter (fun e => isInterestingCommand (TLCommand e))
                    (candidates shells))).

(** The metadata of every fish plugin file that [detectFishPlugins] lists
    can be read. *)
Definition fishInfoReadable (host : Host) : Prop :=
  forall files,
    ReadDir host (expandPath host "~/.config/fish/conf.d") = Some files ->
    Forall (fun file => Strings.HasSuffix (Name file) ".fish" = true ->
                        is_Some (Info file)) files.




(** The identifiers of the table [languages] whose probe succeeds on
    [host], each with the output of its probe. *)
Definition probed (host : Host) : gmap string string :=
  omap (shOutput host) languages.

(** The plugin that [detectFishPlugins] makes of a file of the directory
    [dir] whose metadata can be read. *)
Definition fishPluginOf (host : Host) (dir : string) (file : DirEntry)
  : option PluginInfo :=
  match Info file with
  | Some info =>
    Some {| PluginName := Strings.TrimSuffix (Name file) ".fish";
            Source := Join host dir (Name file);
            LastUpdated := ModTime info |}
  | None => None
  end.

(** The config [config] with the plugins [ps] added at the end. *)
Definition withPlugins (config : ShellConfig) (ps : list PluginInfo)
  : ShellConfig :=
  {| ConfigFiles := ConfigFiles config;
     Plugins := Plugins config ++ ps;
     Aliases := Aliases config;
     Environment := Environment config |}.

(** What [analyzeShellConfigs] records of the config file [path]. *)
Definition configInfoOf (host : Host) (path : string) (info : FileInfo)
  : ConfigInfo :=
  {| Path := expandPath host path;
     Modified := ModTime info;
     Content := ReadFile host (expandPath host path) |}.

(** The history of [path] when [readHistory] reads it without error. *)
Definition readable (rt : GoRuntime) (host : Host) (path : string)
  : option (list CommandEntry) :=
  match readHistory rt host (expandPath host path) with
  | Some (history, false) => Some history
  | _ => None
  end.

(** The history that [AnalyzeShells] keeps for [shell]. *)
Definition historyOf (rt : GoRuntime) (host : Host) (shell : string)
  : option (list CommandEntry) :=
  shellPaths !! shell ≫= readable rt host.

(** All entries of all histories, shell after shell in the order of the
    iteration. *)
Definition allEntries (rt : GoRuntime) (data : ShellData)
  : list CommandEntry :=
  concat (map snd (rangeMap rt (Histories data))).

(** The command of [e] holds a pipe or a redirection. *)
Definition piped (e : CommandEntry) : bool :=
  Strings.Contains (Command e) "|"
  || Strings.Contains (Command e) ">"
  || Strings.Contains (Command e) "<".

(** The command of [e] has more than two fields. *)
Definition wordy (e : CommandEntry) : bool :=
  2 <? Int.len (Strings.Fields (Command e)).

(** The command of [e] has at least two fields and its first two, joined by
    a space, are [pattern]. *)
Definition startsWithPair (pattern : string) (e : CommandEntry) : bool :=
  let parts := Strings.Fields (Command e) in
  (1 <? Int.len parts)
  && bool_decide (stringsJoin (take 2 parts) " " = pattern).

(** The tip of [generateWorkflowTips] for [pattern]. *)
Definition tipFor (pattern : string) : string :=
  "You frequently use '" +:+ pattern
  +:+ "'. Consider creating an alias for this pattern".

(** The byte [c] is ASCII and differs from the rune [r]. *)
Definition strayAscii (r : Z) (c : ascii) : bool :=
  (Bytes.val c <? 0x80) && negb (Bytes.val c =? r).

(** The byte [c] is an ASCII white-space byte. *)
Definition asciiSpace (c : ascii) : bool :=
  (Bytes.val c <? 0x80) && Unicode.IsSpace (Bytes.val c).

(** The raw lines before the first one that does not fit the scanner's
    buffer. *)
Fixpoint fitting (raws : list string) : list string :=
  match raws with
  | [] => []
  | raw :: rest => if Bufio.fits raw then raw :: fitting rest else []
  end.


(* ===================================================================== *)
(** * Part II. Properties                                                 *)
(* ===================================================================== *)

(** ** Byte strings *)

Module BytesFacts.
Import Bytes.

Lemma append_cons (c : ascii) (s t : string) :
  String c s +:+ t = String c (s +:+ t).
Proof. reflexivity. Qed.

Lemma append_nil_l (s : string) : "" +:+ s = s.
Proof. reflexivity. Qed.

Ltac sapp := rewrite ?append_cons, ?append_nil_l in *.

Lemma append_nil_r (s : string) : s +:+ "" = s.
Proof. induction s as [|c s IH]; sapp; [reflexivity | now rewrite IH]. Qed.

Lemma append_assoc (a b c : string) : (a +:+ b) +:+ c = a +:+ (b +:+ c).
Proof. induction a as [|x a IH]; sapp; [reflexivity | now rewrite IH]. Qed.

Lemma length_append (a b : string) :
  String.length (a +:+ b) = (String.length a + String.length b)%nat.
Proof.
  induction a as [|x a IH]; sapp; simpl; [reflexivity | now rewrite IH].
Qed.

Lemma take_drop (n : nat) (s : string) : take n s +:+ drop n s = s.
Proof.
  revert s; induction n as [|n IH]; intros [|c s]; simpl; sapp;
    try reflexivity.
  now rewrite IH.
Qed.

Lemma length_take (n : nat) (s : string) :
  (n <= String.length s)%nat -> String.length (take n s) = n.
Proof.
  revert s; induction n as [|n IH]; intros [|c s]; simpl; intros H;
    try reflexivity; try lia.
  rewrite IH; [reflexivity | lia].
Qed.

Lemma length_drop (n : nat) (s : string) :
  String.length (drop n s) = (String.length s - n)%nat.
Proof.
  revert s; induction n as [|n IH]; intros [|c s]; simpl; try reflexivity.
  apply IH.
Qed.

Lemma take_app_length (a b : string) : take (String.length a) (a +:+ b) = a.
Proof.
  induction a as [|x a IH]; sapp; simpl; [now destruct b | now rewrite IH].
Qed.

Lemma drop_app_length (a b : string) : drop (String.length a) (a +:+ b) = b.
Proof. induction a as [|x a IH]; sapp; simpl; [reflexivity | exact IH]. Qed.

Lemma append_eq_nil (a b : string) : a +:+ b = "" -> a = "" /\ b = "".
Proof. destruct a; sapp; [auto | discriminate]. Qed.

Lemma join_app (l1 l2 : list string) :
  join (l1 ++ l2) = join l1 +:+ join l2.
Proof.
  induction l1 as [|s l1 IH]; simpl; [reflexivity |].
  now rewrite IH, append_assoc.
Qed.
End BytesFacts.

(** ** The decoder of [unicode/utf8] *)

Module Utf8Facts.
Import Bytes BytesFacts Utf8.

Lemma first_lead (b : Z) (sz : nat) (lo hi : Z) :
  first b = lead sz lo hi -> sz = 2%nat \/ sz = 3%nat \/ sz = 4%nat.
Proof.
  unfold first.
  repeat match goal with
         | |- context [if ?c then _ else _] => destruct c
         end; intros H; inversion H; auto.
Qed.

Ltac split_ifs :=
  repeat match goal with
         | |- context [if ?c then _ else _] => destruct c eqn:?
         | H : context [if ?c then _ else _] |- _ => destruct c eqn:?
         end.

(** A rune is at least one byte wide and lies inside the string. *)
Lemma decode_width (s : string) (r : Z) (n : nat) :
  s <> "" -> DecodeRuneInString s = (r, n) ->
  (1 <= n <= String.length s)%nat.
Proof.
  intros Hs. unfold DecodeRuneInString.
  destruct s as [|c0 t]; [congruence |].
  destruct (first (val c0)) as [| |sz lo hi] eqn:Hf.
  - intros H; inversion H; simpl; lia.
  - intros H; inversion H; simpl; lia.
  - destruct (first_lead _ _ _ _ Hf) as [-> | [-> | ->]];
      destruct t as [|c1 [|c2 [|c3 t]]]; simpl;
      split_ifs; intros H; inversion H; simpl; lia.
Qed.

(** Decoding reads only the bytes of the rune it returns: cutting the
    string after them changes nothing. *)
Lemma decode_trunc (s t : string) (r : Z) (n : nat) :
  DecodeRuneInString (s +:+ t) = (r, n) ->
  (1 <= n <= String.length s)%nat ->
  DecodeRuneInString s = (r, n).
Proof.
  unfold DecodeRuneInString.
  destruct s as [|c0 s]; [simpl; lia |].
  rewrite append_cons.
  destruct (first (val c0)) as [| |sz lo hi] eqn:Hf; try (intros; assumption).
  destruct (first_lead _ _ _ _ Hf) as [-> | [-> | ->]];
    destruct s as [|c1 [|c2 [|c3 s]]];
    destruct t as [|d1 [|d2 [|d3 t]]]; sapp; unfold at_; simpl;
    split_ifs; intros H Hn; inversion H; subst; simpl in *;
    try reflexivity; try lia; try congruence.
Qed.

Lemma rangeFuel_enough (f1 f2 : nat) (s : string) :
  (String.length s <= f1)%nat -> (String.length s <= f2)%nat ->
  rangeFuel f1 s = rangeFuel f2 s.
Proof.
  revert f2 s; induction f1 as [|f1 IH]; intros f2 s H1 H2.
  - destruct s; [|simpl in H1; lia]. now destruct f2.
  - destruct s as [|c t]; [now destruct f2 |].
    destruct f2 as [|f2]; [simpl in H2; lia |].
    cbn [rangeFuel].
    destruct (DecodeRuneInString (String c t)) as [r n] eqn:Hd.
    assert (String c t <> "") as Hne by discriminate.
    pose proof (decode_width _ _ _ Hne Hd) as Hw.
    f_equal. apply IH; rewrite length_drop; simpl in *; lia.
Qed.

Lemma range_nil : range "" = [].
Proof. reflexivity. Qed.

Lemma range_step (s : string) (r : Z) (n : nat) :
  s <> "" -> DecodeRuneInString s = (r, n) ->
  range s = (r, take n s) :: range (drop n s).
Proof.
  intros Hs Hd. unfold range.
  pose proof (decode_width _ _ _ Hs Hd) as Hw.
  destruct s as [|c t]; [congruence |].
  cbn [String.length rangeFuel]. rewrite Hd. f_equal.
  apply rangeFuel_enough; rewrite length_drop; simpl in *; lia.
Qed.

Lemma Chunks_join (s : string) (cs : list (Z * string)) :
  Chunks s cs -> join (map snd cs) = s.
Proof.
  revert s; induction cs as [|[r b] cs IH]; simpl; intros s H.
  - now subst.
  - destruct H as (_ & _ & Ht & Hc). rewrite (IH _ Hc).
    rewrite <- Ht at 1. apply take_drop.
Qed.

Lemma range_Chunks (s : string) : Chunks s (range s).
Proof.
  remember (String.length s) as k eqn:Hk. revert s Hk.
  induction k as [k IH] using lt_wf_ind; intros s Hk.
  destruct s as [|c t]; [reflexivity |].
  destruct (DecodeRuneInString (String c t)) as [r n] eqn:Hd.
  assert (String c t <> "") as Hne by discriminate.
  pose proof (decode_width _ _ _ Hne Hd) as Hw.
  rewrite (range_step _ _ _ Hne Hd).
  cbn [Chunks]. rewrite length_take by lia.
  repeat split; try assumption.
  - intros E. apply (f_equal String.length) in E.
    rewrite length_take in E by lia. simpl in E. lia.
  - eapply IH; [|reflexivity]. rewrite length_drop. subst k. lia.
Qed.

Lemma Chunks_range (s : string) (cs : list (Z * string)) :
  Chunks s cs -> range s = cs.
Proof.
  revert s; induction cs as [|[r b] cs IH]; intros s H.
  - simpl in H. now subst.
  - destruct H as (Hb & Hd & Ht & Hc).
    assert (s <> "") as Hs.
    { intros ->. destruct b; [congruence | discriminate]. }
    rewrite (range_step _ _ _ Hs Hd), Ht, (IH _ Hc). reflexivity.
Qed.

(** A string cut at a rune boundary decodes piecewise. *)
Lemma Chunks_app (u v : string) (cu cv : list (Z * string)) :
  Chunks (u +:+ v) (cu ++ cv) -> join (map snd cu) = u ->
  Chunks u cu /\ Chunks v cv.
Proof.
  revert u; induction cu as [|[r b] cu IH]; intros u H Hu.
  - simpl in Hu. subst u. simpl in H. split; [reflexivity | exact H].
  - simpl in Hu. subst u. cbn [app Chunks] in H.
    destruct H as (Hb & Hd & Ht & Hc).
    rewrite append_assoc, drop_app_length in Hc.
    destruct (IH _ Hc eq_refl) as [Hcu Hcv]. split; [|exact Hcv].
    cbn [map snd Chunks]. rewrite take_app_length, drop_app_length.
    repeat split; try assumption.
    eapply decode_trunc; [exact Hd |].
    rewrite length_append. destruct b; [congruence | simpl; lia].
Qed.
End Utf8Facts.

(** ** [strings.Fields] *)

Module StringsFacts.
Import Bytes BytesFacts Utf8 Utf8Facts Strings.

Lemma Chunks_joined (s : string) (cs : list (Z * string)) :
  Chunks s cs -> Chunks (join (map snd cs)) cs.
Proof. intros H. now rewrite (Chunks_join _ _ H). Qed.

(** The invariant of the loop of [FieldsFunc]: the open field [cur] ends
    at a rune boundary and holds no space. *)
Lemma fieldsGo_tokens (cs : list (Z * string)) :
  forall (cur : string) (ccur : list (Z * string)),
    Chunks (cur +:+ join (map snd cs)) (ccur ++ cs) ->
    join (map snd ccur) = cur ->
    Forall nonspace ccur ->
    Forall Token (fieldsGo cs cur).
Proof.
  induction cs as [|[r b] cs IH]; intros cur ccur Hc Hj Hn.
  - cbn [fieldsGo]. destruct (String.eqb_spec cur "") as [E | E];
      constructor; [|constructor].
    split; [exact E |].
    cbn [map join] in Hc. rewrite append_nil_r, List.app_nil_r in Hc.
    now rewrite (Chunks_range _ _ Hc).
  - cbn [fieldsGo]. destruct (Unicode.IsSpace r) eqn:Hr.
    + destruct (Chunks_app _ _ _ _ Hc Hj) as [Hcur Hrest].
      assert (Forall Token (fieldsGo cs "")) as Htail.
      { apply (IH "" []); [| reflexivity | constructor].
        destruct Hrest as (_ & _ & _ & Hcs).
        rewrite append_nil_l. cbn [app]. eapply Chunks_joined, Hcs. }
      destruct (String.eqb_spec cur "") as [E | E]; [exact Htail |].
      constructor; [|exact Htail].
      split; [exact E |]. now rewrite (Chunks_range _ _ Hcur).
    + apply (IH (cur +:+ b) (ccur ++ [(r, b)])%list).
      * rewrite append_assoc, <- List.app_assoc. exact Hc.
      * rewrite map_app, join_app, Hj. cbn [map snd join].
        now rewrite append_nil_r.
      * apply Forall_app. split; [exact Hn |].
        constructor; [exact Hr | constructor].
Qed.

(** Every field that [strings.Fields] returns is a token. *)
Lemma Fields_tokens (s : string) : Forall Token (Fields s).
Proof.
  apply (fieldsGo_tokens (range s) "" []); [| reflexivity | constructor].
  rewrite append_nil_l. cbn [app]. apply Chunks_joined with s, range_Chunks.
Qed.

Lemma fieldsGo_nonspace (cs : list (Z * string)) :
  forall cur : string,
    Forall nonspace cs ->
    fieldsGo cs cur =
    if String.eqb (cur +:+ join (map snd cs)) "" then []
    else [cur +:+ join (map snd cs)].
Proof.
  induction cs as [|[r b] cs IH]; intros cur Hn.
  - cbn [map join fieldsGo]. now rewrite append_nil_r.
  - inversion Hn as [|? ? Hr Hn']; subst. unfold nonspace in Hr.
    cbn [fst] in Hr. cbn [fieldsGo]. rewrite Hr, (IH _ Hn').
    cbn [map snd join]. now rewrite append_assoc.
Qed.

(** A token is one field, and holds no white space. *)
Lemma Token_Fields (f : string) : Token f -> Fields f = [f].
Proof.
  intros [Hf Hn]. unfold Fields. rewrite (fieldsGo_nonspace _ _ Hn).
  rewrite append_nil_l, (Chunks_join _ _ (range_Chunks f)).
  now destruct (String.eqb_spec f "").
Qed.

Lemma Token_ContainsSpace (f : string) : Token f -> ContainsSpace f = false.
Proof.
  intros [_ Hn]. unfold ContainsSpace.
  induction Hn as [|[r b] cs Hr _ IH]; [reflexivity |].
  unfold nonspace in Hr. cbn [fst] in Hr. simpl. now rewrite Hr, IH.
Qed.
End StringsFacts.

(** ** Source readers *)

Section SourceReaders.
Import StringsFacts.

Lemma cleanHistoryLine_last (line : string) :
  cleanHistoryLine line = default "" (last (Strings.Fields line)).
Proof.
  unfold cleanHistoryLine. destruct (Strings.Fields line); reflexivity.
Qed.

(** A non-empty cleaned line is a token. *)
Lemma cleanHistoryLine_token (line : string) :
  cleanHistoryLine line <> "" -> Token (cleanHistoryLine line).
Proof.
  rewrite cleanHistoryLine_last. intros Hne.
  pose proof (Fields_tokens line) as Ht.
  destruct (last (Strings.Fields line)) as [f|] eqn:Hl; [|now elim Hne].
  cbn [default]. rewrite Forall_forall in Ht. apply Ht.
  rewrite last_Some in Hl. destruct Hl as [l' ->]. set_solver.
Qed.

Lemma historyEntries_commands (rt : GoRuntime) (host : Host) (path : string)
      (lines : list string) :
  forall i : nat,
    map Command (historyEntries rt host path i lines) =
    filter (fun cmd => cmd <> "") (map cleanHistoryLine lines).
Proof.
  induction lines as [|line lines IH]; intros i; [reflexivity |].
  cbn [historyEntries map]. rewrite filter_cons.
  destruct (String.eqb_spec (cleanHistoryLine line) "") as [E | E];
    cbn [negb].
  - rewrite decide_False by (intros H; now apply H). apply IH.
  - rewrite decide_True by exact E. cbn [map Command]. now rewrite IH.
Qed.
End SourceReaders.

(** ** The runtime: [range] and [sort.Slice] *)

Module SortFacts.
Import Sort.

Section Insertion.
Context {A : Type} (less : A -> A -> bool) (Hless : LessOK less).

(** The sorted part, read from right to left. *)
Let R : relation A := fun x y => less x y = false.

Lemma sink_perm (x : A) (left : list A) : sink less x left ≡ₚ x :: left.
Proof.
  induction left as [|y r IH]; [reflexivity |].
  cbn [sink]. destruct (less x y); [|reflexivity].
  rewrite IH. apply Permutation_swap.
Qed.

Lemma sink_sorted (x : A) (left : list A) :
  StronglySorted R left -> StronglySorted R (sink less x left).
Proof.
  induction left as [|y r IH]; intros Hs.
  - repeat constructor.
  - apply StronglySorted_inv in Hs. destruct Hs as [Hr Hy].
    cbn [sink]. destruct (less x y) eqn:Hxy.
    + constructor; [now apply IH |].
      rewrite sink_perm. constructor; [|exact Hy].
      unfold R. destruct (less y x) eqn:Hyx; [|reflexivity].
      rewrite <- (less_irrefl less Hless x).
      symmetry. eapply less_trans; eauto.
    + constructor; [now constructor |].
      constructor; [exact Hxy |].
      rewrite Forall_forall in Hy |- *. intros z Hz.
      eapply less_negtrans; eauto. now apply Hy.
Qed.

Lemma fold_sink_perm (l acc : list A) :
  fold_left (fun acc x => sink less x acc) l acc ≡ₚ l ++ acc.
Proof.
  revert acc; induction l as [|x l IH]; intros acc; [reflexivity |].
  cbn [fold_left app]. rewrite IH, sink_perm.
  symmetry. apply Permutation_middle.
Qed.

Lemma fold_sink_sorted (l acc : list A) :
  StronglySorted R acc ->
  StronglySorted R (fold_left (fun acc x => sink less x acc) l acc).
Proof.
  revert acc; induction l as [|x l IH]; intros acc Hs; [exact Hs |].
  cbn [fold_left]. now apply IH, sink_sorted.
Qed.

Lemma StronglySorted_rev (Q : relation A) (l : list A) :
  StronglySorted Q l -> StronglySorted (flip Q) (rev l).
Proof.
  induction 1 as [|x l Hs IH Hx]; [constructor |].
  cbn [rev]. apply StronglySorted_app_2; [| exact IH | repeat constructor].
  intros x1 x2 H1 H2. apply list_elem_of_singleton in H2. subst x2.
  rewrite Forall_forall in Hx. apply Hx.
  now apply list_elem_of_In, in_rev, list_elem_of_In.
Qed.

Lemma insertionSort_perm (l : list A) : insertionSort less l ≡ₚ l.
Proof.
  unfold insertionSort. rewrite <- Permutation_rev, fold_sink_perm.
  now rewrite List.app_nil_r.
Qed.

Lemma insertionSort_sorted (l : list A) : sorted less (insertionSort less l).
Proof.
  unfold sorted, insertionSort.
  apply (StronglySorted_rev R), fold_sink_sorted. constructor.
Qed.
End Insertion.
End SortFacts.

(** Both sample runtimes respect the guarantees of the language. *)
Lemma runtimeA_ok : RuntimeOK runtimeA.
Proof.
  split.
  - intros. reflexivity.
  - intros. apply SortFacts.insertionSort_perm.
  - intros. now apply SortFacts.insertionSort_sorted.
Qed.

Lemma runtimeB_ok : RuntimeOK runtimeB.
Proof.
  split.
  - intros. cbn. now rewrite <- Permutation_rev.
  - intros. apply SortFacts.insertionSort_perm.
  - intros. now apply SortFacts.insertionSort_sorted.
Qed.

Section RangeFacts.
Context (rt : GoRuntime) (Hrt : RuntimeOK rt).
Context {K : Type} `{Countable K} {V : Type}.

Lemma range_lookup (m : gmap K V) (k : K) (v : V) :
  (k, v) ∈ rangeMap rt m <-> m !! k = Some v.
Proof. now rewrite (range_perm rt Hrt), elem_of_map_to_list. Qed.

Lemma range_NoDup_keys (m : gmap K V) : NoDup (map fst (rangeMap rt m)).
Proof.
  change (NoDup ((rangeMap rt m).*1)).
  rewrite (range_perm rt Hrt). apply NoDup_fst_map_to_list.
Qed.

Lemma range_length (m : gmap K V) : length (rangeMap rt m) = size m.
Proof. now rewrite (range_perm rt Hrt), length_map_to_list. Qed.
End RangeFacts.

(** ** Counters *)

Module IntFacts.
Import Int.

Lemma wrap_small (z : Z) : min_int <= z <= max_int -> wrap z = z.
Proof.
  unfold wrap, min_int, max_int. intros Hz.
  rewrite Z.mod_small by lia. lia.
Qed.

Lemma incr_small (a : Z) : 0 <= a < max_int -> incr a = a + 1.
Proof.
  intros Ha. unfold incr, add. apply wrap_small.
  unfold min_int, max_int in *. lia.
Qed.

Lemma add_small (a b : Z) :
  0 <= a -> 0 <= b -> a + b <= max_int -> add a b = a + b.
Proof.
  intros Ha Hb Hab. unfold add. apply wrap_small.
  unfold min_int, max_int in *. lia.
Qed.
End IntFacts.

Section HitCount.
Context {E : Type} (h : E -> bool).

Lemma hitCount_bounds (es : list E) : 0 <= hitCount h es <= Int.len es.
Proof.
  unfold hitCount, Int.len. pose proof (List.filter_length_le h es). lia.
Qed.

Lemma hitCount_snoc (es : list E) (e : E) :
  hitCount h (es ++ [e]) = hitCount h es + (if h e then 1 else 0).
Proof.
  unfold hitCount. rewrite List.filter_app, List.length_app. cbn [List.filter].
  destruct (h e); cbn [length]; lia.
Qed.

Lemma hitCount_pos (es : list E) :
  0 < hitCount h es <-> exists e, In e es /\ h e = true.
Proof.
  unfold hitCount. split.
  - intros Hpos. destruct (List.filter h es) as [|e l] eqn:Hf;
      [simpl in Hpos; lia |].
    exists e. apply List.filter_In. rewrite Hf. now left.
  - intros (e & He). apply List.filter_In in He.
    destruct (List.filter h es); [destruct He | simpl; lia].
Qed.
End HitCount.

(** A loop that visits keys once each and increments the counters of those
    that satisfy a test. *)
Section Visit.
Context {K : Type} `{Countable K} {X : Type}.
Context (key : X -> K) (p : X -> bool) (f : gmap K Z -> X -> gmap K Z).
Hypothesis f_spec :
  forall m x, f m x = if p x then Counter.incr m (key x) else m.

Lemma visit_lookup (l : list X) :
  forall (m : gmap K Z) (k : K),
    NoDup (map key l) ->
    fold_left f l m !! k =
    if existsb (fun x => bool_decide (key x = k) && p x) l
    then Some (Int.incr (Counter.get m k)) else m !! k.
Proof.
  induction l as [|x l IH]; intros m k Hnd; [reflexivity |].
  cbn [map] in Hnd. apply NoDup_cons in Hnd. destruct Hnd as [Hx Hnd].
  cbn [fold_left existsb]. rewrite (IH _ _ Hnd), f_spec.
  destruct (bool_decide_reflect (key x = k)) as [Heq | Hne]; cbn [andb orb].
  - subst k.
    assert (existsb (fun x0 => bool_decide (key x0 = key x) && p x0) l
            = false) as ->.
    { apply not_true_is_false. intros Hex.
      apply existsb_exists in Hex. destruct Hex as (y & Hy & Hc).
      apply andb_prop in Hc. destruct Hc as [Hc _].
      apply bool_decide_eq_true in Hc. apply Hx. rewrite <- Hc.
      apply list_elem_of_In, in_map, Hy. }
    destruct (p x); [|reflexivity].
    unfold Counter.incr. now rewrite lookup_insert_eq.
  - assert (forall m', (if p x then Counter.incr m' (key x) else m') !! k
                       = m' !! k) as Hsame.
    { intros m'. destruct (p x); [|reflexivity].
      unfold Counter.incr. now rewrite lookup_insert_ne. }
    unfold Counter.get. now rewrite !Hsame.
Qed.
End Visit.

(** The same loop over the entries of a map, in the order of the runtime. *)
Section VisitRange.
Context (rt : GoRuntime) (Hrt : RuntimeOK rt).
Context {V : Type} (p : string * V -> bool).
Context (f : gmap string Z -> string * V -> gmap string Z).
Hypothesis f_spec :
  forall m x, f m x = if p x then Counter.incr m (fst x) else m.

Lemma visit_range_lookup (table : gmap string V) (m : gmap string Z)
      (k : string) :
  fold_left f (rangeMap rt table) m !! k =
  match table !! k with
  | Some v =>
    if p (k, v) then Some (Int.incr (Counter.get m k)) else m !! k
  | None => m !! k
  end.
Proof.
  rewrite (visit_lookup fst p f f_spec) by now apply range_NoDup_keys.
  destruct (existsb _ _) eqn:Hex.
  - apply existsb_exists in Hex. destruct Hex as ([k' v] & Hin & Hc).
    apply andb_prop in Hc. destruct Hc as [Hk Hp].
    apply bool_decide_eq_true in Hk. cbn [fst] in Hk. subst k'.
    apply list_elem_of_In, (range_lookup rt Hrt) in Hin.
    now rewrite Hin, Hp.
  - destruct (table !! k) as [v|] eqn:Hl; [|reflexivity].
    destruct (p (k, v)) eqn:Hp; [|reflexivity].
    apply (range_lookup rt Hrt), list_elem_of_In in Hl.
    assert (existsb (fun x => bool_decide (x.1 = k) && p x)
                    (rangeMap rt table) = true) as Hex'.
    { apply existsb_exists. exists (k, v). split; [exact Hl |].
      cbn [fst]. now rewrite bool_decide_eq_true_2, Hp. }
    congruence.
Qed.
End VisitRange.

(** A counter map filled by one such loop per entry holds, for every key,
    the number of entries that hit it. *)
Section Accumulate.
Context {K : Type} `{Countable K} {E : Type}.
Context (step : gmap K Z -> E -> gmap K Z) (hit : K -> E -> bool).
Hypothesis step_spec :
  forall m e k,
    step m e !! k =
    if hit k e then Some (Int.incr (Counter.get m k)) else m !! k.

Lemma accumulate_lookup (es : list E) (k : K) :
  Int.len es <= Int.max_int ->
  fold_left step es ∅ !! k =
  if 0 <? hitCount (hit k) es then Some (hitCount (hit k) es) else None.
Proof.
  induction es as [|e es IH] using rev_ind; intros Hlen; [reflexivity |].
  unfold Int.len in Hlen. rewrite List.length_app in Hlen.
  cbn [length] in Hlen.
  assert (Int.len es <= Int.max_int) as Hlen' by (unfold Int.len; lia).
  specialize (IH Hlen').
  rewrite fold_left_app. cbn [fold_left]. rewrite step_spec, hitCount_snoc.
  pose proof (hitCount_bounds (hit k) es) as Hb. unfold Int.len in Hb.
  assert (Counter.get (fold_left step es ∅) k = hitCount (hit k) es) as Hg.
  { unfold Counter.get. rewrite IH.
    destruct (Z.ltb_spec 0 (hitCount (hit k) es)); simpl; lia. }
  destruct (hit k e).
  - rewrite Hg, IntFacts.incr_small by lia.
    destruct (Z.ltb_spec 0 (hitCount (hit k) es + 1)); [reflexivity | lia].
  - now rewrite Z.add_0_r.
Qed.

Lemma accumulate_get (es : list E) (k : K) :
  Int.len es <= Int.max_int ->
  Counter.get (fold_left step es ∅) k = hitCount (hit k) es.
Proof.
  intros Hlen. unfold Counter.get. rewrite (accumulate_lookup es k Hlen).
  pose proof (hitCount_bounds (hit k) es).
  destruct (Z.ltb_spec 0 (hitCount (hit k) es)); simpl; lia.
Qed.
End Accumulate.

(** ** The four tallies of [analyzeCommands] *)


Section ToolLoop.
Context (host : Host) (tools : list string) (Htools : NoDup tools).

Lemma countTools_lookup (cmd : string) (m : gmap string Z) (k : string) :
  countTools host tools cmd m !! k =
  if bool_decide (k ∈ tools)
     && (Strings.HasPrefix cmd k && checkToolInstalled host k)
  then Some (Int.incr (Counter.get m k)) else m !! k.
Proof.
  unfold countTools.
  rewrite (visit_lookup (fun tool : string => tool)
             (fun tool => Strings.HasPrefix cmd tool
                          && checkToolInstalled host tool)).
  - match goal with
    | |- (if ?a then _ else _) = (if ?b then _ else _) =>
      replace a with b; [reflexivity |]
    end.
    apply eq_true_iff_eq. rewrite andb_true_iff, bool_decide_eq_true.
    rewrite existsb_exists. split.
    + intros [Hin Hp]. exists k. rewrite list_elem_of_In in Hin.
      split; [exact Hin |]. now rewrite bool_decide_eq_true_2, Hp.
    + intros (x & Hin & Hc). apply andb_prop in Hc. destruct Hc as [Hk Hp].
      apply bool_decide_eq_true in Hk. subst x.
      rewrite list_elem_of_In. now split.
  - reflexivity.
  - now rewrite map_id.
Qed.
End ToolLoop.

Section TallyFacts.
Context (rt : GoRuntime) (Hrt : RuntimeOK rt) (host : Host).
Context (installedLangs : gmap string string).

Lemma countLanguages_lookup (cmd : string) (m : gmap string Z) (k : string) :
  countLanguages rt installedLangs cmd m !! k =
  if bool_decide (is_Some (installedLangs !! k)) && usesLanguage cmd k
  then Some (Int.incr (Counter.get m k)) else m !! k.
Proof.
  unfold countLanguages.
  rewrite (visit_range_lookup rt Hrt
             (fun x : string * string => usesLanguage cmd (fst x)))
    by (now intros m' [lang out]).
  destruct (installedLangs !! k) as [out|] eqn:Hl; cbn [fst].
  - rewrite bool_decide_eq_true_2 by eauto. reflexivity.
  - rewrite bool_decide_eq_false_2 by (intros [? ?]; congruence).
    reflexivity.
Qed.

Lemma analyzeCommandPattern_lookup (cmd : string) (m : gmap string Z)
      (k : string) :
  analyzeCommandPattern rt cmd m !! k =
  if match patternMap !! k with
     | Some regex => MatchString regex cmd
     | None => false
     end
  then Some (Int.incr (Counter.get m k)) else m !! k.
Proof.
  unfold analyzeCommandPattern.
  rewrite (visit_range_lookup rt Hrt
             (fun x : string * regexp => MatchString (snd x) cmd))
    by (now intros m' [pattern regex]).
  now destruct (patternMap !! k).
Qed.

Lemma hour_lookup (e : CommandEntry) (m : gmap Z Z) (h : Z) :
  Counter.incr m (Hour (Timestamp e)) !! h =
  if hourHit h e then Some (Int.incr (Counter.get m h)) else m !! h.
Proof.
  unfold hourHit, Counter.incr.
  destruct (bool_decide_reflect (Hour (Timestamp e) = h)) as [-> | Hne].
  - now rewrite lookup_insert_eq.
  - now rewrite lookup_insert_ne.
Qed.

(** The loop of [analyzeCommands] fills its four maps independently. *)
Lemma tally_fold (entries : list CommandEntry) (t : Tally) :
  let t' := fold_left (analyzeEntry rt host installedLangs) entries t in
  langUsage t' =
    fold_left (fun m e => countLanguages rt installedLangs (Command e) m)
              entries (langUsage t)
  /\ toolUsage t' =
    fold_left (fun m e => countTools host devTools (Command e) m)
              entries (toolUsage t)
  /\ timeOfDay t' =
    fold_left (fun m e => Counter.incr m (Hour (Timestamp e)))
              entries (timeOfDay t)
  /\ commandPatterns t' =
    fold_left (fun m e => analyzeCommandPattern rt (Command e) m)
              entries (commandPatterns t).
Proof.
  revert t; induction entries as [|e entries IH]; intros t.
  - repeat split.
  - cbn [fold_left]. apply IH.
Qed.

Context (entries : list CommandEntry).
Hypothesis Hlen : Int.len entries <= Int.max_int.

Let t := tally rt host installedLangs entries.

Lemma langUsage_lookup (lang : string) :
  langUsage t !! lang =
  if 0 <? hitCount (langHit installedLangs lang) entries
  then Some (hitCount (langHit installedLangs lang) entries) else None.
Proof.
  subst t. unfold tally.
  destruct (tally_fold entries emptyTally) as (-> & _).
  apply (accumulate_lookup _ (langHit installedLangs)); [|exact Hlen].
  intros m e k. apply countLanguages_lookup.
Qed.


Lemma timeOfDay_lookup (h : Z) :
  timeOfDay t !! h =
  if 0 <? hitCount (hourHit h) entries
  then Some (hitCount (hourHit h) entries) else None.
Proof.
  subst t. unfold tally.
  destruct (tally_fold entries emptyTally) as (_ & _ & -> & _).
  apply (accumulate_lookup _ hourHit); [|exact Hlen].
  intros m e k. apply hour_lookup.
Qed.

Lemma commandPatterns_get (pattern : string) :
  Counter.get (commandPatterns t) pattern =
  hitCount (patternHit pattern) entries.
Proof.
  subst t. unfold tally.
  destruct (tally_fold entries emptyTally) as (_ & _ & _ & ->).
  apply (accumulate_get _ patternHit); [|exact Hlen].
  intros m e k. apply analyzeCommandPattern_lookup.
Qed.
End TallyFacts.

(** The loops that run once per entry do not depend on the order in which
    the runtime visits the maps: runtimes that respect the language fill the
    four maps alike. *)
Lemma analyzeEntry_runtime_irrelevant
      (rt1 rt2 : GoRuntime) (host : Host)
      (installedLangs : gmap string string) (t : Tally) (e : CommandEntry) :
  RuntimeOK rt1 -> RuntimeOK rt2 ->
  analyzeEntry rt1 host installedLangs t e
  = analyzeEntry rt2 host installedLangs t e.
Proof.
  intros H1 H2. unfold analyzeEntry. f_equal.
  - apply map_eq. intros k.
    now rewrite (countLanguages_lookup rt1 H1), (countLanguages_lookup rt2 H2).
  - apply map_eq. intros k.
    now rewrite (analyzeCommandPattern_lookup rt1 H1),
                (analyzeCommandPattern_lookup rt2 H2).
Qed.

Lemma tally_runtime_irrelevant
      (rt1 rt2 : GoRuntime) (host : Host)
      (installedLangs : gmap string string) (entries : list CommandEntry) :
  RuntimeOK rt1 -> RuntimeOK rt2 ->
  tally rt1 host installedLangs entries
  = tally rt2 host installedLangs entries.
Proof.
  intros H1 H2. unfold tally. generalize emptyTally.
  induction entries as [|e entries IH]; intros t; [reflexivity |].
  cbn [fold_left]. rewrite IH.
  now rewrite (analyzeEntry_runtime_irrelevant rt1 rt2).
Qed.

(** ** Proficiency *)

Section ProficiencyFacts.
Context (rt : GoRuntime) (Hrt : RuntimeOK rt).


End ProficiencyFacts.


(** ** The timeline curator *)

Section Curator.
(** The interesting first occurrences outside [seen]. *)
Let F (seen : gset string) (l : list TimelineEntry) : list TimelineEntry :=
  firstOccurrences seen
    (List.filter (fun e => isInterestingCommand (TLCommand e)) l).

Lemma F_cons (seen : gset string) (e : TimelineEntry)
      (l : list TimelineEntry) :
  F seen (e :: l) =
  if isInterestingCommand (TLCommand e) then
    if bool_decide (TLCommand e ∈ seen) then F seen l
    else e :: F ({[TLCommand e]} ∪ seen) l
  else F seen l.
Proof.
  unfold F. cbn [List.filter].
  now destruct (isInterestingCommand (TLCommand e)).
Qed.

Lemma take_full {A} (l rest : list A) (n : nat) :
  length l = n -> take n (l ++ rest) = l.
Proof. intros <-. now rewrite take_app_length. Qed.

Lemma curateHistory_spec (shell : string) (history : list CommandEntry) :
  forall (st : Curation) (seen : gset string) (rest : list TimelineEntry),
    curating st seen ->
    match curateHistory shell history st with
    | inl st' =>
      exists seen',
        curating st' seen'
        /\ take 15 (timelineData st
                    ++ F seen (map (timelineEntry shell) history ++ rest))
           = take 15 (timelineData st' ++ F seen' rest)
    | inr timeline =>
      timeline =
      take 15 (timelineData st
               ++ F seen (map (timelineEntry shell) history ++ rest))
    end.
Proof.
  induction history as [|entry history IH]; intros st seen rest Hst.
  - cbn. exists seen. now split.
  - destruct Hst as [Hseen Hlen].
    cbn [curateHistory map app]. rewrite F_cons. cbn [timelineEntry TLCommand].
    destruct (default false (uniqueCommands st !! Command entry)) eqn:Hu.
    + apply Hseen in Hu. rewrite (bool_decide_eq_true_2 _ Hu).
      assert ((if isInterestingCommand (Command entry)
               then F seen (map (timelineEntry shell) history ++ rest)
               else F seen (map (timelineEntry shell) history ++ rest))
              = F seen (map (timelineEntry shell) history ++ rest)) as ->
          by now destruct (isInterestingCommand (Command entry)).
      now apply IH.
    + assert (Command entry ∉ seen) as Hnew.
      { intros Hin. apply Hseen in Hin. congruence. }
      rewrite (bool_decide_eq_false_2 _ Hnew).
      destruct (isInterestingCommand (Command entry)).
      * cbn [timelineData uniqueCommands].
        unfold Int.len. rewrite length_app. cbn [length].
        replace (timelineData st
                 ++ timelineEntry shell entry
                    :: F ({[Command entry]} ∪ seen)
                         (map (timelineEntry shell) history ++ rest))
          with ((timelineData st ++ [timelineEntry shell entry])
                ++ F ({[Command entry]} ∪ seen)
                     (map (timelineEntry shell) history ++ rest))
          by now rewrite <- List.app_assoc.
        destruct (Z.leb_spec 15 (Z.of_nat (length (timelineData st) + 1))).
        -- symmetry. apply take_full. rewrite length_app. cbn [length]. lia.
        -- apply IH. split; cbn [timelineData uniqueCommands].
           ++ intros cmd. rewrite elem_of_union, elem_of_singleton.
              destruct (decide (Command entry = cmd)) as [<- | Hne].
              ** rewrite lookup_insert_eq. cbn. tauto.
              ** rewrite lookup_insert_ne by exact Hne. rewrite Hseen.
                 split; [tauto | intros [E | E]; congruence].
           ++ rewrite length_app. cbn [length]. lia.
      * destruct (Z.leb_spec 15 (Int.len (timelineData st))) as [Hge | _].
        -- unfold Int.len in Hge. lia.
        -- apply IH. now split.
Qed.

Lemma curateShells_spec (shells : list (string * list CommandEntry)) :
  forall (st : Curation) (seen : gset string),
    curating st seen ->
    curateShells shells st
    = take 15 (timelineData st ++ F seen (candidates shells)).
Proof.
  induction shells as [|[shell history] shells IH]; intros st seen Hst.
  - cbn [curateShells candidates flat_map]. unfold F. cbn.
    rewrite List.app_nil_r. destruct Hst as [_ Hlen].
    symmetry. apply take_ge. lia.
  - cbn [curateShells candidates flat_map].
    pose proof (curateHistory_spec shell history st seen (candidates shells)
                  Hst) as Hh.
    destruct (curateHistory shell history st) as [st' | timeline].
    + destruct Hh as (seen' & Hst' & Heq).
      rewrite (IH _ _ Hst'). symmetry. exact Heq.
    + exact Hh.
Qed.

Lemma firstOccurrences_fresh (l : list TimelineEntry) :
  forall (seen : gset string) (e : TimelineEntry),
    e ∈ firstOccurrences seen l -> TLCommand e ∉ seen.
Proof.
  induction l as [|x l IH]; intros seen e He; [inversion He |].
  cbn [firstOccurrences] in He.
  destruct (bool_decide_reflect (TLCommand x ∈ seen)) as [Hx | Hx].
  - now apply IH.
  - apply elem_of_cons in He. destruct He as [-> | He]; [exact Hx |].
    apply IH in He. set_solver.
Qed.

Lemma firstOccurrences_NoDup (l : list TimelineEntry) :
  forall seen : gset string,
    NoDup (map TLCommand (firstOccurrences seen l)).
Proof.
  induction l as [|x l IH]; intros seen; [constructor |].
  cbn [firstOccurrences].
  destruct (bool_decide (TLCommand x ∈ seen)); [apply IH |].
  cbn [map]. constructor; [|apply IH].
  intros Hin. apply list_elem_of_fmap in Hin.
  destruct Hin as (e & Hcmd & He).
  apply firstOccurrences_fresh in He. set_solver.
Qed.
End Curator.

(** ** Peak hours *)

Lemma StronglySorted_lookup {A} (R : relation A) (l : list A) :
  StronglySorted R l ->
  forall i j x y, (i < j)%nat -> l !! i = Some x -> l !! j = Some y -> R x y.
Proof.
  induction 1 as [|a l Hs IH Ha]; intros i j x y Hij Hi Hj.
  - now rewrite lookup_nil in Hi.
  - destruct j as [|j]; [lia |]. cbn in Hj. destruct i as [|i].
    + cbn in Hi. inversion Hi; subst. rewrite Forall_forall in Ha.
      apply Ha. eapply list_elem_of_lookup_2, Hj.
    + cbn in Hi. apply (IH i j); [lia | assumption..].
Qed.

Lemma StronglySorted_weaken {A} (R R' : relation A) (l : list A) :
  (forall x y, R x y -> R' x y) -> StronglySorted R l -> StronglySorted R' l.
Proof.
  intros HR. induction 1 as [|a l Hs IH Ha]; constructor; [exact IH |].
  eapply Forall_impl; [exact Ha | auto].
Qed.

Section PeakHours.
Context (rt : GoRuntime) (Hrt : RuntimeOK rt) (m : gmap Z Z).

Let mk : Z * Z -> hourCount := fun '(h, c) => {| hour := h; count := c |}.
Let less : hourCount -> hourCount -> bool := fun a b => count b <? count a.
Let ranked : list hourCount := sortSlice rt less (map mk (rangeMap rt m)).

Lemma less_ok : LessOK less.
Proof.
  subst less. split; intros *; cbn; rewrite ?Z.ltb_lt, ?Z.ltb_ge; lia.
Qed.

Lemma getPeakHours_unfold : getPeakHours rt m = map hour (take 3 ranked).
Proof. reflexivity. Qed.

Lemma ranked_perm : ranked ≡ₚ map mk (map_to_list m).
Proof.
  subst ranked. rewrite (sort_perm rt Hrt).
  apply Permutation_map, (range_perm rt Hrt).
Qed.

Lemma ranked_elem (x : hourCount) :
  x ∈ ranked <-> m !! hour x = Some (count x).
Proof.
  rewrite ranked_perm, list_elem_of_fmap. split.
  - intros ([h c] & -> & Hin). now apply elem_of_map_to_list in Hin.
  - intros Hl. exists (hour x, count x). split; [now destruct x |].
    now apply elem_of_map_to_list.
Qed.

Lemma ranked_hours_NoDup : NoDup (map hour ranked).
Proof.
  rewrite ranked_perm, map_map.
  rewrite (map_ext _ fst) by now intros [h c].
  apply (NoDup_fst_map_to_list m).
Qed.

Lemma ranked_sorted :
  StronglySorted (fun x y => count y <= count x) ranked.
Proof.
  pose proof (sort_sorted rt Hrt _ less (map mk (rangeMap rt m)) less_ok)
    as Hs.
  fold ranked in Hs. unfold sorted in Hs.
  eapply StronglySorted_weaken; [|exact Hs].
  intros x y. subst less. cbn. now rewrite Z.ltb_ge.
Qed.

Lemma ranked_length : length ranked = size m.
Proof. now rewrite ranked_perm, length_map, length_map_to_list. Qed.

(** The hours returned are hours of the map, without repetition, at most
    three of them, in the order of non-increasing counts, and no hour left
    out has a larger count than one returned. *)
Lemma getPeakHours_spec :
  let peaks := getPeakHours rt m in
  length peaks = Nat.min 3 (size m)
  /\ NoDup peaks
  /\ (forall h, h ∈ peaks -> is_Some (m !! h))
  /\ (forall i j h1 h2 c1 c2, (i < j)%nat ->
        peaks !! i = Some h1 -> peaks !! j = Some h2 ->
        m !! h1 = Some c1 -> m !! h2 = Some c2 -> c2 <= c1)
  /\ (forall h h' c c', h ∈ peaks -> h' ∉ peaks ->
        m !! h = Some c -> m !! h' = Some c' -> c' <= c).
Proof.
  intros peaks. subst peaks. rewrite getPeakHours_unfold.
  assert (forall x c, x ∈ ranked -> m !! hour x = Some c -> c = count x)
    as Hget.
  { intros x c Hx Hc. apply ranked_elem in Hx. congruence. }
  assert (forall x, x ∈ take 3 ranked -> x ∈ ranked) as Htake.
  { intros x Hx. rewrite <- (take_drop 3 ranked). set_solver. }
  split; [|split; [|split; [|split]]].
  - now rewrite length_map, length_take, ranked_length.
  - pose proof ranked_hours_NoDup as Hnd.
    rewrite <- (take_drop 3 ranked), map_app in Hnd.
    apply NoDup_app in Hnd. exact (proj1 Hnd).
  - intros h Hh. apply list_elem_of_fmap in Hh.
    destruct Hh as (x & -> & Hx). apply Htake, ranked_elem in Hx. eauto.
  - intros i j h1 h2 c1 c2 Hij H1 H2 Hc1 Hc2.
    rewrite list_lookup_fmap in H1, H2.
    destruct (take 3 ranked !! i) as [x|] eqn:Hx; [|discriminate].
    destruct (take 3 ranked !! j) as [y|] eqn:Hy; [|discriminate].
    cbn in H1, H2. inversion H1; inversion H2; subst.
    rewrite (Hget x c1), (Hget y c2);
      try assumption;
      try (eapply Htake, list_elem_of_lookup_2; eassumption).
    pose proof ranked_sorted as Hs.
    rewrite <- (take_drop 3 ranked) in Hs.
    apply StronglySorted_app_1_l in Hs.
    exact (StronglySorted_lookup _ _ Hs i j x y Hij Hx Hy).
  - intros h h' c c' Hh Hh' Hc Hc'. apply list_elem_of_fmap in Hh.
    destruct Hh as (x & -> & Hx).
    assert ({| hour := h'; count := c' |} ∈ ranked) as Hy
        by now apply ranked_elem.
    rewrite <- (take_drop 3 ranked) in Hy. apply elem_of_app in Hy.
    destruct Hy as [Hy | Hy].
    { elim Hh'. apply list_elem_of_fmap. eexists; split; [|exact Hy].
      reflexivity. }
    rewrite (Hget x c) by (try assumption; now apply Htake).
    pose proof ranked_sorted as Hs.
    rewrite <- (take_drop 3 ranked) in Hs.
    exact (StronglySorted_app_1_elem_of _ _ _ _ _ Hs Hx Hy).
Qed.
End PeakHours.


Section HourBuckets.
Context (rt : GoRuntime) (host : Host) (entries : list CommandEntry).
Hypothesis Hlen : Int.len entries <= Int.max_int.

Let buckets : gmap Z Z :=
  timeOfDay (tally rt host (getInstalledLanguages rt host) entries).

Lemma buckets_lookup (h c : Z) :
  buckets !! h = Some c <->
  c = hitCount (hourHit h) entries /\ 0 < c.
Proof.
  subst buckets. rewrite timeOfDay_lookup by exact Hlen.
  destruct (Z.ltb_spec 0 (hitCount (hourHit h) entries)); split.
  - intros E. inversion E. lia.
  - intros [-> _]. reflexivity.
  - discriminate.
  - lia.
Qed.

Lemma buckets_dom :
  dom buckets
  = list_to_set (map (fun e => Hour (Timestamp e)) entries).
Proof.
  apply set_eq. intros h.
  rewrite elem_of_dom, elem_of_list_to_set, list_elem_of_fmap. split.
  - intros [c Hc]. apply buckets_lookup in Hc. destruct Hc as [-> Hpos].
    apply hitCount_pos in Hpos. destruct Hpos as (e & Hin & Hhit).
    exists e. split; [|now apply list_elem_of_In].
    unfold hourHit in Hhit. now apply bool_decide_eq_true in Hhit.
  - intros (e & -> & Hin). exists (hitCount (hourHit (Hour (Timestamp e)))
                                             entries).
    apply buckets_lookup. split; [reflexivity |].
    apply hitCount_pos. exists e. split; [now apply list_elem_of_In |].
    unfold hourHit. now apply bool_decide_eq_true.
Qed.

End HourBuckets.

(** ** Productivity metrics *)

Lemma uniqueCommands_dom (entries : list CommandEntry) :
  forall u : gmap string bool,
    dom (fold_left (fun u entry => <[Command entry := true]> u) entries u)
    = list_to_set (map Command entries) ∪ dom u.
Proof.
  induction entries as [|e entries IH]; intros u.
  - cbn [fold_left map]. now rewrite list_to_set_nil, union_empty_l_L.
  - cbn [fold_left map]. rewrite IH, dom_insert_L, list_to_set_cons.
    rewrite (union_comm_L {[Command e]} (list_to_set (map Command entries))).
    now rewrite union_assoc_L.
Qed.

Lemma metrics_unfold (entries : list CommandEntry) (patterns : gmap string Z) :
  0 < Int.len entries ->
  calculateProductivityMetrics entries patterns =
  <["Workflow Complexity" :=
      ratio (Int.add (Int.add (Int.add (Counter.get patterns "git_workflow")
                                       (Counter.get patterns "build"))
                              (Counter.get patterns "deploy"))
                     (Counter.get patterns "test"))
            (Int.len entries)]>
    (<["Command Variety" :=
         ratio (Z.of_nat (size (list_to_set (map Command entries)
                                : gset string)))
               (Int.len entries)]> ∅).
Proof.
  intros Hpos. unfold calculateProductivityMetrics.
  destruct (Z.eqb_spec (Int.len entries) 0) as [E | _]; [lia |].
  rewrite <- size_dom, uniqueCommands_dom, dom_empty_L, union_empty_r_L.
  reflexivity.
Qed.

(** ** The config parser *)

Lemma parseConfigLine_aliases (config : ShellConfig) (line : string) :
  Aliases (parseConfigLine config line) =
  match parseDecl "alias " line with
  | Some (n, v) => <[n := v]> (Aliases config)
  | None => Aliases config
  end.
Proof. reflexivity. Qed.



(** ** The command classifier *)






Section Classifier.
Context (rt : GoRuntime) (Hrt : RuntimeOK rt) (cmd : string).



End Classifier.

(** ** [AnalyzeShells] returns *)

Lemma fishPlugins_returns (host : Host) (path : string)
      (files : list DirEntry) :
  forall config : ShellConfig,
    Forall (fun file => Strings.HasSuffix (Name file) ".fish" = true ->
                        is_Some (Info file)) files ->
    exists config', fishPlugins host path files config = Ok config'.
Proof.
  induction files as [|file files IH]; intros config Hall; [now eexists |].
  inversion Hall as [|? ? Hfile Hrest]; subst. cbn [fishPlugins].
  destruct (Strings.HasSuffix (Name file) ".fish"); [|now apply IH].
  destruct (Hfile eq_refl) as [info ->]. now apply IH.
Qed.

Section Returns.
Context (rt : GoRuntime) (host : Host) (Hfish : fishInfoReadable host).

Lemma analyzeShellConfigs_returns (shell : string) :
  exists config, analyzeShellConfigs host shell = Ok config.
Proof.
  unfold analyzeShellConfigs, detectPlugins.
  destruct (String.eqb shell "zsh"); [now eexists |].
  destruct (String.eqb shell "fish"); [|destruct (String.eqb shell "bash");
                                        now eexists].
  unfold detectFishPlugins.
  destruct (ReadDir host (expandPath host "~/.config/fish/conf.d"))
    as [files|] eqn:Hdir; [|now eexists].
  apply fishPlugins_returns, Hfish, Hdir.
Qed.

Lemma analyzeShellsLoop_returns (shells : list (string * string)) :
  forall data : ShellData,
    exists data', analyzeShellsLoop rt host shells data = Ok data'.
Proof.
  induction shells as [|[shell path] shells IH]; intros data;
    [now eexists |].
  cbn [analyzeShellsLoop].
  destruct (readHistory rt host (expandPath host path))
    as [[history [|]]|]; try apply IH.
  destruct (analyzeShellConfigs_returns shell) as [config ->].
  cbn [bind]. apply IH.
Qed.

Lemma AnalyzeShells_returns : exists data, AnalyzeShells rt host = Ok data.
Proof.
  unfold AnalyzeShells.
  destruct (analyzeShellsLoop_returns (rangeMap rt shellPaths)
                                      InitShellData) as [data ->].
  cbn [bind]. now eexists.
Qed.
End Returns.

(** ** The classifier loop on any table *)



Section ClassifierLoop.
Context (rt : GoRuntime) (Hrt : RuntimeOK rt).
Context (table : gmap string (list string)) (cmd : string).


End ClassifierLoop.

(* ===================================================================== *)
(** * Part III. The claims                                                *)
(* ===================================================================== *)

(** C1. On the three-line history [git commit -m "x"], [git commit -m "y"],
    [ls -la], with [git] installed and [ls] not probed, the analyzer does not
    tally 2 for [git]: [readHistory] keeps the last field of each line only
    (["x"], ["y"], [-la]), the language loop counts [git] for every one of
    the three commands (its package manager reads as the empty string, which
    every command contains), and the tool loop counts it for none. The role
    is "Git Developer". *)
Theorem git_scenario_tally :
  readHistory runtimeA gitHost "/home/u/.bash_history"
  = Some (gitEntries, false)
  /\ getPackageManager "git" = ""
  /\ (let t := tally runtimeA gitHost (getInstalledLanguages runtimeA gitHost)
                     gitEntries in
      langUsage t !! "git" = Some 3 /\ toolUsage t !! "git" = None)
  /\ exists data,
      AnalyzeShells runtimeA gitHost = Ok data
      /\ Histories data !! "bash" = Some gitEntries
      /\ Languages (ToolUsage_ (Insights data)) !! "git" = Some 3
      /\ PrimaryRole (TechnicalProfile (Insights data)) = "Git Developer".
Proof.
  split; [vm_compute; reflexivity |].
  split; [vm_compute; reflexivity |].
  split; [split; vm_compute; reflexivity |].
  eexists. split; [vm_compute; reflexivity |].
  repeat split; vm_compute; reflexivity.
Qed.




(** C3. For every [ShellData] and every order in which the shells are
    visited, the curator returns at most 15 entries, no two of them with the
    same command text, also across shells: of the interesting entries it
    keeps the first occurrence of each command text in the order in which it
    meets them, and of those the first 15. *)
Theorem timeline_bounded_and_without_duplicates
        (rt : GoRuntime) (data : ShellData) :
  let timeline := GenerateTimelineData rt data in
  (length timeline <= 15)%nat
  /\ NoDup (map TLCommand timeline)
  /\ timeline = curated (rangeMap rt (Histories data)).
Proof.
  intros timeline.
  assert (timeline = curated (rangeMap rt (Histories data))) as Hspec.
  { subst timeline. unfold GenerateTimelineData.
    rewrite (curateShells_spec _ _ ∅); [reflexivity |].
    split; [|cbn; lia].
    intros cmd. cbn [uniqueCommands]. rewrite lookup_empty. cbn.
    split; [discriminate | set_solver]. }
  split; [|split; [|exact Hspec]]; rewrite Hspec; unfold curated.
  - rewrite length_take. lia.
  - pose proof (firstOccurrences_NoDup
                  (List.filter (fun e => isInterestingCommand (TLCommand e))
                     (candidates (rangeMap rt (Histories data)))) ∅) as Hnd.
    rewrite <- (take_drop 15 (firstOccurrences _ _)) in Hnd.
    rewrite map_app in Hnd. apply NoDup_app in Hnd. exact (proj1 Hnd).
Qed.

(** C4 (amended). Peak hours: every entry falls into the bucket of the hour
    of its timestamp; the hours returned are the three with the largest
    buckets (all hours when there are fewer than three), each once, in the
    order of non-increasing bucket counts. Hours with equal counts come in no
    particular order. *)
Theorem peak_hours_are_the_fullest_buckets
        (rt : GoRuntime) (host : Host) (entries : list CommandEntry)
        (data : ShellData)
        (Hrt : RuntimeOK rt) (Hlen : Int.len entries <= Int.max_int) :
  let peaks :=
    PeakHours (WorkPatterns_
                 (Insights (analyzeCommands rt host entries data))) in
  let bucket := fun h => hitCount (hourHit h) entries in
  let hoursSeen : gset Z :=
    list_to_set (map (fun e => Hour (Timestamp e)) entries) in
  length peaks = Nat.min 3 (size hoursSeen)
  /\ NoDup peaks
  /\ (forall h, h ∈ peaks -> 0 < bucket h)
  /\ (forall i j h1 h2, (i < j)%nat ->
        peaks !! i = Some h1 -> peaks !! j = Some h2 ->
        bucket h2 <= bucket h1)
  /\ (forall h h', h ∈ peaks -> h' ∉ peaks -> bucket h' <= bucket h).
Proof.
  intros peaks bucket hoursSeen.
  set (m := timeOfDay (tally rt host (getInstalledLanguages rt host) entries)).
  assert (peaks = getPeakHours rt m) as -> by reflexivity.
  destruct (getPeakHours_spec rt Hrt m) as (Hl & Hnd & Hin & Hrank & Htop).
  assert (forall h, h ∈ getPeakHours rt m -> m !! h = Some (bucket h)
                                             /\ 0 < bucket h) as Hpeak.
  { intros h Hh. destruct (Hin h Hh) as [c Hc].
    pose proof (proj1 (buckets_lookup rt host entries Hlen h c) Hc)
      as [-> Hpos].
    now split. }
  split; [|split; [exact Hnd |split; [|split]]].
  - rewrite Hl. subst hoursSeen.
    rewrite <- (buckets_dom rt host entries Hlen). fold m.
    now rewrite size_dom.
  - intros h Hh. now apply Hpeak.
  - intros i j h1 h2 Hij H1 H2.
    apply (Hrank i j h1 h2 _ _ Hij H1 H2).
    + eapply Hpeak, list_elem_of_lookup_2, H1.
    + eapply Hpeak, list_elem_of_lookup_2, H2.
  - intros h h' Hh Hh'. destruct (Hpeak h Hh) as [Hc Hpos].
    destruct (Z.ltb_spec 0 (bucket h')) as [Hpos' | Hz]; [|lia].
    apply (Htop h h' _ _ Hh Hh' Hc).
    apply (buckets_lookup rt host entries Hlen). now split.
Qed.

Lemma peak_hours_are_the_fullest_buckets_witness :
  RuntimeOK runtimeA
  /\ Int.len untiedEntries <= Int.max_int
  /\ length (PeakHours
               (WorkPatterns_
                  (Insights (analyzeCommands runtimeA gitHost untiedEntries
                                             InitShellData))))
     = Nat.min 3 (size (list_to_set
                          (map (fun e => Hour (Timestamp e)) untiedEntries)
                        : gset Z)).
Proof.
  assert (Int.len untiedEntries <= Int.max_int) as Hlen
    by (unfold Int.len, Int.max_int, untiedEntries; simpl length; lia).
  split; [exact runtimeA_ok |]. split; [exact Hlen |].
  exact (proj1 (peak_hours_are_the_fullest_buckets runtimeA gitHost
                  untiedEntries InitShellData runtimeA_ok Hlen)).
Defined.

(** C4, as stated, fails: with one entry in hour 22 and one in hour 23, a
    runtime that respects the language returns hour 23 before hour 22. *)
Lemma peak_hours_tie_not_broken_by_hour :
  RuntimeOK runtimeA
  /\ hitCount (hourHit 22) tiedEntries = hitCount (hourHit 23) tiedEntries
  /\ PeakHours
       (WorkPatterns_
          (Insights (analyzeCommands runtimeA gitHost tiedEntries
                                     InitShellData)))
     = [23; 22].
Proof.
  split; [exact runtimeA_ok |]. split; vm_compute; reflexivity.
Qed.

(** C5 (amended). The productivity metrics of a history with at least one
    command are exactly two: "Command Variety", the number of distinct
    command texts over the number of commands, and "Workflow Complexity",
    the summed numbers of commands that match the git-workflow, build,
    deploy and test patterns over the number of commands. A history without
    commands has no metric at all (an empty mapping, so no NaN). A history
    of 20 commands, 5 of them distinct, has Command Variety 1/4. *)
Theorem productivity_metrics_of_history
        (rt : GoRuntime) (host : Host) (entries : list CommandEntry)
        (data : ShellData)
        (Hrt : RuntimeOK rt) (Hlen : 4 * Int.len entries <= Int.max_int) :
  let metrics :=
    Productivity (WorkPatterns_
                    (Insights (analyzeCommands rt host entries data))) in
  let total := Int.len entries in
  let distinct :=
    Z.of_nat (size (list_to_set (map Command entries) : gset string)) in
  let matching := fun pattern => hitCount (patternHit pattern) entries in
  (total = 0 -> metrics = ∅)
  /\ (0 < total ->
      metrics =
      <["Workflow Complexity" :=
          ratio (matching "git_workflow" + matching "build"
                 + matching "deploy" + matching "test") total]>
        (<["Command Variety" := ratio distinct total]> ∅)
      /\ size metrics = 2%nat)
  /\ (total = 20 -> distinct = 5 ->
      exists q, metrics !! "Command Variety" = Some q /\ (q == 1 # 4)%Q).
Proof.
  intros metrics total distinct matching.
  assert (0 <= total) as Hnn by (subst total; unfold Int.len; lia).
  assert (Int.len entries <= Int.max_int) as Hlen1 by lia.
  assert (0 < total ->
          metrics =
          <["Workflow Complexity" :=
              ratio (matching "git_workflow" + matching "build"
                     + matching "deploy" + matching "test") total]>
            (<["Command Variety" := ratio distinct total]> ∅)) as Hm.
  { intros Hpos. subst metrics matching distinct. cbn beta.
    unfold analyzeCommands. cbn [Insights WorkPatterns_ Productivity].
    rewrite (metrics_unfold _ _ Hpos).
    rewrite !(commandPatterns_get rt Hrt) by exact Hlen1.
    pose proof (hitCount_bounds (patternHit "git_workflow") entries).
    pose proof (hitCount_bounds (patternHit "build") entries).
    pose proof (hitCount_bounds (patternHit "deploy") entries).
    pose proof (hitCount_bounds (patternHit "test") entries).
    subst total.
    rewrite (IntFacts.add_small (hitCount (patternHit "git_workflow") entries))
      by lia.
    rewrite (IntFacts.add_small (_ + _) (hitCount (patternHit "deploy") _))
      by lia.
    rewrite (IntFacts.add_small (_ + _ + _)) by lia.
    reflexivity. }
  split; [|split].
  - intros Hz. subst metrics. unfold analyzeCommands.
    cbn [Insights WorkPatterns_ Productivity].
    unfold calculateProductivityMetrics. fold total. now rewrite Hz.
  - intros Hpos. split; [now apply Hm |]. rewrite (Hm Hpos).
    rewrite map_size_insert_None by now rewrite lookup_insert_ne.
    rewrite map_size_insert_None by apply lookup_empty.
    now rewrite map_size_empty.
  - intros H20 H5. rewrite Hm by lia.
    rewrite lookup_insert_ne by discriminate. rewrite lookup_insert_eq.
    eexists; split; [reflexivity |]. now rewrite H20, H5.
Qed.

Lemma productivity_metrics_of_history_witness :
  RuntimeOK runtimeA
  /\ 4 * Int.len varietyEntries <= Int.max_int
  /\ exists q,
      Productivity
        (WorkPatterns_
           (Insights (analyzeCommands runtimeA gitHost varietyEntries
                                      InitShellData)))
        !! "Command Variety" = Some q
      /\ (q == 1 # 4)%Q.
Proof.
  assert (4 * Int.len varietyEntries <= Int.max_int) as Hlen
    by (unfold Int.len, Int.max_int; vm_compute; discriminate).
  split; [exact runtimeA_ok |]. split; [exact Hlen |].
  apply (proj2 (proj2 (productivity_metrics_of_history runtimeA gitHost
                         varietyEntries InitShellData runtimeA_ok Hlen)));
    vm_compute; reflexivity.
Defined.

(** C5, as stated, fails: for a history without commands the two metrics are
    not reported as 0; the mapping holds no metric. *)
Lemma productivity_metrics_absent_without_commands :
  let metrics :=
    Productivity (WorkPatterns_
                    (Insights (analyzeCommands runtimeA gitHost []
                                               InitShellData))) in
  Int.len (@nil CommandEntry) = 0
  /\ metrics !! "Command Variety" = None
  /\ metrics !! "Workflow Complexity" = None
  /\ metrics !! "Command Variety" <> Some 0%Q.
Proof. repeat split; try (vm_compute; reflexivity). discriminate. Qed.













(** C10. Every entry that [readHistory] makes has a command that is not
    empty and holds no white space: the cleaner returns the last field of the
    line (the empty string when the line has no field), and a line whose
    cleaned command is empty makes no entry; so every stored command is
    exactly one token. *)
Theorem history_commands_are_single_tokens
        (rt : GoRuntime) (host : Host) (path content : string)
        (ioErr err : bool) (entries : list CommandEntry)
        (Hopen : Open host path = Some (content, ioErr))
        (Hread : readHistory rt host path = Some (entries, err)) :
  (forall line,
      cleanHistoryLine line = default "" (last (Strings.Fields line)))
  /\ map Command entries =
     filter (fun cmd => cmd <> "")
            (map cleanHistoryLine (fst (Bufio.Scan content ioErr)))
  /\ Forall (fun e => Command e <> ""
                      /\ Strings.ContainsSpace (Command e) = false
                      /\ Strings.Fields (Command e) = [Command e])
            entries.
Proof.
  unfold readHistory in Hread. rewrite Hopen in Hread.
  destruct (Bufio.Scan content ioErr) as [lines e] eqn:Hscan.
  inversion Hread; subst; clear Hread. cbn [fst].
  split; [exact cleanHistoryLine_last |].
  split; [apply historyEntries_commands |].
  apply Forall_forall. intros e He.
  assert (Command e ∈ map Command (historyEntries rt host path 0 lines))
    as Hc by (apply list_elem_of_fmap; eauto).
  rewrite historyEntries_commands in Hc.
  apply list_elem_of_filter in Hc. destruct Hc as [Hne Hin].
  apply list_elem_of_fmap in Hin. destruct Hin as (line & Hcmd & _).
  assert (Token (Command e)) as Htok.
  { rewrite Hcmd in Hne |- *. now apply cleanHistoryLine_token. }
  repeat split; [exact Hne | |].
  - now apply StringsFacts.Token_ContainsSpace.
  - now apply StringsFacts.Token_Fields.
Qed.

Lemma history_commands_are_single_tokens_witness :
  Open gitHost "/home/u/.bash_history" = Some (gitHistory, false)
  /\ readHistory runtimeA gitHost "/home/u/.bash_history"
     = Some (gitEntries, false)
  /\ Forall (fun e => Command e <> ""
                      /\ Strings.ContainsSpace (Command e) = false
                      /\ Strings.Fields (Command e) = [Command e])
            gitEntries.
Proof.
  assert (Open gitHost "/home/u/.bash_history" = Some (gitHistory, false))
    as Hopen by reflexivity.
  assert (readHistory runtimeA gitHost "/home/u/.bash_history"
          = Some (gitEntries, false)) as Hread by (vm_compute; reflexivity).
  split; [exact Hopen |]. split; [exact Hread |].
  exact (proj2 (proj2 (history_commands_are_single_tokens
                         runtimeA gitHost "/home/u/.bash_history" gitHistory
                         false false gitEntries Hopen Hread))).
Defined.

(* ===================================================================== *)
(** * Part IV. Further properties of the analyzer                         *)
(* ===================================================================== *)

(** ** The most used identifier and the technical profile *)

Lemma hitCount_all {E} (h : E -> bool) (es : list E) :
  (forall e, h e = true) -> hitCount h es = Int.len es.
Proof.
  intros Hall. unfold hitCount, Int.len. f_equal.
  induction es as [|e es IH]; simpl; [reflexivity |].
  rewrite Hall. simpl. now rewrite IH.
Qed.

Lemma Contains_empty (s : string) : Strings.Contains s "" = true.
Proof. destruct s; reflexivity. Qed.

Lemma collect_fold {A B} (p : A -> bool) (g : A -> B)
      (f : list B -> A -> list B) (l : list A) :
  (forall acc x, f acc x = if p x then acc ++ [g x] else acc) ->
  forall acc, fold_left f l acc = acc ++ map g (List.filter p l).
Proof.
  intros Hf. induction l as [|x l IH]; intros acc; simpl.
  - now rewrite List.app_nil_r.
  - rewrite IH, Hf. destruct (p x); simpl; [| reflexivity].
    now rewrite <- List.app_assoc.
Qed.

Lemma elem_of_bfilter {A} (p : A -> bool) (l : list A) (x : A) :
  x ∈ List.filter p l <-> p x = true /\ x ∈ l.
Proof. rewrite !list_elem_of_In, filter_In. tauto. Qed.

Lemma NoDup_map_bfilter {A B} (g : A -> B) (p : A -> bool) (l : list A) :
  NoDup (map g l) -> NoDup (map g (List.filter p l)).
Proof.
  induction l as [|x l IH]; intros Hnd; [constructor |].
  cbn [map] in Hnd. apply NoDup_cons in Hnd. destruct Hnd as [Hx Hnd].
  cbn [List.filter]. destruct (p x); [| now apply IH].
  cbn [map]. constructor; [| now apply IH].
  intros Hin. apply Hx. apply list_elem_of_fmap in Hin.
  destruct Hin as (y & -> & Hy). apply elem_of_bfilter in Hy.
  apply list_elem_of_fmap. exists y. tauto.
Qed.

Section MostUsed.
Let step : string * Z -> string * Z -> string * Z :=
  fun '(maxKey, maxVal) '(k, v) =>
    if maxVal <? v then (k, v) else (maxKey, maxVal).

Lemma mostUsed_fold (l : list (string * Z)) :
  forall k0 v0 k v,
    fold_left step l (k0, v0) = (k, v) ->
    v0 <= v
    /\ (forall k' v', (k', v') ∈ l -> v' <= v)
    /\ ((k, v) = (k0, v0) \/ ((k, v) ∈ l /\ v0 < v)).
Proof.
  induction l as [|[k1 v1] l IH]; intros k0 v0 k v Hfold; simpl in Hfold.
  - inversion Hfold; subst. split; [lia |]. split; [| now left].
    intros k' v' Hin. inversion Hin.
  - destruct (Z.ltb_spec v0 v1) as [Hlt | Hge];
      apply IH in Hfold; destruct Hfold as (Hle & Hall & Hcase).
    + split; [lia |]. split.
      * intros k' v' Hin. apply elem_of_cons in Hin.
        destruct Hin as [Heq | Hin]; [inversion Heq; subst; lia | eauto].
      * right. destruct Hcase as [Heq | [Hin Hv]].
        -- inversion Heq; subst. split; [left | lia].
        -- split; [now right | lia].
    + split; [lia |]. split.
      * intros k' v' Hin. apply elem_of_cons in Hin.
        destruct Hin as [Heq | Hin]; [inversion Heq; subst; lia | eauto].
      * destruct Hcase as [Heq | [Hin Hv]]; [now left |].
        right. split; [now right | lia].
Qed.

Lemma getMostUsed_spec (rt : GoRuntime) (Hrt : RuntimeOK rt)
      (usage : gmap string Z) :
  (snd (getMostUsed rt usage) = true
   <-> exists k v, usage !! k = Some v /\ 0 < v)
  /\ (snd (getMostUsed rt usage) = true ->
      exists v, usage !! fst (getMostUsed rt usage) = Some v /\ 0 < v
                /\ forall k' v', usage !! k' = Some v' -> v' <= v)
  /\ (snd (getMostUsed rt usage) = false -> fst (getMostUsed rt usage) = "").
Proof.
  unfold getMostUsed.
  destruct (fold_left _ (rangeMap rt usage) ("", 0)) as [k v] eqn:Hfold.
  apply (mostUsed_fold (rangeMap rt usage) "" 0 k v) in Hfold.
  destruct Hfold as (Hle & Hall & Hcase). cbn [fst snd].
  assert (forall k' v', usage !! k' = Some v' -> v' <= v) as Hmax.
  { intros k' v' Hk. apply Hall with k'. now apply range_lookup. }
  split; [| split].
  - rewrite Z.ltb_lt. split.
    + intros Hpos. destruct Hcase as [Heq | [Hin _]].
      * inversion Heq; subst; lia.
      * exists k, v. split; [now apply (range_lookup rt Hrt) | exact Hpos].
    + intros (k' & v' & Hk & Hpos). apply Hmax in Hk. lia.
  - rewrite Z.ltb_lt. intros Hpos. exists v.
    destruct Hcase as [Heq | [Hin _]]; [inversion Heq; subst; lia |].
    split; [now apply (range_lookup rt Hrt) |]. split; [exact Hpos | exact Hmax].
  - rewrite Z.ltb_ge. intros Hnpos.
    destruct Hcase as [Heq | [Hin Hv]]; [now inversion Heq | lia].
Qed.
End MostUsed.

Section Profile.
Context (rt : GoRuntime) (Hrt : RuntimeOK rt) (host : Host).
Context (entries : list CommandEntry).
Hypothesis Hlen : Int.len entries <= Int.max_int.

Let installed : gmap string string := getInstalledLanguages rt host.
Let hits (lang : string) : Z := hitCount (langHit installed lang) entries.
Let usage : gmap string Z := langUsage (tally rt host installed entries).

Lemma usage_lookup (lang : string) (v : Z) :
  usage !! lang = Some v <-> v = hits lang /\ 0 < v.
Proof.
  unfold usage, hits.
  rewrite (langUsage_lookup rt Hrt host installed entries Hlen).
  destruct (Z.ltb_spec 0 (hitCount (langHit installed lang) entries)).
  - split; [intros [= <-]; auto | intros [-> _]; reflexivity].
  - split; [discriminate | intros [-> ?]; lia].
Qed.

Lemma usage_get (lang : string) : Counter.get usage lang = hits lang.
Proof.
  unfold Counter.get. destruct (usage !! lang) as [v|] eqn:Hv; simpl.
  - now apply usage_lookup in Hv.
  - destruct (Z.ltb_spec 0 (hits lang)) as [Hpos | Hle].
    + assert (usage !! lang = Some (hits lang)) as Hs
          by now apply usage_lookup.
      congruence.
    + pose proof (hitCount_bounds (langHit installed lang) entries).
      unfold hits in *. lia.
Qed.

Lemma primaryRole_spec (data : ShellData) :
  let role :=
    PrimaryRole (TechnicalProfile
                   (Insights (analyzeCommands rt host entries data))) in
  ((forall lang, hits lang = 0) ->
   role = PrimaryRole (TechnicalProfile (Insights data)))
  /\ ((exists lang, 0 < hits lang) ->
      exists lang, role = Strings.Title lang +:+ " Developer"
                   /\ 0 < hits lang
                   /\ forall lang', hits lang' <= hits lang).
Proof.
  unfold analyzeCommands. cbn [Insights TechnicalProfile PrimaryRole].
  fold installed. fold usage.
  pose proof (getMostUsed_spec rt Hrt usage) as (Hok & Hmax & _).
  destruct (getMostUsed rt usage) as [primaryLang ok]. cbn [fst snd] in *.
  split.
  - intros Hnone. destruct ok; [| reflexivity].
    destruct (proj1 Hok eq_refl) as (k & v & Hk & Hpos).
    apply usage_lookup in Hk. rewrite Hnone in Hk. lia.
  - intros (lang & Hpos).
    assert (ok = true) as ->.
    { apply Hok. exists lang, (hits lang). split; [| exact Hpos].
      now apply usage_lookup. }
    destruct (Hmax eq_refl) as (v & Hv & Hvpos & Hall).
    apply usage_lookup in Hv. destruct Hv as [-> _].
    exists primaryLang. split; [reflexivity |]. split; [exact Hvpos |].
    intros lang'. destruct (Z.ltb_spec 0 (hits lang')) as [Hp | Hn]; [| lia].
    apply (Hall lang'). now apply usage_lookup.
Qed.

Lemma techStack_spec (data : ShellData) :
  let stack :=
    TechStack (TechnicalProfile
                 (Insights (analyzeCommands rt host entries data))) in
  NoDup stack /\ forall lang, lang ∈ stack <-> 0 < hits lang.
Proof.
  unfold analyzeCommands. cbn [Insights TechnicalProfile TechStack].
  fold installed. fold usage.
  rewrite (collect_fold (fun x => 0 <? Counter.get usage (fst x)) fst)
    by (intros acc [lang out]; reflexivity).
  cbn [app]. split.
  - apply NoDup_map_bfilter, (range_NoDup_keys rt Hrt).
  - intros lang. rewrite list_elem_of_fmap. split.
    + intros ([k v] & -> & Hin). apply elem_of_bfilter in Hin.
      destruct Hin as [Hpos _]. cbn in Hpos. rewrite usage_get in Hpos.
      now apply Z.ltb_lt in Hpos.
    + intros Hpos.
      assert (is_Some (installed !! lang)) as [out Hout].
      { apply hitCount_pos in Hpos. destruct Hpos as (e & _ & He).
        unfold langHit in He. apply andb_true_iff in He.
        destruct He as [He _]. now apply bool_decide_eq_true in He. }
      exists (lang, out). split; [reflexivity |].
      apply elem_of_bfilter. split.
      * cbn. rewrite usage_get. now apply Z.ltb_lt.
      * now apply (range_lookup rt Hrt).
Qed.

Lemma unmanaged_language_counts_all (lang : string) :
  is_Some (installed !! lang) -> packageManagers !! lang = None ->
  hits lang = Int.len entries.
Proof.
  intros Hin Hpm. apply hitCount_all. intros e. unfold langHit, usesLanguage.
  rewrite bool_decide_eq_true_2 by exact Hin.
  unfold getPackageManager. rewrite Hpm. cbn [default from_option id].
  rewrite Contains_empty. now rewrite orb_true_r.
Qed.
End Profile.

(** X1. The primary role that [analyzeCommands] writes: when no entry counts
    for any installed identifier the role is left as it was; otherwise it is
    the title-cased name, followed by [" Developer"], of an identifier whose
    count is positive and not below the count of any other identifier. *)
Theorem primary_role_names_a_most_used_language
        (rt : GoRuntime) (host : Host) (entries : list CommandEntry)
        (data : ShellData)
        (Hrt : RuntimeOK rt) (Hlen : Int.len entries <= Int.max_int) :
  let installed := getInstalledLanguages rt host in
  let hits := fun lang => hitCount (langHit installed lang) entries in
  let role :=
    PrimaryRole (TechnicalProfile
                   (Insights (analyzeCommands rt host entries data))) in
  ((forall lang, hits lang = 0) ->
   role = PrimaryRole (TechnicalProfile (Insights data)))
  /\ ((exists lang, 0 < hits lang) ->
      exists lang, role = Strings.Title lang +:+ " Developer"
                   /\ 0 < hits lang
                   /\ forall lang', hits lang' <= hits lang).
Proof. exact (primaryRole_spec rt Hrt host entries Hlen data). Qed.

Lemma primary_role_names_a_most_used_language_witness :
  exists lang,
    PrimaryRole (TechnicalProfile
                   (Insights (analyzeCommands runtimeA gitHost gitEntries
                                              InitShellData)))
    = Strings.Title lang +:+ " Developer"
    /\ 0 < hitCount (langHit (getInstalledLanguages runtimeA gitHost) lang)
                    gitEntries.
Proof.
  assert (Int.len gitEntries <= Int.max_int) as Hlen by (vm_compute; discriminate).
  destruct (proj2 (primary_role_names_a_most_used_language
                     runtimeA gitHost gitEntries InitShellData
                     runtimeA_ok Hlen)) as (lang & Hrole & Hpos & _).
  - exists "git". vm_compute. reflexivity.
  - exists lang. split; [exact Hrole | exact Hpos].
Defined.

(** X2. The technology stack that [analyzeCommands] writes holds exactly the
    installed identifiers for which at least one entry counts, each once. *)
Theorem tech_stack_lists_the_languages_in_use
        (rt : GoRuntime) (host : Host) (entries : list CommandEntry)
        (data : ShellData)
        (Hrt : RuntimeOK rt) (Hlen : Int.len entries <= Int.max_int) :
  let installed := getInstalledLanguages rt host in
  let stack :=
    TechStack (TechnicalProfile
                 (Insights (analyzeCommands rt host entries data))) in
  NoDup stack
  /\ forall lang,
      lang ∈ stack <-> 0 < hitCount (langHit installed lang) entries.
Proof. exact (techStack_spec rt Hrt host entries Hlen data). Qed.

Lemma tech_stack_lists_the_languages_in_use_witness :
  NoDup (TechStack (TechnicalProfile
                      (Insights (analyzeCommands runtimeA gitHost gitEntries
                                                 InitShellData))))
  /\ "git" ∈ TechStack (TechnicalProfile
                          (Insights (analyzeCommands runtimeA gitHost
                                                     gitEntries InitShellData))).
Proof.
  assert (Int.len gitEntries <= Int.max_int) as Hlen by (vm_compute; discriminate).
  destruct (tech_stack_lists_the_languages_in_use
              runtimeA gitHost gitEntries InitShellData runtimeA_ok Hlen)
    as [Hnd Hiff].
  split; [exact Hnd |]. apply Hiff. vm_compute. reflexivity.
Defined.

(** X3. An installed identifier that has no entry in the package-manager
    table counts for every command: [getPackageManager] gives the empty
    string, which [strings.Contains] finds in every command, so after a
    history that is not empty the count of the identifier is the number of
    entries. *)
Theorem language_without_package_manager_counts_every_command
        (rt : GoRuntime) (host : Host) (entries : list CommandEntry)
        (lang : string)
        (Hrt : RuntimeOK rt) (Hlen : Int.len entries <= Int.max_int)
        (Hinstalled : is_Some (getInstalledLanguages rt host !! lang))
        (Hunmanaged : packageManagers !! lang = None)
        (Hsome : entries <> []) :
  langUsage (tally rt host (getInstalledLanguages rt host) entries) !! lang
  = Some (Int.len entries).
Proof.
  apply (usage_lookup rt Hrt host entries Hlen). split.
  - symmetry. now apply unmanaged_language_counts_all.
  - destruct entries; [congruence | unfold Int.len; simpl; lia].
Qed.

Lemma language_without_package_manager_counts_every_command_witness :
  langUsage (tally runtimeA gitHost (getInstalledLanguages runtimeA gitHost)
                   gitEntries) !! "git"
  = Some 3.
Proof.
  apply (language_without_package_manager_counts_every_command
           runtimeA gitHost gitEntries "git" runtimeA_ok).
  - vm_compute. discriminate.
  - exists "git version 2.43.0". vm_compute. reflexivity.
  - vm_compute. reflexivity.
  - discriminate.
Defined.

(** ** The installed languages *)

Section Installed.
Context (rt : GoRuntime) (Hrt : RuntimeOK rt) (host : Host).

Lemma probe_fold_lookup (l : list (string * string)) :
  forall (m : gmap string string) (k : string),
    NoDup (map fst l) ->
    fold_left
      (fun installed '(lang, cmd) =>
         match shOutput host cmd with
         | Some out => <[lang := out]> installed
         | None => installed
         end) l m !! k =
    match list_to_map (M := gmap string string) l !! k ≫= shOutput host with
    | Some out => Some out
    | None => m !! k
    end.
Proof.
  induction l as [|[k1 c1] l IH]; intros m k Hnd; [reflexivity |].
  cbn [map fst] in Hnd. apply NoDup_cons in Hnd. destruct Hnd as [Hk Hnd].
  cbn [fold_left]. rewrite (IH _ _ Hnd), list_to_map_cons.
  destruct (decide (k1 = k)) as [-> | Hne].
  - rewrite lookup_insert_eq.
    rewrite (not_elem_of_list_to_map_1 (M := gmap string)) by exact Hk.
    cbn. destruct (shOutput host c1); [now rewrite lookup_insert_eq | reflexivity].
  - rewrite lookup_insert_ne by exact Hne.
    destruct (shOutput host c1); [now rewrite lookup_insert_ne | reflexivity].
Qed.

Lemma probe_fold_probed :
  fold_left
    (fun installed '(lang, cmd) =>
       match shOutput host cmd with
       | Some out => <[lang := out]> installed
       | None => installed
       end) (rangeMap rt languages) ∅
  = probed host.
Proof.
  apply map_eq. intros k.
  rewrite probe_fold_lookup by apply (range_NoDup_keys rt Hrt).
  assert (list_to_map (rangeMap rt languages) = languages) as ->.
  { rewrite <- (list_to_map_to_list languages) at 2.
    apply list_to_map_proper; [apply (range_NoDup_keys rt Hrt) |].
    apply (range_perm rt Hrt). }
  unfold probed. rewrite lookup_omap, lookup_empty.
  now destruct (languages !! k ≫= shOutput host).
Qed.

Lemma assign_fold_lookup (h : string -> string) (l : list usageEntry) :
  forall (m : gmap string string) (k : string),
    fold_left (fun result u => <[name u := h (name u)]> result) l m !! k =
    if bool_decide (k ∈ map name l) then Some (h k) else m !! k.
Proof.
  induction l as [|u l IH]; intros m k; [reflexivity |].
  cbn [fold_left map]. rewrite IH.
  destruct (decide (k ∈ map name l)) as [Hin | Hnin].
  - rewrite !bool_decide_eq_true_2; [reflexivity | now right | exact Hin].
  - rewrite (bool_decide_eq_false_2 _ Hnin).
    destruct (decide (name u = k)) as [<- | Hne].
    + rewrite lookup_insert_eq. rewrite bool_decide_eq_true_2; [reflexivity | left].
    + rewrite lookup_insert_ne by exact Hne.
      rewrite bool_decide_eq_false_2; [reflexivity |].
      intros Hin. apply elem_of_cons in Hin. destruct Hin; congruence.
Qed.

Section Ranking.
Context (P : gmap string string).

Let mk : string * string -> usageEntry :=
  fun '(nm, _) => {| name := nm; ucount := 0 |}.
Let ranked : list usageEntry :=
  sortSlice rt (fun a b => ucount b <? ucount a) (map mk (rangeMap rt P)).
Let kept : gmap string string :=
  fold_left (fun result u => <[name u := default "" (P !! name u)]> result)
            (take 10 ranked) ∅.

Lemma ranked_names : map name ranked ≡ₚ map fst (map_to_list P).
Proof.
  unfold ranked. rewrite (sort_perm rt Hrt), (range_perm rt Hrt).
  rewrite map_map.
  assert (map (fun x => name (mk x)) (map_to_list P)
          = map fst (map_to_list P)) as ->; [| reflexivity].
  apply map_ext. now intros [nm out].
Qed.

Lemma kept_spec :
  (forall lang out, kept !! lang = Some out -> P !! lang = Some out)
  /\ size kept = Nat.min 10 (size P).
Proof.
  assert (NoDup (map name ranked)) as Hnd.
  { rewrite ranked_names. apply NoDup_fst_map_to_list. }
  assert (forall k, kept !! k =
                    if bool_decide (k ∈ map name (take 10 ranked))
                    then Some (default "" (P !! k)) else None) as Hkept.
  { intros k. unfold kept.
    rewrite (assign_fold_lookup (fun nm => default "" (P !! nm))).
    now rewrite lookup_empty. }
  split.
  - intros lang out. rewrite Hkept.
    case_bool_decide as Hin; [| discriminate].
    assert (lang ∈ map name ranked) as Hin'.
    { change (map name (take 10 ranked)) with (name <$> take 10 ranked) in Hin.
      rewrite fmap_take in Hin. eapply elem_of_sublist; [exact Hin |].
      apply sublist_take. }
    rewrite ranked_names in Hin'. apply list_elem_of_fmap in Hin'.
    destruct Hin' as ([k v] & -> & Hkv). apply elem_of_map_to_list in Hkv.
    cbn [fst]. rewrite Hkv. intros Heq. exact Heq.
  - rewrite <- size_dom.
    assert (dom kept = list_to_set (map name (take 10 ranked))) as ->.
    { apply set_eq. intros k. rewrite elem_of_dom, elem_of_list_to_set, Hkept.
      case_bool_decide as Hin.
      - split; [intros _; exact Hin | intros _; eauto].
      - split; [intros [? ?]; discriminate | tauto]. }
    rewrite size_list_to_set.
    + rewrite length_map, length_take.
      rewrite <- (length_map name ranked), ranked_names, length_map.
      rewrite length_map_to_list. lia.
    + change (map name (take 10 ranked)) with (name <$> take 10 ranked).
      rewrite fmap_take. eapply sublist_NoDup; [exact Hnd | apply sublist_take].
Qed.
End Ranking.

Lemma getInstalledLanguages_spec :
  (forall lang out,
      getInstalledLanguages rt host !! lang = Some out ->
      probed host !! lang = Some out)
  /\ size (getInstalledLanguages rt host) = Nat.min 10 (size (probed host)).
Proof.
  unfold getInstalledLanguages. rewrite probe_fold_probed.
  exact (kept_spec (probed host)).
Qed.
End Installed.

(** X4. [getInstalledLanguages] reports only identifiers of the table whose
    probe succeeds, each with the output of its probe, and of those as many
    as there are but at most 10; when at most 10 probes succeed it reports
    all of them. *)
Theorem installed_languages_are_at_most_ten_of_the_probed
        (rt : GoRuntime) (host : Host) (Hrt : RuntimeOK rt) :
  (forall lang out,
      getInstalledLanguages rt host !! lang = Some out ->
      exists cmd, languages !! lang = Some cmd
                  /\ shOutput host cmd = Some out)
  /\ size (getInstalledLanguages rt host) = Nat.min 10 (size (probed host))
  /\ ((size (probed host) <= 10)%nat ->
      getInstalledLanguages rt host = probed host).
Proof.
  destruct (getInstalledLanguages_spec rt Hrt host) as [Hsub Hsize].
  split; [| split; [exact Hsize |]].
  - intros lang out Hout. apply Hsub in Hout.
    unfold probed in Hout. rewrite lookup_omap in Hout.
    destruct (languages !! lang) as [cmd|]; [| discriminate].
    exists cmd. split; [reflexivity | exact Hout].
  - intros Hfew. apply map_subseteq_size_eq.
    + now apply map_subseteq_spec.
    + rewrite Hsize. lia.
Qed.

Lemma installed_languages_are_at_most_ten_of_the_probed_witness :
  getInstalledLanguages runtimeA gitHost = probed gitHost.
Proof.
  apply (installed_languages_are_at_most_ten_of_the_probed
           runtimeA gitHost runtimeA_ok).
  vm_compute. lia.
Defined.

(** ** The tool usage *)

Lemma editors_NoDup : NoDup editors.
Proof. compute_done. Qed.

Lemma buildTools_NoDup : NoDup buildTools.
Proof. compute_done. Qed.

Section ToolUsageFacts.
Context (rt : GoRuntime) (Hrt : RuntimeOK rt) (host : Host).

Let installed : gmap string string := getInstalledLanguages rt host.
Let step (u : ToolUsage) (entry : CommandEntry) : ToolUsage :=
  {| Languages := countLanguages rt installed (Command entry) (Languages u);
     Editors := countTools host editors (Command entry) (Editors u);
     BuildTools := countTools host buildTools (Command entry) (BuildTools u) |}.

Lemma toolUsage_fold (entries : list CommandEntry) (u : ToolUsage) :
  let u' := fold_left step entries u in
  Languages u' =
    fold_left (fun m e => countLanguages rt installed (Command e) m)
              entries (Languages u)
  /\ Editors u' =
    fold_left (fun m e => countTools host editors (Command e) m)
              entries (Editors u)
  /\ BuildTools u' =
    fold_left (fun m e => countTools host buildTools (Command e) m)
              entries (BuildTools u).
Proof.
  revert u; induction entries as [|e entries IH]; intros u.
  - repeat split.
  - cbn [fold_left]. apply IH.
Qed.
End ToolUsageFacts.

Lemma getInstalledLanguages_all (rt : GoRuntime) (host : Host) :
  RuntimeOK rt -> (size (probed host) <= 10)%nat ->
  getInstalledLanguages rt host = probed host.
Proof.
  intros Hrt Hfew.
  destruct (getInstalledLanguages_spec rt Hrt host) as [Hsub Hsize].
  apply map_subseteq_size_eq.
  - now apply map_subseteq_spec.
  - rewrite Hsize. lia.
Qed.

(** X5. The three tallies of [analyzeToolUsage]: an identifier's count in
    [Languages] is the number of entries that mention it or its package
    manager, for the identifiers that this call of [getInstalledLanguages]
    reports; a tool's count in [Editors] (in [BuildTools]) is the number of
    entries whose command starts with its name, for the installed tools of
    the list, and zero for every other name. When at most 10 probes succeed,
    [Languages] is the language tally that [analyzeCommands] makes of the
    same entries, whatever the iteration orders of the two calls. *)
Theorem tool_usage_counts_the_hits
        (rt rt' : GoRuntime) (host : Host) (entries : list CommandEntry)
        (Hrt : RuntimeOK rt) (Hrt' : RuntimeOK rt')
        (Hlen : Int.len entries <= Int.max_int) :
  let u := analyzeToolUsage rt host entries in
  let installed := getInstalledLanguages rt host in
  (forall lang,
      Counter.get (Languages u) lang
      = hitCount (langHit installed lang) entries)
  /\ (forall tool,
         Counter.get (Editors u) tool
         = hitCount (toolHit host editors tool) entries)
  /\ (forall tool,
         Counter.get (BuildTools u) tool
         = hitCount (toolHit host buildTools tool) entries)
  /\ ((size (probed host) <= 10)%nat ->
      Languages u
      = langUsage (tally rt' host (getInstalledLanguages rt' host) entries)).
Proof.
  cbv zeta. unfold analyzeToolUsage.
  destruct (toolUsage_fold rt host entries
              {| Editors := ∅; Languages := ∅; BuildTools := ∅ |})
    as (HL & HE & HB).
  cbn [Languages Editors BuildTools] in HL, HE, HB.
  rewrite HL, HE, HB. clear HL HE HB.
  split; [| split; [| split]].
  - intros lang.
    apply (accumulate_get _ (langHit (getInstalledLanguages rt host)));
      [| exact Hlen].
    intros m e k. now apply countLanguages_lookup.
  - intros tool. apply (accumulate_get _ (toolHit host editors)); [| exact Hlen].
    intros m e k. apply countTools_lookup, editors_NoDup.
  - intros tool.
    apply (accumulate_get _ (toolHit host buildTools)); [| exact Hlen].
    intros m e k. apply countTools_lookup, buildTools_NoDup.
  - intros Hfew. apply map_eq. intros lang.
    rewrite (langUsage_lookup rt' Hrt' host _ entries Hlen).
    rewrite (getInstalledLanguages_all rt' host Hrt' Hfew).
    rewrite <- (getInstalledLanguages_all rt host Hrt Hfew).
    apply (accumulate_lookup _ (langHit (getInstalledLanguages rt host)));
      [| exact Hlen].
    intros m e k. now apply countLanguages_lookup.
Qed.

Lemma tool_usage_counts_the_hits_witness :
  Languages (analyzeToolUsage runtimeA gitHost gitEntries)
  = langUsage (tally runtimeB gitHost (getInstalledLanguages runtimeB gitHost)
                     gitEntries).
Proof.
  apply (tool_usage_counts_the_hits runtimeA runtimeB gitHost gitEntries
                                    runtimeA_ok runtimeB_ok).
  - vm_compute. discriminate.
  - vm_compute. lia.
Defined.

(** Without the bound the two tallies can differ: when more than 10 probes
    succeed, each call of [getInstalledLanguages] keeps 10 identifiers of
    its own choosing. *)
Lemma language_tallies_of_two_calls_may_differ :
  Languages (analyzeToolUsage runtimeA probeAllHost [entryAt "ls" evening])
  <> langUsage (tally runtimeB probeAllHost
                      (getInstalledLanguages runtimeB probeAllHost)
                      [entryAt "ls" evening]).
Proof. vm_compute. discriminate. Qed.

(** ** The config parser *)

Lemma parseConfigLine_environment (config : ShellConfig) (line : string) :
  Environment (parseConfigLine config line) =
  match parseDecl "export " line with
  | Some (n, v) => <[n := v]> (Environment config)
  | None => Environment config
  end.
Proof. reflexivity. Qed.

Lemma declarations_fold (keyword : string)
      (field : ShellConfig -> gmap string string) :
  (forall config line,
      field (parseConfigLine config line) =
      match parseDecl keyword line with
      | Some (n, v) => <[n := v]> (field config)
      | None => field config
      end) ->
  forall (lines : list string) (config : ShellConfig),
    field (fold_left parseConfigLine lines config)
    = list_to_map (rev (omap (parseDecl keyword) lines)) ∪ field config.
Proof.
  intros Hstep. induction lines as [|l lines IH]; intros config.
  - cbn. now rewrite (left_id_L ∅ (∪)).
  - cbn [fold_left]. rewrite IH, Hstep. cbn [omap list_omap].
    destruct (parseDecl keyword l) as [[n v]|]; [| reflexivity].
    cbn [rev]. rewrite list_to_map_app, <- (assoc_L (∪)). f_equal.
    cbn [list_to_map foldr uncurry]. cbn.
    rewrite insert_union_singleton_l. f_equal.
Qed.

Lemma frame_fold (lines : list string) :
  forall config : ShellConfig,
    ConfigFiles (fold_left parseConfigLine lines config) = ConfigFiles config
    /\ Plugins (fold_left parseConfigLine lines config) = Plugins config.
Proof.
  induction lines as [|l lines IH]; intros config; [now split |].
  cbn [fold_left]. destruct (IH (parseConfigLine config l)) as [-> ->].
  now split.
Qed.

Lemma HasPrefix_cons (c : ascii) (s pre : string) :
  Strings.HasPrefix s (String c pre) = true ->
  exists t, s = String c t.
Proof.
  unfold Strings.HasPrefix. destruct s as [|d t]; cbn; [discriminate |].
  destruct (ascii_dec c d) as [-> | Hne]; [eauto | discriminate].
Qed.

(** X6. What [parseShellConfig] makes of a config file: the recorded files
    and plugins are untouched; the aliases are the old ones overridden by the
    [alias] declarations of the scanned lines in their order (a later line
    overrides an earlier one), the environment likewise with the [export]
    declarations; and no line is both an alias and an export declaration. *)
Theorem parsed_config_is_old_config_overridden_by_declarations
        (content : string) (config : ShellConfig) :
  let lines := fst (Bufio.Scan content false) in
  let config' := parseShellConfig content config in
  ConfigFiles config' = ConfigFiles config
  /\ Plugins config' = Plugins config
  /\ Aliases config'
     = list_to_map (rev (omap (parseDecl "alias ") lines)) ∪ Aliases config
  /\ Environment config'
     = list_to_map (rev (omap (parseDecl "export ") lines))
       ∪ Environment config
  /\ forall line,
      parseDecl "alias " line = None \/ parseDecl "export " line = None.
Proof.
  cbv zeta. unfold parseShellConfig.
  destruct (frame_fold (fst (Bufio.Scan content false)) config) as [-> ->].
  split; [reflexivity |]. split; [reflexivity |]. split; [| split].
  - apply (declarations_fold "alias " Aliases). exact parseConfigLine_aliases.
  - apply (declarations_fold "export " Environment).
    exact parseConfigLine_environment.
  - intros line. unfold parseDecl.
    destruct (Strings.HasPrefix line "alias ") eqn:Ha; [| now left].
    destruct (Strings.HasPrefix line "export ") eqn:He; [| now right].
    apply HasPrefix_cons in Ha, He. destruct Ha as [t ->], He as [t' He].
    discriminate He.
Qed.

(** ** The plugin detectors and the config files *)

Lemma withPlugins_nil (config : ShellConfig) : withPlugins config [] = config.
Proof.
  destruct config. unfold withPlugins. cbn. now rewrite List.app_nil_r.
Qed.

Lemma withPlugins_add (config : ShellConfig) (p : PluginInfo)
      (ps : list PluginInfo) :
  withPlugins (addPlugin config p) ps = withPlugins config (p :: ps).
Proof.
  unfold withPlugins, addPlugin. cbn. now rewrite <- List.app_assoc.
Qed.

Lemma fishPlugins_spec (host : Host) (dir : string) (files : list DirEntry) :
  forall config : ShellConfig,
    let fishFiles :=
      List.filter (fun file => Strings.HasSuffix (Name file) ".fish") files in
    (Forall (fun file => is_Some (Info file)) fishFiles ->
     fishPlugins host dir files config
     = Ok (withPlugins config (omap (fishPluginOf host dir) fishFiles))
     /\ length (omap (fishPluginOf host dir) fishFiles) = length fishFiles)
    /\ (Exists (fun file => Info file = None) fishFiles ->
        fishPlugins host dir files config
        = Panic "invalid memory address or nil pointer dereference").
Proof.
  induction files as [|file files IH]; intros config; cbv zeta.
  - cbn. rewrite withPlugins_nil. split; [now split |].
    intros Hex. inversion Hex.
  - cbn [fishPlugins List.filter].
    destruct (Strings.HasSuffix (Name file) ".fish"); [| apply IH].
    destruct (Info file) as [info|] eqn:Hinfo.
    + specialize (IH (addPlugin config
                        {| PluginName := Strings.TrimSuffix (Name file) ".fish";
                           Source := Join host dir (Name file);
                           LastUpdated := ModTime info |})).
      cbv zeta in IH. destruct IH as [IHok IHpanic]. split.
      * intros Hall. inversion Hall as [|? ? _ Hrest]; subst.
        destruct (IHok Hrest) as [-> Hlen].
        assert (fishPluginOf host dir file
                = Some {| PluginName :=
                            Strings.TrimSuffix (Name file) ".fish";
                          Source := Join host dir (Name file);
                          LastUpdated := ModTime info |}) as Hplugin
            by (unfold fishPluginOf; now rewrite Hinfo).
        cbn [omap list_omap]. rewrite Hplugin.
        rewrite withPlugins_add. split; [reflexivity |].
        cbn [length]. now rewrite Hlen.
      * intros Hex. inversion Hex as [? ? Hhere | ? ? Hlater]; subst;
          [congruence | now apply IHpanic].
    + split.
      * intros Hall. inversion Hall as [|? ? [? Hsome] _]; subst. congruence.
      * reflexivity.
Qed.

(** X7. [detectFishPlugins] on a host whose directory [conf.d] can be
    listed: when the metadata of every listed [.fish] file can be read, it
    appends one plugin for each such file, in the order of the listing,
    named as the file without its suffix, and changes nothing else; when the
    metadata of one of them cannot be read, it does not return (the nil
    [info] is dereferenced). *)
Theorem fish_plugins_are_the_listed_fish_files
        (host : Host) (config : ShellConfig) (files : list DirEntry)
        (Hdir : ReadDir host (expandPath host "~/.config/fish/conf.d")
                = Some files) :
  let dir := expandPath host "~/.config/fish/conf.d" in
  let fishFiles :=
    List.filter (fun file => Strings.HasSuffix (Name file) ".fish") files in
  (Forall (fun file => is_Some (Info file)) fishFiles ->
   detectFishPlugins host config
   = Ok (withPlugins config (omap (fishPluginOf host dir) fishFiles))
   /\ length (omap (fishPluginOf host dir) fishFiles) = length fishFiles)
  /\ (Exists (fun file => Info file = None) fishFiles ->
      detectFishPlugins host config
      = Panic "invalid memory address or nil pointer dereference").
Proof.
  cbv zeta. unfold detectFishPlugins. rewrite Hdir.
  apply fishPlugins_spec.
Qed.

Lemma fish_plugins_are_the_listed_fish_files_witness :
  map PluginName
      (Plugins (match detectFishPlugins homelessHost emptyConfig with
                | Ok config => config
                | Panic _ => emptyConfig
                end))
  = ["z"].
Proof.
  pose proof (fish_plugins_are_the_listed_fish_files
                homelessHost emptyConfig _ eq_refl) as [Hok _].
  cbv zeta in Hok. destruct Hok as [-> _].
  - vm_compute. repeat constructor; eexists; reflexivity.
  - vm_compute. reflexivity.
Defined.

Lemma detectManagers_adds (host : Host) (managers : list string) :
  forall config : ShellConfig,
    exists ps, detectManagers host managers config = withPlugins config ps.
Proof.
  unfold detectManagers.
  induction managers as [|manager managers IH]; intros config.
  - exists []. now rewrite withPlugins_nil.
  - cbn [fold_left].
    destruct (Stat host (expandPath host manager)) as [info|];
      [destruct (IsDir info) |]; try apply IH.
    match goal with
    | |- context [addPlugin config ?p] =>
      destruct (IH (addPlugin config p)) as [ps ->]; exists (p :: ps)
    end.
    apply withPlugins_add.
Qed.

Lemma pluginDirs_adds (f : DirEntry -> PluginInfo) (dirs : list DirEntry) :
  forall config : ShellConfig,
    exists ps,
      fold_left
        (fun config pluginDir =>
           if EntryIsDir pluginDir then addPlugin config (f pluginDir)
           else config) dirs config
      = withPlugins config ps.
Proof.
  induction dirs as [|d dirs IH]; intros config.
  - exists []. now rewrite withPlugins_nil.
  - cbn [fold_left]. destruct (EntryIsDir d); [| apply IH].
    destruct (IH (addPlugin config (f d))) as [ps ->]. exists (f d :: ps).
    apply withPlugins_add.
Qed.

Lemma withPlugins_twice (config : ShellConfig) (ps qs : list PluginInfo) :
  withPlugins (withPlugins config ps) qs = withPlugins config (ps ++ qs).
Proof. unfold withPlugins. cbn. now rewrite <- List.app_assoc. Qed.

Lemma detectZshPlugins_adds (host : Host) (config : ShellConfig) :
  exists ps, detectZshPlugins host config = withPlugins config ps.
Proof.
  unfold detectZshPlugins.
  assert (exists ps,
             match Stat host (expandPath host "~/.oh-my-zsh") with
             | Some info =>
               if IsDir info then
                 let pluginsPath :=
                   Join host (expandPath host "~/.oh-my-zsh") "plugins" in
                 match ReadDir host pluginsPath with
                 | Some pluginsDir =>
                   fold_left
                     (fun config pluginDir =>
                        if EntryIsDir pluginDir then
                          addPlugin config
                            {| PluginName := Name pluginDir;
                               Source := Join host pluginsPath (Name pluginDir);
                               LastUpdated := ModTime info |}
                        else config)
                     pluginsDir config
                 | None => config
                 end
               else config
             | None => config
             end = withPlugins config ps) as [ps Hps].
  { destruct (Stat host (expandPath host "~/.oh-my-zsh")) as [info|];
      [destruct (IsDir info) |];
      try (exists []; now rewrite withPlugins_nil).
    cbv zeta.
    destruct (ReadDir host _) as [dirs|];
      [| exists []; now rewrite withPlugins_nil].
    apply (pluginDirs_adds
             (fun pluginDir =>
                {| PluginName := Name pluginDir;
                   Source := Join host (Join host (expandPath host "~/.oh-my-zsh")
                                             "plugins") (Name pluginDir);
                   LastUpdated := ModTime info |})). }
  cbv zeta in Hps |- *. rewrite Hps.
  destruct (detectManagers_adds host ["~/.antigen"; "~/.zinit"; "~/.zplug"]
                                (withPlugins config ps)) as [qs ->].
  exists (ps ++ qs). apply withPlugins_twice.
Qed.

Lemma fishPlugins_adds (host : Host) (dir : string) (files : list DirEntry) :
  forall config config' : ShellConfig,
    fishPlugins host dir files config = Ok config' ->
    exists ps, config' = withPlugins config ps.
Proof.
  induction files as [|file files IH]; intros config config' Hok.
  - cbn in Hok. inversion Hok; subst. exists []. now rewrite withPlugins_nil.
  - cbn [fishPlugins] in Hok.
    destruct (Strings.HasSuffix (Name file) ".fish"); [| now apply IH].
    destruct (Info file) as [info|]; [| discriminate].
    apply IH in Hok. destruct Hok as [ps ->]. eexists.
    apply withPlugins_add.
Qed.

Lemma detectPlugins_adds (host : Host) (shell : string)
      (config config' : ShellConfig) :
  detectPlugins host shell config = Ok config' ->
  exists ps, config' = withPlugins config ps.
Proof.
  unfold detectPlugins.
  destruct (String.eqb shell "zsh").
  { intros [= <-]. apply detectZshPlugins_adds. }
  destruct (String.eqb shell "fish").
  { unfold detectFishPlugins.
    destruct (ReadDir host (expandPath host "~/.config/fish/conf.d"))
      as [files|]; [| intros [= <-]; exists []; now rewrite withPlugins_nil].
    apply fishPlugins_adds. }
  destruct (String.eqb shell "bash").
  { intros [= <-]. apply detectManagers_adds. }
  intros [= <-]. exists []. now rewrite withPlugins_nil.
Qed.

Lemma readConfigFiles_lookup (host : Host) (paths : list string) :
  forall (config : ShellConfig) (path : string),
    ConfigFiles (readConfigFiles host paths config) !! path =
    match (if bool_decide (path ∈ paths)
           then configInfoOf host path <$> Stat host (expandPath host path)
           else None) with
    | Some info => Some info
    | None => ConfigFiles config !! path
    end.
Proof.
  unfold readConfigFiles.
  induction paths as [|p paths IH]; intros config path; [reflexivity |].
  cbn [fold_left]. rewrite IH. clear IH.
  set (config1 := match Stat host (expandPath host p) with
                  | Some info => _
                  | None => config
                  end).
  assert (ConfigFiles config1 =
          match Stat host (expandPath host p) with
          | Some info => <[p := configInfoOf host p info]> (ConfigFiles config)
          | None => ConfigFiles config
          end) as Hstep.
  { subst config1. destruct (Stat host (expandPath host p)); [| reflexivity].
    unfold parseShellConfig.
    now destruct (frame_fold (fst (Bufio.Scan (ReadFile host (expandPath host p))
                                              false))
                    {| ConfigFiles :=
                         <[p := {| Path := expandPath host p;
                                   Modified := ModTime f;
                                   Content := ReadFile host (expandPath host p)
                                |}]> (ConfigFiles config);
                       Plugins := Plugins config;
                       Aliases := Aliases config;
                       Environment := Environment config |}) as [-> _]. }
  rewrite Hstep. clear Hstep config1.
  destruct (decide (path = p)) as [-> | Hne].
  - rewrite (bool_decide_eq_true_2 (p ∈ p :: paths)) by left.
    destruct (Stat host (expandPath host p)) as [fi|]; cbn.
    + rewrite lookup_insert_eq. now case_bool_decide.
    + now case_bool_decide.
  - assert (bool_decide (path ∈ p :: paths) = bool_decide (path ∈ paths))
      as ->.
    { apply bool_decide_ext. rewrite elem_of_cons. tauto. }
    destruct (if bool_decide (path ∈ paths) then _ else None);
      [reflexivity |].
    destruct (Stat host (expandPath host p)); [| reflexivity].
    now rewrite lookup_insert_ne.
Qed.

(** X8. The config that [analyzeShellConfigs] returns for a shell records
    exactly the config files of the shell's list that exist, each with its
    expanded path, its modification time and its content; plugin detection
    only appends plugins to what the files gave; and for a shell without a
    list of config files the config is empty. *)
Theorem shell_config_records_the_existing_files
        (host : Host) (shell : string) (config : ShellConfig)
        (Hok : analyzeShellConfigs host shell = Ok config) :
  let paths := default [] (configPaths !! shell) in
  (forall path info,
      ConfigFiles config !! path = Some info <->
      path ∈ paths
      /\ exists fi, Stat host (expandPath host path) = Some fi
                    /\ info = configInfoOf host path fi)
  /\ (exists ps,
         config = withPlugins (readConfigFiles host paths emptyConfig) ps)
  /\ (configPaths !! shell = None -> config = emptyConfig).
Proof.
  cbv zeta. unfold analyzeShellConfigs in Hok. fold emptyConfig in Hok.
  split; [| split].
  - apply detectPlugins_adds in Hok. destruct Hok as [ps ->].
    intros path info. cbn [withPlugins ConfigFiles].
    rewrite readConfigFiles_lookup. cbn [emptyConfig ConfigFiles].
    rewrite lookup_empty. case_bool_decide as Hin.
    + destruct (Stat host (expandPath host path)) as [fi|]; cbn.
      * split.
        -- intros [= <-]. split; [exact Hin |]. now exists fi.
        -- intros (_ & fi' & [= <-] & ->). reflexivity.
      * split; [discriminate |]. intros (_ & fi' & Hfi & _). discriminate.
    + split; [discriminate | tauto].
  - now apply detectPlugins_adds in Hok.
  - intros Hnone. rewrite Hnone in Hok. cbn in Hok.
    unfold detectPlugins in Hok.
    destruct (String.eqb_spec shell "zsh") as [-> | _];
      [vm_compute in Hnone; discriminate |].
    destruct (String.eqb_spec shell "fish") as [-> | _];
      [vm_compute in Hnone; discriminate |].
    destruct (String.eqb_spec shell "bash") as [-> | _];
      [vm_compute in Hnone; discriminate |].
    now inversion Hok.
Qed.

Lemma shell_config_records_the_existing_files_witness :
  exists config,
    analyzeShellConfigs bashrcHost "bash" = Ok config
    /\ ConfigFiles config !! "~/.bashrc"
       = Some (configInfoOf bashrcHost "~/.bashrc"
                            {| IsDir := false; ModTime := evening |}).
Proof.
  destruct (analyzeShellConfigs bashrcHost "bash") as [config | msg] eqn:Hok;
    [| vm_compute in Hok; discriminate Hok].
  exists config. split; [reflexivity |].
  apply (shell_config_records_the_existing_files bashrcHost "bash" config Hok).
  split.
  - vm_compute. left.
  - exists {| IsDir := false; ModTime := evening |}. split; reflexivity.
Defined.

(** ** The histories and configs of [AnalyzeShells] *)

Lemma analyzeShellsLoop_lookup (rt : GoRuntime) (host : Host)
      (shells : list (string * string)) :
  forall (data data' : ShellData) (shell : string),
    NoDup (map fst shells) ->
    analyzeShellsLoop rt host shells data = Ok data' ->
    match list_to_map (M := gmap string string) shells !! shell
          ≫= readable rt host with
    | Some history =>
      Histories data' !! shell = Some history
      /\ exists config, analyzeShellConfigs host shell = Ok config
                        /\ ShellConfigs data' !! shell = Some config
    | None =>
      Histories data' !! shell = Histories data !! shell
      /\ ShellConfigs data' !! shell = ShellConfigs data !! shell
    end.
Proof.
  induction shells as [|[s path] shells IH]; intros data data' shell Hnd Hok.
  - cbn in Hok. inversion Hok; subst. cbn. now rewrite lookup_empty.
  - cbn [map fst] in Hnd. apply NoDup_cons in Hnd. destruct Hnd as [Hs Hnd].
    cbn [analyzeShellsLoop] in Hok. rewrite list_to_map_cons.
    assert (forall d,
               analyzeShellsLoop rt host shells d = Ok data' ->
               readable rt host path = None ->
               Histories d = Histories data ->
               ShellConfigs d = ShellConfigs data ->
               match <[s := path]> (list_to_map (M := gmap string string)
                                                shells) !! shell
                     ≫= readable rt host with
               | Some history =>
                 Histories data' !! shell = Some history
                 /\ exists config, analyzeShellConfigs host shell = Ok config
                                   /\ ShellConfigs data' !! shell = Some config
               | None =>
                 Histories data' !! shell = Histories data !! shell
                 /\ ShellConfigs data' !! shell = ShellConfigs data !! shell
               end) as Hskip.
    { intros d Hd Hnone Hh Hc. specialize (IH d data' shell Hnd Hd).
      destruct (decide (s = shell)) as [-> | Hne].
      - rewrite lookup_insert_eq. cbn. rewrite Hnone.
        rewrite (not_elem_of_list_to_map_1 (M := gmap string)) in IH
          by exact Hs.
        cbn in IH. now rewrite <- Hh, <- Hc.
      - rewrite lookup_insert_ne by exact Hne. now rewrite <- Hh, <- Hc. }
    unfold readable in Hskip |- *.
    destruct (readHistory rt host (expandPath host path))
      as [[history [|]]|] eqn:Hread;
      try (apply (Hskip data Hok); reflexivity).
    clear Hskip.
    destruct (analyzeShellConfigs host s) as [config|msg] eqn:Hcfg;
      [| discriminate]. cbn [bind] in Hok.
    specialize (IH _ data' shell Hnd Hok). unfold readable in IH.
    destruct (decide (s = shell)) as [-> | Hne].
    + rewrite lookup_insert_eq. cbn. rewrite Hread.
      rewrite (not_elem_of_list_to_map_1 (M := gmap string)) in IH by exact Hs.
      cbn in IH. rewrite !lookup_insert_eq in IH. destruct IH as [-> ->].
      split; [reflexivity |]. now exists config.
    + rewrite lookup_insert_ne by exact Hne.
      destruct (list_to_map shells !! shell ≫= _); [exact IH |].
      cbn in IH. now rewrite !lookup_insert_ne in IH by exact Hne.
Qed.

(** X9. When [AnalyzeShells] returns, the histories it holds are exactly
    those of the shells of its table whose history file is read without
    error; a config is held for exactly these shells and is the one that
    [analyzeShellConfigs] returns for the shell; and it does return
    whenever the metadata of the listed fish plugin files can be read. *)
Theorem analyzed_histories_are_the_readable_ones
        (rt : GoRuntime) (host : Host)
        (Hrt : RuntimeOK rt) (Hfish : fishInfoReadable host) :
  exists data,
    AnalyzeShells rt host = Ok data
    /\ (forall shell, Histories data !! shell = historyOf rt host shell)
    /\ (forall shell config,
           ShellConfigs data !! shell = Some config <->
           is_Some (historyOf rt host shell)
           /\ analyzeShellConfigs host shell = Ok config).
Proof.
  destruct (AnalyzeShells_returns rt host Hfish) as [data Hdata].
  exists data. split; [exact Hdata |].
  unfold AnalyzeShells in Hdata.
  destruct (analyzeShellsLoop rt host (rangeMap rt shellPaths) InitShellData)
    as [data0|] eqn:Hloop; [| discriminate].
  cbn [bind] in Hdata. inversion Hdata; subst data. clear Hdata.
  cbn [setToolUsage Histories ShellConfigs].
  assert (forall shell,
             match historyOf rt host shell with
             | Some history =>
               Histories data0 !! shell = Some history
               /\ exists config, analyzeShellConfigs host shell = Ok config
                                 /\ ShellConfigs data0 !! shell = Some config
             | None =>
               Histories data0 !! shell = None
               /\ ShellConfigs data0 !! shell = None
             end) as Hall.
  { intros shell.
    pose proof (analyzeShellsLoop_lookup rt host _ _ _ shell
                  (range_NoDup_keys rt Hrt shellPaths) Hloop) as Hl.
    assert (list_to_map (rangeMap rt shellPaths) = shellPaths) as Heq.
    { rewrite <- (list_to_map_to_list shellPaths) at 2.
      apply list_to_map_proper; [apply (range_NoDup_keys rt Hrt) |].
      apply (range_perm rt Hrt). }
    rewrite Heq in Hl. unfold historyOf.
    destruct (shellPaths !! shell ≫= readable rt host); [exact Hl |].
    cbn [InitShellData Histories ShellConfigs] in Hl.
    now rewrite !lookup_empty in Hl. }
  split.
  - intros shell. specialize (Hall shell).
    destruct (historyOf rt host shell); tauto.
  - intros shell config. specialize (Hall shell).
    destruct (historyOf rt host shell) as [history|].
    + destruct Hall as (_ & config' & Hcfg & ->). rewrite Hcfg. split.
      * intros [= <-]. split; [eauto | reflexivity].
      * intros [_ [= <-]]. reflexivity.
    + destruct Hall as [_ ->]. split; [discriminate |].
      intros [[? ?] _]. discriminate.
Qed.

Lemma analyzed_histories_are_the_readable_ones_witness :
  exists data,
    AnalyzeShells runtimeA homelessHost = Ok data
    /\ Histories data !! "fish" = historyOf runtimeA homelessHost "fish".
Proof.
  assert (fishInfoReadable homelessHost) as Hfish.
  { intros files Hdir. vm_compute in Hdir. inversion Hdir; subst.
    repeat constructor. intros _. eexists. reflexivity. }
  destruct (analyzed_histories_are_the_readable_ones
              runtimeA homelessHost runtimeA_ok Hfish)
    as (data & Hdata & Hhist & _).
  exists data. split; [exact Hdata | apply Hhist].
Defined.

Lemma analyzeShellsLoop_app (rt : GoRuntime) (host : Host)
      (l1 l2 : list (string * string)) :
  forall data : ShellData,
    analyzeShellsLoop rt host (l1 ++ l2) data =
    do d <- analyzeShellsLoop rt host l1 data;
    analyzeShellsLoop rt host l2 d.
Proof.
  induction l1 as [|[s path] l1 IH]; intros data; [reflexivity |].
  cbn [app analyzeShellsLoop].
  destruct (readHistory rt host (expandPath host path))
    as [[history [|]]|]; try apply IH.
  destruct (analyzeShellConfigs host s) as [config|msg]; [| reflexivity].
  cbn [bind]. apply IH.
Qed.

Lemma analyzeShellsLoop_skip (rt : GoRuntime) (host : Host)
      (l : list (string * string)) (data : ShellData) :
  Forall (fun sp => readable rt host (snd sp) = None) l ->
  analyzeShellsLoop rt host l data = Ok data.
Proof.
  induction 1 as [|[s path] l Hnone _ IH]; [reflexivity |].
  cbn [analyzeShellsLoop]. cbn [snd] in Hnone. unfold readable in Hnone.
  destruct (readHistory rt host (expandPath host path))
    as [[history [|]]|]; try exact IH. discriminate.
Qed.

(** X10. The technology stack, the peak hours and the productivity metrics
    that [AnalyzeShells] returns are those of one history alone: the history
    of the shell that the loop over the table of shells reads last. Each
    call of [analyzeCommands] overwrites what the call before it wrote. *)
Theorem profile_reports_the_last_shell_read
        (rt : GoRuntime) (host : Host)
        (before after : list (string * string))
        (shell path : string) (history : list CommandEntry)
        (Hfish : fishInfoReadable host)
        (Horder : rangeMap rt shellPaths = before ++ (shell, path) :: after)
        (Hread : readable rt host path = Some history)
        (Hafter : Forall (fun sp => readable rt host (snd sp) = None) after) :
  exists data,
    AnalyzeShells rt host = Ok data
    /\ let own := Insights (analyzeCommands rt host history InitShellData) in
       TechStack (TechnicalProfile (Insights data))
       = TechStack (TechnicalProfile own)
       /\ PeakHours (WorkPatterns_ (Insights data))
          = PeakHours (WorkPatterns_ own)
       /\ Productivity (WorkPatterns_ (Insights data))
          = Productivity (WorkPatterns_ own).
Proof.
  destruct (AnalyzeShells_returns rt host Hfish) as [data Hdata].
  exists data. split; [exact Hdata |].
  unfold AnalyzeShells in Hdata. rewrite Horder in Hdata.
  rewrite analyzeShellsLoop_app in Hdata.
  destruct (analyzeShellsLoop rt host before InitShellData) as [d1|];
    [| discriminate].
  cbn [bind analyzeShellsLoop] in Hdata. unfold readable in Hread.
  destruct (readHistory rt host (expandPath host path))
    as [[history' [|]]|]; try discriminate.
  inversion Hread; subst history'. clear Hread.
  destruct (analyzeShellConfigs host shell) as [config|]; [| discriminate].
  cbn [bind] in Hdata. rewrite analyzeShellsLoop_skip in Hdata by exact Hafter.
  cbn [bind] in Hdata. inversion Hdata; subst data. clear Hdata.
  cbv zeta. repeat split.
Qed.

Lemma profile_reports_the_last_shell_read_witness :
  exists data,
    AnalyzeShells runtimeA twoShellHost = Ok data
    /\ PeakHours (WorkPatterns_ (Insights data)) = [22].
Proof.
  assert (fishInfoReadable twoShellHost) as Hfish.
  { intros files Hdir. vm_compute in Hdir. discriminate Hdir. }
  destruct (profile_reports_the_last_shell_read
              runtimeA twoShellHost
              [("fish", "~/.local/share/fish/fish_history");
               ("zsh", "~/.zsh_history")] []
              "bash" "~/.bash_history"
              [{| Command := "ls"; Timestamp := beforeEleven; Count := 0;
                  Categories := ["file"] |}] Hfish)
    as (data & Hdata & _ & Hpeaks & _).
  - vm_compute. reflexivity.
  - vm_compute. reflexivity.
  - constructor.
  - exists data. split; [exact Hdata |]. rewrite Hpeaks.
    vm_compute. reflexivity.
Defined.

(** ** The timeline and the histories *)

Lemma firstOccurrences_sub (l : list TimelineEntry) :
  forall (seen : gset string) (e : TimelineEntry),
    e ∈ firstOccurrences seen l -> e ∈ l.
Proof.
  induction l as [|x l IH]; intros seen e He; [exact He |].
  cbn [firstOccurrences] in He. case_bool_decide.
  - right. eapply IH, He.
  - apply elem_of_cons in He. destruct He as [-> | He]; [left | right].
    eapply IH, He.
Qed.

Lemma firstOccurrences_complete (l : list TimelineEntry) :
  forall (seen : gset string) (e : TimelineEntry),
    e ∈ l -> TLCommand e ∉ seen ->
    TLCommand e ∈ map TLCommand (firstOccurrences seen l).
Proof.
  induction l as [|x l IH]; intros seen e He Hfresh; [inversion He |].
  cbn [firstOccurrences]. apply elem_of_cons in He. case_bool_decide as Hx.
  - destruct He as [-> | He]; [contradiction | now apply IH].
  - cbn [map]. destruct (decide (TLCommand e = TLCommand x)) as [-> | Hne];
      [left |].
    right. destruct He as [-> | He]; [congruence |].
    apply IH; [exact He |].
    intros Hin. apply elem_of_union in Hin. destruct Hin as [Hin | Hin];
      [apply elem_of_singleton in Hin; congruence | contradiction].
Qed.

Lemma candidates_elem (shells : list (string * list CommandEntry))
      (te : TimelineEntry) :
  te ∈ candidates shells <->
  exists shell history entry,
    (shell, history) ∈ shells /\ entry ∈ history
    /\ te = timelineEntry shell entry.
Proof.
  unfold candidates. rewrite list_elem_of_In, in_flat_map. split.
  - intros ([shell history] & Hin & Hte).
    apply in_map_iff in Hte. destruct Hte as (entry & <- & Hentry).
    exists shell, history, entry. rewrite !list_elem_of_In. auto.
  - intros (shell & history & entry & Hin & Hentry & ->).
    exists (shell, history). rewrite <- list_elem_of_In.
    split; [exact Hin |]. apply in_map, list_elem_of_In, Hentry.
Qed.

Lemma GenerateTimelineData_curated (rt : GoRuntime) (data : ShellData) :
  GenerateTimelineData rt data = curated (rangeMap rt (Histories data)).
Proof.
  unfold GenerateTimelineData.
  rewrite (curateShells_spec _ _ ∅); [reflexivity |].
  split; [| cbn; lia].
  intros cmd. cbn [uniqueCommands]. rewrite lookup_empty. cbn.
  split; [discriminate | intros Hin; inversion Hin].
Qed.

(** X11. Every entry of the timeline is made of an entry of the history of
    the shell it names, with that entry's command and timestamp, and its
    command is an interesting one; and a timeline of fewer than 15 entries
    shows every interesting command text of every history. *)
Theorem timeline_shows_interesting_commands_of_the_histories
        (rt : GoRuntime) (data : ShellData) (Hrt : RuntimeOK rt) :
  let timeline := GenerateTimelineData rt data in
  (forall te,
      te ∈ timeline ->
      isInterestingCommand (TLCommand te) = true
      /\ exists history entry,
          Histories data !! TLShell te = Some history
          /\ entry ∈ history
          /\ te = timelineEntry (TLShell te) entry)
  /\ ((length timeline < 15)%nat ->
      forall shell history entry,
        Histories data !! shell = Some history ->
        entry ∈ history ->
        isInterestingCommand (Command entry) = true ->
        Command entry ∈ map TLCommand timeline).
Proof.
  cbv zeta. rewrite GenerateTimelineData_curated. unfold curated.
  set (shells := rangeMap rt (Histories data)).
  set (interesting :=
         List.filter (fun e => isInterestingCommand (TLCommand e))
                     (candidates shells)).
  split.
  - intros te Hte.
    assert (te ∈ interesting) as Hin.
    { eapply firstOccurrences_sub, elem_of_sublist;
        [exact Hte | apply sublist_take]. }
    apply elem_of_bfilter in Hin. destruct Hin as [Hint Hcand].
    split; [exact Hint |].
    apply candidates_elem in Hcand.
    destruct Hcand as (shell & history & entry & Hsh & Hentry & ->).
    exists history, entry. cbn [timelineEntry TLShell].
    split; [now apply (range_lookup rt Hrt) | now split].
  - intros Hshort shell history entry Hsh Hentry Hint.
    rewrite take_ge.
    + apply (firstOccurrences_complete interesting ∅
               (timelineEntry shell entry)); [| apply not_elem_of_empty].
      apply elem_of_bfilter. split; [exact Hint |].
      apply candidates_elem. exists shell, history, entry.
      split; [now apply (range_lookup rt Hrt) | now split].
    + rewrite length_take in Hshort. lia.
Qed.

Lemma timeline_shows_interesting_commands_of_the_histories_witness :
  "npm" ∈ map TLCommand (GenerateTimelineData runtimeA varietyData).
Proof.
  apply (proj2 (timeline_shows_interesting_commands_of_the_histories
                  runtimeA varietyData runtimeA_ok))
    with (shell := "bash") (history := varietyEntries)
         (entry := entryAt "npm" evening).
  - vm_compute. lia.
  - reflexivity.
  - vm_compute. do 2 right. left.
  - reflexivity.
Defined.

(** ** Timestamps *)

Lemma historyEntries_timestamps (rt : GoRuntime) (host : Host) (path : string)
      (lines : list string) :
  forall i : nat,
    Forall (fun e => exists j, Timestamp e = Now host path j)
           (historyEntries rt host path i lines).
Proof.
  induction lines as [|line lines IH]; intros i; [constructor |].
  cbn [historyEntries].
  destruct (negb (String.eqb (cleanHistoryLine line) "")); [| apply IH].
  constructor; [| apply IH]. now exists i.
Qed.

(** X12. The timestamp of an entry is the reading of the clock when
    [readHistory] made the entry, not a time found in the history file: so
    every peak hour of a history is an hour of the clock during the reading,
    and a history that is not empty and is read within the hour [h] has the
    peak hours [[h]]. *)
Theorem peak_hours_are_hours_of_the_reading
        (rt : GoRuntime) (host : Host) (path : string)
        (entries : list CommandEntry) (err : bool) (data : ShellData)
        (Hrt : RuntimeOK rt)
        (Hread : readHistory rt host path = Some (entries, err))
        (Hlen : Int.len entries <= Int.max_int) :
  let peaks :=
    PeakHours (WorkPatterns_
                 (Insights (analyzeCommands rt host entries data))) in
  (forall h, h ∈ peaks -> exists i, Hour (Now host path i) = h)
  /\ (forall h,
         (forall i, Hour (Now host path i) = h) -> entries <> [] ->
         peaks = [h]).
Proof.
  assert (Forall (fun e => exists j, Timestamp e = Now host path j) entries)
    as Hstamps.
  { unfold readHistory in Hread.
    destruct (Open host path) as [[content ioErr]|]; [| discriminate].
    destruct (Bufio.Scan content ioErr) as [lines e].
    inversion Hread; subst. apply historyEntries_timestamps. }
  unfold analyzeCommands. cbn [Insights WorkPatterns_ PeakHours]. cbv zeta.
  set (m := timeOfDay (tally rt host (getInstalledLanguages rt host) entries)).
  destruct (getPeakHours_spec rt Hrt m) as (Hlength & _ & Hsome & _).
  assert (forall h, h ∈ getPeakHours rt m ->
                    exists i, Hour (Now host path i) = h) as Hclock.
  { intros h Hh. apply Hsome in Hh. apply elem_of_dom in Hh.
    unfold m in Hh. rewrite (buckets_dom rt host entries Hlen) in Hh.
    apply elem_of_list_to_set, list_elem_of_fmap in Hh.
    destruct Hh as (e & -> & He).
    rewrite Forall_forall in Hstamps. destruct (Hstamps e He) as [j ->].
    now exists j. }
  split; [exact Hclock |].
  intros h Hhour Hsome'.
  assert (size m = 1%nat) as Hsize.
  { rewrite <- size_dom. unfold m. rewrite (buckets_dom rt host entries Hlen).
    assert (list_to_set (map (fun e => Hour (Timestamp e)) entries)
            = ({[h]} : gset Z)) as ->; [| apply size_singleton].
    apply set_eq. intros x.
    rewrite elem_of_list_to_set, elem_of_singleton, list_elem_of_fmap. split.
    - intros (e & -> & He). rewrite Forall_forall in Hstamps.
      destruct (Hstamps e He) as [j ->]. apply Hhour.
    - intros ->. destruct entries as [|e rest]; [congruence |].
      exists e. split; [| left].
      apply Forall_cons in Hstamps. destruct Hstamps as [[j Hj] _].
      now rewrite Hj, Hhour. }
  rewrite Hsize in Hlength.
  destruct (getPeakHours rt m) as [|x [|y peaks]] eqn:Hpeaks;
    try discriminate.
  destruct (Hclock x) as [i <-]; [left |]. now rewrite Hhour.
Qed.

Lemma peak_hours_are_hours_of_the_reading_witness :
  PeakHours (WorkPatterns_
               (Insights (analyzeCommands runtimeA gitHost gitEntries
                                          InitShellData)))
  = [22].
Proof.
  assert (readHistory runtimeA gitHost "/home/u/.bash_history"
          = Some (gitEntries, false)) as Hread by (vm_compute; reflexivity).
  assert (Int.len gitEntries <= Int.max_int) as Hlen
      by (vm_compute; discriminate).
  apply (proj2 (peak_hours_are_hours_of_the_reading
                  runtimeA gitHost "/home/u/.bash_history" gitEntries false
                  InitShellData runtimeA_ok Hread Hlen)).
  - reflexivity.
  - discriminate.
Defined.

(** ** The advice helpers *)

Lemma fold_histories {A} (step : A -> CommandEntry -> A)
      (shells : list (string * list CommandEntry)) :
  forall acc : A,
    fold_left (fun acc '(_, history) => fold_left step history acc) shells acc
    = fold_left step (concat (map snd shells)) acc.
Proof.
  induction shells as [|[shell history] shells IH]; intros acc;
    [reflexivity |].
  cbn [fold_left map snd concat]. now rewrite fold_left_app, IH.
Qed.

Lemma hitCount_cons {E} (h : E -> bool) (e : E) (es : list E) :
  hitCount h (e :: es) = (if h e then 1 else 0) + hitCount h es.
Proof.
  unfold hitCount. cbn [List.filter]. destruct (h e); cbn [length]; lia.
Qed.

Lemma complexityStep_spec (t c : Q) (e : CommandEntry) :
  (fst (complexityStep (t, c) e) == t + 1)%Q
  /\ (snd (complexityStep (t, c) e)
      == c + (if piped e then 1 else 0) + (if wordy e then 1 # 2 else 0))%Q.
Proof.
  unfold complexityStep, piped, wordy.
  destruct (Strings.Contains (Command e) "|"
            || Strings.Contains (Command e) ">"
            || Strings.Contains (Command e) "<");
    destruct (2 <? Int.len (Strings.Fields (Command e)));
    cbn [fst snd]; split; lra.
Qed.

Lemma complexity_fold (l : list CommandEntry) :
  forall t c : Q,
    (fst (fold_left complexityStep l (t, c))
     == t + inject_Z (Z.of_nat (length l)))%Q
    /\ (snd (fold_left complexityStep l (t, c))
        == c + inject_Z (hitCount piped l)
           + (1 # 2) * inject_Z (hitCount wordy l))%Q.
Proof.
  induction l as [|e l IH]; intros t c.
  - unfold hitCount. simpl. change (Z.of_nat 0) with 0.
    change (inject_Z 0) with 0%Q. split; lra.
  - cbn [fold_left].
    destruct (complexityStep_spec t c e) as [Ht Hc].
    destruct (complexityStep (t, c) e) as [t1 c1]. cbn [fst snd] in Ht, Hc.
    destruct (IH t1 c1) as [-> ->].
    rewrite !hitCount_cons, !inject_Z_plus, Ht, Hc.
    cbn [length]. rewrite Nat2Z.inj_succ, <- Z.add_1_r, inject_Z_plus.
    destruct (piped e), (wordy e);
      try change (inject_Z 1) with 1%Q; try change (inject_Z 0) with 0%Q;
      split; lra.
Qed.

Lemma analyzeCommandComplexity_spec (rt : GoRuntime) (data : ShellData) :
  let all := allEntries rt data in
  let total := Z.of_nat (length all) in
  (analyzeCommandComplexity rt data ==
   if total =? 0 then 0
   else (inject_Z (hitCount piped all)
         + (1 # 2) * inject_Z (hitCount wordy all))
        / inject_Z total * 100)%Q
  /\ (0 <= analyzeCommandComplexity rt data <= 150)%Q.
Proof.
  cbv zeta. unfold analyzeCommandComplexity, allEntries.
  rewrite fold_histories.
  set (all := concat (map snd (rangeMap rt (Histories data)))).
  destruct (complexity_fold all 0 0) as [Ht Hc].
  destruct (fold_left complexityStep all (0%Q, 0%Q)) as [t c].
  cbn [fst snd] in Ht, Hc. rewrite Qplus_0_l in Ht.
  pose proof (hitCount_bounds piped all) as Hp.
  pose proof (hitCount_bounds wordy all) as Hw.
  unfold Int.len in Hp, Hw.
  set (total := Z.of_nat (length all)) in *.
  set (np := hitCount piped all) in *. set (nw := hitCount wordy all) in *.
  assert (0 <= inject_Z np <= inject_Z total)%Q as Hqp.
  { split; [change 0%Q with (inject_Z 0) |]; rewrite <- Zle_Qle; lia. }
  assert (0 <= inject_Z nw <= inject_Z total)%Q as Hqw.
  { split; [change 0%Q with (inject_Z 0) |]; rewrite <- Zle_Qle; lia. }
  destruct (Z.eqb_spec total 0) as [Hzero | Hpos].
  - assert (Qeq_bool t 0 = true) as ->.
    { apply Qeq_bool_iff. rewrite Ht, Hzero. reflexivity. }
    split; [reflexivity | split; lra].
  - assert (0 < inject_Z total)%Q as Hqt.
    { change 0%Q with (inject_Z 0). rewrite <- Zlt_Qlt. lia. }
    assert (Qeq_bool t 0 = false) as ->.
    { apply not_true_is_false. intros Heq. apply Qeq_bool_iff in Heq.
      rewrite Ht in Heq. lra. }
    assert (c / t * 100
            == (inject_Z np + (1 # 2) * inject_Z nw) / inject_Z total * 100)%Q
      as Hvalue.
    { rewrite Hc, Ht. now rewrite Qplus_0_l. }
    split; [exact Hvalue |]. rewrite Hvalue.
    set (x := ((inject_Z np + (1 # 2) * inject_Z nw) / inject_Z total)%Q).
    assert (0 <= x)%Q as Hx0.
    { apply Qle_shift_div_l; [exact Hqt | lra]. }
    assert (x <= 3 # 2)%Q as Hx1.
    { apply Qle_shift_div_r; [exact Hqt | lra]. }
    split; lra.
Qed.

(** X13. The complexity score of [analyzeCommandComplexity] is 0 when the
    histories hold no entry; otherwise it is 100 times the number of commands
    with a pipe or a redirection plus half the number of commands with more
    than two fields, divided by the number of commands. It lies between 0
    and 150. *)
Theorem complexity_is_a_weighted_share_of_the_commands
        (rt : GoRuntime) (data : ShellData) :
  let all := allEntries rt data in
  let total := Z.of_nat (length all) in
  (analyzeCommandComplexity rt data ==
   if total =? 0 then 0
   else (inject_Z (hitCount piped all)
         + (1 # 2) * inject_Z (hitCount wordy all))
        / inject_Z total * 100)%Q
  /\ (0 <= analyzeCommandComplexity rt data <= 150)%Q.
Proof. exact (analyzeCommandComplexity_spec rt data). Qed.

Lemma append_inj_l (a x y : string) : a +:+ x = a +:+ y -> x = y.
Proof.
  induction a as [|ch a IH]; BytesFacts.sapp; [auto |].
  intros Heq. apply IH. now inversion Heq.
Qed.

Lemma append_inj_r (b : string) :
  forall x y : string, x +:+ b = y +:+ b -> x = y.
Proof.
  assert (forall x y : string,
             String.length x = String.length y ->
             x +:+ b = y +:+ b -> x = y) as Hsame.
  { induction x as [|ch x IH]; intros [|dh y] Hlen Heq;
      try discriminate; [reflexivity |].
    BytesFacts.sapp. inversion Heq; subst. f_equal. apply IH; [| assumption].
    now inversion Hlen. }
  intros x y Heq. apply Hsame; [| exact Heq].
  apply (f_equal String.length) in Heq.
  rewrite !BytesFacts.length_append in Heq. lia.
Qed.

Lemma tipFor_inj (p q : string) : tipFor p = tipFor q -> p = q.
Proof.
  unfold tipFor. intros Heq. apply append_inj_l in Heq.
  now apply append_inj_r in Heq.
Qed.

Lemma sequenceStep_lookup (m : gmap string Z) (e : CommandEntry)
      (k : string) :
  sequenceStep m e !! k =
  if startsWithPair k e then Some (Int.incr (Counter.get m k)) else m !! k.
Proof.
  unfold sequenceStep, startsWithPair. cbv zeta.
  destruct (1 <? Int.len (Strings.Fields (Command e))); [| reflexivity].
  cbn [andb]. unfold Counter.incr. case_bool_decide as Hk.
  - subst k. apply lookup_insert_eq.
  - now apply lookup_insert_ne.
Qed.

Section Tips.
Context (rt : GoRuntime) (Hrt : RuntimeOK rt) (data : ShellData).
Hypothesis Hlen : Int.len (allEntries rt data) <= Int.max_int.

Let pairs (p : string) : Z := hitCount (startsWithPair p) (allEntries rt data).

Lemma analyzeCommandPatterns_lookup (p : string) (n : Z) :
  analyzeCommandPatterns rt data !! p = Some n <-> n = pairs p /\ 0 < n.
Proof.
  unfold analyzeCommandPatterns. rewrite fold_histories.
  fold (allEntries rt data).
  rewrite (accumulate_lookup sequenceStep startsWithPair sequenceStep_lookup
                             _ p Hlen).
  fold (pairs p). destruct (Z.ltb_spec 0 (pairs p)).
  - split; [intros [= <-]; auto | intros [-> _]; reflexivity].
  - split; [discriminate | intros [-> ?]; lia].
Qed.

Lemma generateWorkflowTips_unfold :
  generateWorkflowTips rt data =
  map (fun x => tipFor (fst x))
      (List.filter (fun x => 10 <? snd x)
                   (rangeMap rt (analyzeCommandPatterns rt data))).
Proof.
  unfold generateWorkflowTips. cbv zeta.
  rewrite (collect_fold (fun x => 10 <? snd x) (fun x => tipFor (fst x)))
    by (intros acc [pattern n]; reflexivity).
  reflexivity.
Qed.

Lemma generateWorkflowTips_spec :
  (forall p, tipFor p ∈ generateWorkflowTips rt data <-> 10 < pairs p)
  /\ (forall tip, tip ∈ generateWorkflowTips rt data ->
                  exists p, tip = tipFor p)
  /\ NoDup (generateWorkflowTips rt data).
Proof.
  rewrite generateWorkflowTips_unfold. split; [| split].
  - intros p. rewrite list_elem_of_fmap. split.
    + intros ([k n] & Heq & Hin). apply tipFor_inj in Heq. cbn in Heq.
      subst k. apply elem_of_bfilter in Hin. destruct Hin as [Hbig Hin].
      cbn in Hbig. apply Z.ltb_lt in Hbig.
      apply (range_lookup rt Hrt), analyzeCommandPatterns_lookup in Hin.
      destruct Hin as [-> _]. exact Hbig.
    + intros Hbig. exists (p, pairs p). split; [reflexivity |].
      apply elem_of_bfilter. split; [now apply Z.ltb_lt |].
      apply (range_lookup rt Hrt), analyzeCommandPatterns_lookup.
      split; [reflexivity | lia].
  - intros tip Hin. apply list_elem_of_fmap in Hin.
    destruct Hin as ([k n] & -> & _). now exists k.
  - rewrite <- (map_map fst tipFor).
    apply (@NoDup_fmap_2 _ _ tipFor tipFor_inj).
    apply NoDup_map_bfilter, (range_NoDup_keys rt Hrt).
Qed.
End Tips.

(** X14. [analyzeCommandPatterns] counts, for every text, the commands of at
    least two fields whose first two fields joined by a space are that text;
    [generateWorkflowTips] gives one tip for each text counted more than 10
    times, and nothing else. *)
Theorem workflow_tips_name_the_frequent_pairs
        (rt : GoRuntime) (data : ShellData)
        (Hrt : RuntimeOK rt)
        (Hlen : Int.len (allEntries rt data) <= Int.max_int) :
  let pairs := fun p => hitCount (startsWithPair p) (allEntries rt data) in
  let tips := generateWorkflowTips rt data in
  (forall p, Counter.get (analyzeCommandPatterns rt data) p = pairs p)
  /\ (forall p, tipFor p ∈ tips <-> 10 < pairs p)
  /\ (forall tip, tip ∈ tips -> exists p, tip = tipFor p)
  /\ NoDup tips.
Proof.
  cbv zeta. split; [| exact (generateWorkflowTips_spec rt Hrt data Hlen)].
  intros p. unfold analyzeCommandPatterns. rewrite fold_histories.
  apply (accumulate_get sequenceStep startsWithPair sequenceStep_lookup).
  exact Hlen.
Qed.

Lemma workflow_tips_name_the_frequent_pairs_witness :
  tipFor "git status" ∈ generateWorkflowTips runtimeA statusData.
Proof.
  assert (Int.len (allEntries runtimeA statusData) <= Int.max_int) as Hlen
      by (vm_compute; discriminate).
  apply (workflow_tips_name_the_frequent_pairs
           runtimeA statusData runtimeA_ok Hlen).
  vm_compute. reflexivity.
Defined.

(** ** The advice helpers on histories as [readHistory] makes them *)

Lemma readHistory_tokens (rt : GoRuntime) (host : Host) (path : string)
      (entries : list CommandEntry) (err : bool) :
  readHistory rt host path = Some (entries, err) ->
  Forall (fun e => Token (Command e)) entries.
Proof.
  unfold readHistory.
  destruct (Open host path) as [[content ioErr]|]; [| discriminate].
  destruct (Bufio.Scan content ioErr) as [lines e]. intros [= <- _].
  apply Forall_forall. intros entry Hentry.
  assert (Command entry ∈ map Command (historyEntries rt host path 0 lines))
    as Hc by (apply list_elem_of_fmap; eauto).
  rewrite historyEntries_commands in Hc.
  apply list_elem_of_filter in Hc. destruct Hc as [Hne Hin].
  apply list_elem_of_fmap in Hin. destruct Hin as (line & Hcmd & _).
  rewrite Hcmd in Hne |- *. now apply cleanHistoryLine_token.
Qed.

Lemma Token_not_wordy (e : CommandEntry) :
  Token (Command e) ->
  wordy e = false /\ forall p, startsWithPair p e = false.
Proof.
  intros Htok. unfold wordy, startsWithPair.
  rewrite (StringsFacts.Token_Fields _ Htok). split; reflexivity.
Qed.

Lemma hitCount_none {E} (h : E -> bool) (es : list E) :
  Forall (fun e => h e = false) es -> hitCount h es = 0.
Proof.
  induction 1 as [|e es He _ IH]; [reflexivity |].
  rewrite hitCount_cons, He, IH. reflexivity.
Qed.

Lemma analyzeShellsLoop_tokens (rt : GoRuntime) (host : Host)
      (shells : list (string * string)) :
  forall data data' : ShellData,
    map_Forall (fun _ history => Forall (fun e => Token (Command e)) history)
               (Histories data) ->
    analyzeShellsLoop rt host shells data = Ok data' ->
    map_Forall (fun _ history => Forall (fun e => Token (Command e)) history)
               (Histories data').
Proof.
  induction shells as [|[shell path] shells IH]; intros data data' Hdata Hok.
  - cbn in Hok. now inversion Hok; subst.
  - cbn [analyzeShellsLoop] in Hok.
    destruct (readHistory rt host (expandPath host path))
      as [[history [|]]|] eqn:Hread; try (eapply IH; eassumption).
    destruct (analyzeShellConfigs host shell) as [config|]; [| discriminate].
    cbn [bind] in Hok. eapply IH; [| exact Hok].
    cbn [setShellConfig analyzeCommands setHistory Histories].
    apply map_Forall_insert_2; [| exact Hdata].
    eapply readHistory_tokens, Hread.
Qed.

Lemma sequenceStep_tokens (l : list CommandEntry) (m : gmap string Z) :
  Forall (fun e => Token (Command e)) l -> fold_left sequenceStep l m = m.
Proof.
  induction 1 as [|e l He _ IH]; [reflexivity |].
  cbn [fold_left]. unfold sequenceStep at 2.
  now rewrite (StringsFacts.Token_Fields _ He).
Qed.

(** X15. On the data that [AnalyzeShells] returns, no command has more than
    one field, because [readHistory] keeps the last field of each line only:
    so [analyzeCommandPatterns] counts nothing, [generateWorkflowTips] gives
    no tip, and the complexity score is at most 100 (the half point for
    commands of more than two fields is never given). *)
Theorem analyzed_data_gets_no_workflow_tips
        (rt : GoRuntime) (host : Host)
        (Hrt : RuntimeOK rt) (Hfish : fishInfoReadable host) :
  exists data,
    AnalyzeShells rt host = Ok data
    /\ Forall (fun e => Strings.Fields (Command e) = [Command e])
              (allEntries rt data)
    /\ analyzeCommandPatterns rt data = ∅
    /\ generateWorkflowTips rt data = []
    /\ (analyzeCommandComplexity rt data <= 100)%Q.
Proof.
  destruct (AnalyzeShells_returns rt host Hfish) as [data Hdata].
  exists data. split; [exact Hdata |].
  assert (Forall (fun e => Token (Command e)) (allEntries rt data)) as Htok.
  { unfold AnalyzeShells in Hdata.
    destruct (analyzeShellsLoop rt host (rangeMap rt shellPaths) InitShellData)
      as [data0|] eqn:Hloop; [| discriminate].
    cbn [bind] in Hdata. inversion Hdata; subst data. clear Hdata.
    apply analyzeShellsLoop_tokens in Hloop;
      [| cbn [InitShellData Histories]; apply map_Forall_empty].
    unfold allEntries. cbn [setToolUsage Histories].
    apply Forall_concat, Forall_forall. intros history Hin.
    apply list_elem_of_fmap in Hin. destruct Hin as ([shell h] & -> & Hin).
    apply (range_lookup rt Hrt) in Hin. exact (Hloop shell h Hin). }
  assert (analyzeCommandPatterns rt data = ∅) as Hnone.
  { unfold analyzeCommandPatterns. rewrite fold_histories.
    now apply sequenceStep_tokens. }
  split; [| split; [exact Hnone | split]].
  - eapply Forall_impl; [exact Htok |].
    intros e He. now apply StringsFacts.Token_Fields.
  - unfold generateWorkflowTips. rewrite Hnone.
    assert (rangeMap rt (∅ : gmap string Z) = []) as ->; [| reflexivity].
    apply Permutation_nil_r. rewrite (range_perm rt Hrt).
    now rewrite map_to_list_empty.
  - destruct (analyzeCommandComplexity_spec rt data) as [Hvalue _].
    cbv zeta in Hvalue. rewrite Hvalue. clear Hvalue.
    fold (allEntries rt data).
    assert (hitCount wordy (allEntries rt data) = 0) as ->.
    { apply hitCount_none. eapply Forall_impl; [exact Htok |].
      intros e He. now apply Token_not_wordy. }
    pose proof (hitCount_bounds piped (allEntries rt data)) as Hp.
    unfold Int.len in Hp.
    set (total := Z.of_nat (length (allEntries rt data))) in *.
    set (np := hitCount piped (allEntries rt data)) in *.
    destruct (Z.eqb_spec total 0) as [_ | Hpos]; [lra |].
    assert (0 < inject_Z total)%Q as Hqt.
    { change 0%Q with (inject_Z 0). rewrite <- Zlt_Qlt. lia. }
    assert (inject_Z np <= inject_Z total)%Q as Hqp
        by (rewrite <- Zle_Qle; lia).
    change (inject_Z 0) with 0%Q.
    set (x := ((inject_Z np + (1 # 2) * 0) / inject_Z total)%Q).
    assert (x <= 1)%Q as Hx1.
    { apply Qle_shift_div_r; [exact Hqt | lra]. }
    lra.
Qed.

Lemma analyzed_data_gets_no_workflow_tips_witness :
  exists data,
    AnalyzeShells runtimeA twoShellHost = Ok data
    /\ generateWorkflowTips runtimeA data = [].
Proof.
  assert (fishInfoReadable twoShellHost) as Hfish.
  { intros files Hdir. vm_compute in Hdir. discriminate Hdir. }
  destruct (analyzed_data_gets_no_workflow_tips
              runtimeA twoShellHost runtimeA_ok Hfish)
    as (data & Hdata & _ & _ & Htips & _).
  exists data. split; [exact Hdata | exact Htips].
Defined.

(** ** ASCII bytes are runes of their own *)

Module AsciiFacts.
Import Bytes BytesFacts Utf8 Utf8Facts.

Lemma first_lead_lo (b : Z) (sz : nat) (lo hi : Z) :
  first b = lead sz lo hi -> 0x80 <= lo /\ 0x80 <= b.
Proof.
  unfold first, locb.
  repeat match goal with
         | |- context [if ?c then _ else _] => destruct c eqn:?
         end; intros H; inversion H; subst; lia.
Qed.

Lemma strayAscii_high (r : Z) (c : ascii) :
  0x80 <= val c -> strayAscii r c = false.
Proof.
  intros Hc. unfold strayAscii.
  destruct (Z.ltb_spec (val c) 0x80); [lia | reflexivity].
Qed.

(** Every ASCII byte among the bytes of a rune is the rune itself. *)
Lemma decode_ascii (s : string) (r : Z) (n : nat) :
  DecodeRuneInString s = (r, n) ->
  existsb (strayAscii r) (take n s) = false.
Proof.
  unfold DecodeRuneInString.
  destruct s as [|c0 t]; [intros H; inversion H; reflexivity |].
  destruct (first (val c0)) as [| |sz lo hi] eqn:Hf.
  - intros H; inversion H; subst. simpl. unfold strayAscii.
    now rewrite Z.eqb_refl, andb_false_r.
  - intros H; inversion H; subst. simpl. rewrite strayAscii_high; [reflexivity |].
    unfold first in Hf. destruct (Z.ltb_spec (val c0) 0x80); [discriminate | lia].
  - destruct (first_lead_lo _ _ _ _ Hf) as [Hlo Hc0].
    pose proof (strayAscii_high r c0 Hc0) as H0.
    unfold locb.
    destruct (first_lead _ _ _ _ Hf) as [-> | [-> | ->]];
      destruct t as [|c1 [|c2 [|c3 t]]]; unfold at_; simpl;
      split_ifs; intros H; inversion H; subst; simpl; rewrite ?H0;
      try reflexivity;
      repeat match goal with
             | Hb : (_ || _)%bool = false |- _ =>
               apply orb_false_iff in Hb; destruct Hb as [?Hb1 ?Hb2]
             | Hb : (_ <? _) = false |- _ => apply Z.ltb_ge in Hb
             end;
      rewrite ?(strayAscii_high _ c1), ?(strayAscii_high _ c2),
        ?(strayAscii_high _ c3) by lia; reflexivity.
Qed.

Lemma existsb_append (p : ascii -> bool) (a b : string) :
  existsb p (a +:+ b) = existsb p a || existsb p b.
Proof.
  induction a as [|c a IH]; sapp; [reflexivity |].
  simpl. now rewrite IH, orb_assoc.
Qed.

Lemma existsb_weaken (p q : ascii -> bool) (s : string) :
  (forall c, p c = true -> q c = true) ->
  existsb q s = false -> existsb p s = false.
Proof.
  intros Hpq. induction s as [|c s IH]; [reflexivity |]. simpl.
  intros Hq. apply orb_false_iff in Hq. destruct Hq as [Hc Hs].
  rewrite (IH Hs), orb_false_r.
  destruct (p c) eqn:Hp; [| reflexivity]. apply Hpq in Hp. congruence.
Qed.

Lemma Chunks_no_asciiSpace (cs : list (Z * string)) :
  forall s : string,
    Chunks s cs -> Forall nonspace cs -> existsb asciiSpace s = false.
Proof.
  induction cs as [|[r b] cs IH]; intros s Hch Hns.
  - cbn in Hch. now subst.
  - cbn [Chunks] in Hch. destruct Hch as (_ & Hdec & Htake & Hrest).
    inversion Hns as [|? ? Hr Hns']; subst.
    rewrite <- (take_drop (String.length b) s), existsb_append.
    rewrite (IH _ Hrest Hns'), orb_false_r.
    apply (existsb_weaken _ (strayAscii r)); [| now apply decode_ascii].
    intros c Hc. unfold asciiSpace in Hc. apply andb_true_iff in Hc.
    destruct Hc as [Hlow Hsp]. unfold strayAscii. rewrite Hlow. cbn [andb].
    destruct (Z.eqb_spec (val c) r) as [Heq | _]; [| reflexivity].
    unfold nonspace in Hr. cbn [fst] in Hr. congruence.
Qed.

Lemma Token_no_asciiSpace (f : string) :
  Token f -> existsb asciiSpace f = false.
Proof.
  intros [_ Hns]. apply (Chunks_no_asciiSpace (range f)); [| exact Hns].
  apply range_Chunks.
Qed.
End AsciiFacts.

Lemma existsb_prefix (p : ascii -> bool) :
  forall w s : string,
    String.prefix w s = true ->
    Bytes.existsb p w = true -> Bytes.existsb p s = true.
Proof.
  induction w as [|c w IH]; intros s Hpre Hw; [discriminate |].
  destruct s as [|d s]; [discriminate |]. cbn in Hpre.
  destruct (ascii_dec c d) as [-> | _]; [| discriminate].
  cbn in Hw |- *. apply orb_true_iff in Hw.
  destruct Hw as [-> | Hw]; [reflexivity |].
  rewrite (IH s Hpre Hw). apply orb_true_r.
Qed.

Lemma existsb_Contains (p : ascii -> bool) (w : string) :
  forall s : string,
    Strings.Contains s w = true ->
    Bytes.existsb p w = true -> Bytes.existsb p s = true.
Proof.
  induction s as [|d s IH]; intros Hc Hw.
  - cbn in Hc. rewrite orb_false_r in Hc. now apply (existsb_prefix p w).
  - cbn [Strings.Contains] in Hc. apply orb_true_iff in Hc.
    destruct Hc as [Hpre | Hc]; [now apply (existsb_prefix p w) |].
    cbn. rewrite (IH Hc Hw). apply orb_true_r.
Qed.

(** A token contains no text that holds an ASCII white-space byte. *)
Lemma Token_Contains (f w : string) :
  Token f -> Bytes.existsb asciiSpace w = true ->
  Strings.Contains f w = false.
Proof.
  intros Htok Hw. destruct (Strings.Contains f w) eqn:Hc; [| reflexivity].
  pose proof (existsb_Contains asciiSpace w f Hc Hw) as Hf.
  rewrite (AsciiFacts.Token_no_asciiSpace f Htok) in Hf. discriminate.
Qed.

Lemma Token_no_git_workflow (e : CommandEntry) :
  Token (Command e) -> patternHit "git_workflow" e = false.
Proof.
  intros Htok. unfold patternHit.
  assert (patternMap !! "git_workflow"
          = Some (Seq (Lit "git ")
                      (Alt (Lit "commit")
                           (Alt (Lit "push")
                                (Alt (Lit "pull") (Lit "merge"))))))
    as -> by (vm_compute; reflexivity).
  unfold MatchString. cbn [words flat_map map app existsb].
  rewrite !(Token_Contains _ _ Htok) by reflexivity. reflexivity.
Qed.

(** X16. For a history as [readHistory] makes it, the pattern
    [git (commit|push|pull|merge)] matches no command, because every stored
    command is one field and the pattern needs a space: the count of
    [git_workflow] is zero, whatever the history file holds. *)
Theorem git_workflow_is_never_counted_for_a_read_history
        (rt : GoRuntime) (host : Host) (path : string)
        (entries : list CommandEntry) (err : bool)
        (Hrt : RuntimeOK rt)
        (Hread : readHistory rt host path = Some (entries, err))
        (Hlen : Int.len entries <= Int.max_int) :
  Forall (fun e => patternHit "git_workflow" e = false) entries
  /\ Counter.get
       (commandPatterns (tally rt host (getInstalledLanguages rt host) entries))
       "git_workflow" = 0.
Proof.
  assert (Forall (fun e => patternHit "git_workflow" e = false) entries)
    as Hnone.
  { eapply Forall_impl; [exact (readHistory_tokens _ _ _ _ _ Hread) |].
    intros e He. now apply Token_no_git_workflow. }
  split; [exact Hnone |].
  rewrite (commandPatterns_get rt Hrt host _ entries Hlen).
  now apply hitCount_none.
Qed.

Lemma git_workflow_is_never_counted_for_a_read_history_witness :
  Counter.get
    (commandPatterns
       (tally runtimeA gitHost (getInstalledLanguages runtimeA gitHost)
              gitEntries))
    "git_workflow" = 0.
Proof.
  assert (readHistory runtimeA gitHost "/home/u/.bash_history"
          = Some (gitEntries, false)) as Hread by (vm_compute; reflexivity).
  assert (Int.len gitEntries <= Int.max_int) as Hlen
      by (vm_compute; discriminate).
  exact (proj2 (git_workflow_is_never_counted_for_a_read_history
                  runtimeA gitHost "/home/u/.bash_history" gitEntries false
                  runtimeA_ok Hread Hlen)).
Defined.

(** ** Reading back a history of tokens *)

Section RoundTrip.
Import Bytes BytesFacts.

Let isNewline (c : ascii) : bool := Ascii.eqb c "010"%char.

Lemma rev_app_append (s : string) :
  forall acc : string, String.rev_app s acc = String.rev_app s "" +:+ acc.
Proof.
  induction s as [|c s IH]; intros acc; [reflexivity |].
  cbn [String.rev_app]. rewrite (IH (String c acc)), (IH (String c "")).
  now rewrite append_assoc.
Qed.

Lemma rawLines_line (a : string) :
  forall (cur rest : string),
    existsb isNewline a = false ->
    Bufio.rawLines (a +:+ String "010"%char rest) cur
    = (String.rev cur +:+ a) :: Bufio.rawLines rest "".
Proof.
  induction a as [|c a IH]; intros cur rest Ha; sapp.
  - cbn. now rewrite append_nil_r.
  - cbn in Ha. apply orb_false_iff in Ha. destruct Ha as [Hc Ha].
    cbn [Bufio.rawLines]. fold (isNewline c). rewrite Hc.
    rewrite (IH _ _ Ha).
    unfold String.rev. cbn [String.rev_app].
    now rewrite rev_app_append, append_assoc.
Qed.

Lemma rawLines_lines (ts : list string) :
  Forall (fun t => existsb isNewline t = false) ts ->
  Bufio.rawLines (join (map (fun t => t +:+ newline) ts)) "" = ts.
Proof.
  induction 1 as [|t ts Ht _ IH]; [reflexivity |].
  cbn [map join]. unfold newline at 1. rewrite append_assoc. sapp.
  rewrite (rawLines_line t "" _ Ht), IH. reflexivity.
Qed.

Lemma existsb_drop (p : ascii -> bool) (n : nat) :
  forall s : string, existsb p (drop n s) = true -> existsb p s = true.
Proof.
  induction n as [|n IH]; intros [|c s] H; cbn in H |- *; try assumption.
  rewrite (IH s H). apply orb_true_r.
Qed.

Lemma Token_dropCR (t : string) : Token t -> Bufio.dropCR t = t.
Proof.
  intros Htok. unfold Bufio.dropCR, Strings.TrimSuffix, Strings.HasSuffix.
  destruct (String.eqb_spec
              (drop (String.length t - String.length (String "013"%char "")) t)
              (String "013"%char "")) as [Heq | _];
    [| now rewrite andb_false_r].
  assert (existsb asciiSpace t = true) as Hsp.
  { eapply existsb_drop. rewrite Heq. reflexivity. }
  rewrite (AsciiFacts.Token_no_asciiSpace t Htok) in Hsp. discriminate.
Qed.

Lemma Token_no_newline (t : string) :
  Token t -> existsb isNewline t = false.
Proof.
  intros Htok.
  apply (AsciiFacts.existsb_weaken _ asciiSpace);
    [| now apply AsciiFacts.Token_no_asciiSpace].
  intros c Hc. unfold isNewline in Hc.
  apply Ascii.eqb_eq in Hc. now subst c.
Qed.

Lemma scanGo_tokens (ts : list string) :
  Forall Token ts ->
  Forall (fun t => Z.of_nat (String.length t) < Bufio.MaxScanTokenSize) ts ->
  Bufio.scanGo ts false = (ts, false).
Proof.
  induction 1 as [|t ts Ht _ IH]; intros Hfit; [reflexivity |].
  inversion Hfit as [|? ? Hfit1 Hfit']; subst.
  cbn [Bufio.scanGo]. unfold Bufio.fits.
  destruct (Z.ltb_spec (Z.of_nat (String.length t)) Bufio.MaxScanTokenSize);
    [| lia].
  now rewrite (IH Hfit'), Token_dropCR.
Qed.

Lemma Token_cleanHistoryLine (t : string) :
  Token t -> cleanHistoryLine t = t.
Proof.
  intros Htok. rewrite cleanHistoryLine_last.
  now rewrite (StringsFacts.Token_Fields t Htok).
Qed.
End RoundTrip.

(** X17. A history file that holds one token on each line, every line
    ended by a newline and shorter than the scanner's 64 KiB buffer, is read
    back without error as exactly these tokens, in their order. *)
Theorem history_of_tokens_is_read_back
        (rt : GoRuntime) (host : Host) (path : string) (tokens : list string)
        (Htok : Forall Token tokens)
        (Hfit : Forall (fun t => Z.of_nat (String.length t)
                                 < Bufio.MaxScanTokenSize) tokens)
        (Hopen : Open host path
                 = Some (Bytes.join (map (fun t => t +:+ newline) tokens),
                         false)) :
  exists entries,
    readHistory rt host path = Some (entries, false)
    /\ map Command entries = tokens.
Proof.
  unfold readHistory. rewrite Hopen. unfold Bufio.Scan.
  rewrite rawLines_lines
    by (eapply Forall_impl; [exact Htok | exact Token_no_newline]).
  rewrite (scanGo_tokens tokens Htok Hfit).
  eexists. split; [reflexivity |].
  rewrite historyEntries_commands. clear Hfit Hopen.
  induction Htok as [|t ts Ht _ IH]; [reflexivity |].
  cbn [map]. rewrite (Token_cleanHistoryLine t Ht).
  rewrite filter_cons_True by exact (proj1 Ht). now rewrite IH.
Qed.

Lemma history_of_tokens_is_read_back_witness :
  exists entries,
    readHistory runtimeA twoShellHost "/home/u/.bash_history"
    = Some (entries, false)
    /\ map Command entries = ["ls"].
Proof.
  apply (history_of_tokens_is_read_back
           runtimeA twoShellHost "/home/u/.bash_history" ["ls"]).
  - constructor; [| constructor]. split; [discriminate |].
    vm_compute. repeat constructor.
  - constructor; [| constructor]. vm_compute. reflexivity.
  - reflexivity.
Defined.

(** ** Fields that the analysis never fills *)

Lemma analyzeShellsLoop_frame (rt : GoRuntime) (host : Host)
      (shells : list (string * string)) :
  forall data data' : ShellData,
    analyzeShellsLoop rt host shells data = Ok data' ->
    CommonCmds data' = CommonCmds data
    /\ TimePatterns data' = TimePatterns data
    /\ SecondarySkills (TechnicalProfile (Insights data'))
       = SecondarySkills (TechnicalProfile (Insights data))
    /\ CommonWorkflows (WorkPatterns_ (Insights data'))
       = CommonWorkflows (WorkPatterns_ (Insights data)).
Proof.
  induction shells as [|[shell path] shells IH]; intros data data' Hok.
  - cbn in Hok. inversion Hok; subst. repeat split.
  - cbn [analyzeShellsLoop] in Hok.
    destruct (readHistory rt host (expandPath host path))
      as [[history [|]]|]; try (now apply IH).
    destruct (analyzeShellConfigs host shell) as [config|]; [| discriminate].
    cbn [bind] in Hok. apply IH in Hok. exact Hok.
Qed.

(** X18. [AnalyzeShells] never fills the common commands, the time
    patterns, the secondary skills and the common workflows: in the data it
    returns they are empty, whatever the histories hold. *)
Theorem analysis_leaves_four_fields_empty
        (rt : GoRuntime) (host : Host) (Hfish : fishInfoReadable host) :
  exists data,
    AnalyzeShells rt host = Ok data
    /\ CommonCmds data = ∅
    /\ TimePatterns data = ∅
    /\ SecondarySkills (TechnicalProfile (Insights data)) = []
    /\ CommonWorkflows (WorkPatterns_ (Insights data)) = [].
Proof.
  destruct (AnalyzeShells_returns rt host Hfish) as [data Hdata].
  exists data. split; [exact Hdata |].
  unfold AnalyzeShells in Hdata.
  destruct (analyzeShellsLoop rt host (rangeMap rt shellPaths) InitShellData)
    as [data0|] eqn:Hloop; [| discriminate].
  cbn [bind] in Hdata. inversion Hdata; subst data. clear Hdata.
  apply analyzeShellsLoop_frame in Hloop.
  destruct Hloop as (Hc & Ht & Hs & Hw).
  cbn [setToolUsage CommonCmds TimePatterns Insights TechnicalProfile
       WorkPatterns_].
  rewrite Hc, Ht, Hs, Hw. repeat split.
Qed.

Lemma analysis_leaves_four_fields_empty_witness :
  exists data,
    AnalyzeShells runtimeA twoShellHost = Ok data
    /\ CommonCmds data = ∅
    /\ CommonWorkflows (WorkPatterns_ (Insights data)) = [].
Proof.
  assert (fishInfoReadable twoShellHost) as Hfish.
  { intros files Hdir. vm_compute in Hdir. discriminate Hdir. }
  destruct (analysis_leaves_four_fields_empty runtimeA twoShellHost Hfish)
    as (data & Hdata & Hc & _ & _ & Hw).
  exists data. split; [exact Hdata |]. split; [exact Hc | exact Hw].
Defined.

(** ** Scan errors *)

Lemma scanGo_spec (raws : list string) (ioErr : bool) :
  Bufio.scanGo raws ioErr
  = (map Bufio.dropCR (fitting raws),
     ioErr || negb (forallb Bufio.fits raws)).
Proof.
  induction raws as [|raw raws IH]; cbn [Bufio.scanGo fitting forallb map].
  - now rewrite orb_false_r.
  - destruct (Bufio.fits raw); cbn [andb negb map].
    + now rewrite IH.
    + now rewrite orb_true_r.
Qed.

(** X19. [readHistory] on a file that can be opened: it reports an error
    exactly when the read failed or some line is 64 KiB or longer; its
    entries are made of the lines before the first such line; and since
    [AnalyzeShells] keeps a history only when no error is reported, a shell
    whose history file has such a line is left out with all its commands. *)
Theorem overlong_line_drops_the_history
        (rt : GoRuntime) (host : Host) (path content : string) (ioErr : bool)
        (Hopen : Open host path = Some (content, ioErr)) :
  let raws := Bufio.rawLines content "" in
  let err := ioErr || negb (forallb Bufio.fits raws) in
  exists entries,
    readHistory rt host path = Some (entries, err)
    /\ map Command entries
       = filter (fun cmd => cmd <> "")
                (map (fun raw => cleanHistoryLine (Bufio.dropCR raw))
                     (fitting raws))
    /\ forall shell p,
        shellPaths !! shell = Some p -> expandPath host p = path ->
        historyOf rt host shell = if err then None else Some entries.
Proof.
  cbv zeta. unfold readHistory. rewrite Hopen. unfold Bufio.Scan.
  rewrite scanGo_spec. eexists. split; [reflexivity |]. split.
  - rewrite historyEntries_commands. now rewrite map_map.
  - intros shell p Hp Hpath. unfold historyOf. rewrite Hp. cbn.
    unfold readable, readHistory. rewrite Hpath, Hopen. unfold Bufio.Scan.
    rewrite scanGo_spec.
    now destruct (ioErr || negb (forallb Bufio.fits (Bufio.rawLines content ""))).
Qed.

Lemma overlong_line_drops_the_history_witness :
  historyOf runtimeA gitHost "bash" = Some gitEntries.
Proof.
  destruct (overlong_line_drops_the_history
              runtimeA gitHost "/home/u/.bash_history" gitHistory false
              eq_refl) as (entries & Hread & _ & Hkeep).
  rewrite (Hkeep "bash" "~/.bash_history" eq_refl eq_refl).
  vm_compute in Hread. inversion Hread; subst entries.
  vm_compute. reflexivity.
Defined.

(** ** Recommendations *)

Lemma aliasAdvice_inj (s t : string) : aliasAdvice s = aliasAdvice t -> s = t.
Proof.
  unfold aliasAdvice. intros Heq. apply append_inj_l in Heq.
  now apply append_inj_r in Heq.
Qed.

Lemma pluginAdvice_inj (s t : string) :
  pluginAdvice s = pluginAdvice t -> s = t.
Proof.
  unfold pluginAdvice. intros Heq. apply append_inj_l in Heq.
  now apply append_inj_r in Heq.
Qed.

Lemma advice_differ (s t : string) : aliasAdvice s <> pluginAdvice t.
Proof. unfold aliasAdvice, pluginAdvice. BytesFacts.sapp. discriminate. Qed.

Lemma recommend_fold (l : list (string * ShellConfig)) :
  forall recs : list string,
    fold_left recommendStep l recs
    = recs ++ flat_map (fun item => recommendStep [] item) l.
Proof.
  induction l as [|[shell config] l IH]; intros recs; cbn [fold_left flat_map].
  - now rewrite List.app_nil_r.
  - rewrite IH, List.app_assoc. f_equal.
    unfold recommendStep.
    destruct (Z.of_nat (size (Aliases config)) <? 5),
      (Int.len (Plugins config) <? 3); cbn [app];
      rewrite <- ?List.app_assoc, ?List.app_nil_r; reflexivity.
Qed.

(** X20. [generateRecommendations] advises more aliases for exactly the
    shells whose config holds fewer than 5 aliases, and plugins for exactly
    the shells whose config lists fewer than 3 plugins; it gives no other
    recommendation. *)
Theorem recommendations_name_the_sparse_configs
        (rt : GoRuntime) (data : ShellData) (Hrt : RuntimeOK rt) :
  let recs := generateRecommendations rt data in
  (forall shell,
      aliasAdvice shell ∈ recs <->
      exists config, ShellConfigs data !! shell = Some config
                     /\ (size (Aliases config) < 5)%nat)
  /\ (forall shell,
         pluginAdvice shell ∈ recs <->
         exists config, ShellConfigs data !! shell = Some config
                        /\ (length (Plugins config) < 3)%nat)
  /\ (forall r, r ∈ recs ->
                exists shell, is_Some (ShellConfigs data !! shell)
                              /\ (r = aliasAdvice shell
                                  \/ r = pluginAdvice shell)).
Proof.
  cbv zeta. unfold generateRecommendations.
  rewrite recommend_fold, app_nil_l.
  assert (forall r,
             r ∈ flat_map (fun item => recommendStep [] item)
                          (rangeMap rt (ShellConfigs data)) <->
             exists shell config,
               ShellConfigs data !! shell = Some config
               /\ ((r = aliasAdvice shell
                    /\ (size (Aliases config) < 5)%nat)
                   \/ (r = pluginAdvice shell
                       /\ (length (Plugins config) < 3)%nat))) as Hchar.
  { intros r. rewrite list_elem_of_In, in_flat_map. split.
    - intros ([shell config] & Hin & Hr).
      apply list_elem_of_In, (range_lookup rt Hrt) in Hin.
      exists shell, config. split; [exact Hin |].
      unfold recommendStep, Int.len in Hr.
      destruct (Z.ltb_spec (Z.of_nat (size (Aliases config))) 5),
        (Z.ltb_spec (Z.of_nat (length (Plugins config))) 3);
        cbn in Hr; intuition (subst; auto; lia).
    - intros (shell & config & Hcfg & Hr).
      exists (shell, config).
      split; [now apply list_elem_of_In, (range_lookup rt Hrt) |].
      unfold recommendStep, Int.len.
      destruct Hr as [[-> Hlt] | [-> Hlt]].
      + destruct (Z.ltb_spec (Z.of_nat (size (Aliases config))) 5); [| lia].
        destruct (Z.of_nat (length (Plugins config)) <? 3); cbn; auto.
      + destruct (Z.ltb_spec (Z.of_nat (length (Plugins config))) 3); [| lia].
        destruct (Z.of_nat (size (Aliases config)) <? 5); cbn; auto. }
  split; [| split].
  - intros shell. rewrite Hchar. split.
    + intros (shell' & config & Hcfg & [[Heq Hlt] | [Heq _]]).
      * apply aliasAdvice_inj in Heq. subst shell'. eauto.
      * now apply advice_differ in Heq.
    + intros (config & Hcfg & Hlt). exists shell, config. auto.
  - intros shell. rewrite Hchar. split.
    + intros (shell' & config & Hcfg & [[Heq _] | [Heq Hlt]]).
      * symmetry in Heq. now apply advice_differ in Heq.
      * apply pluginAdvice_inj in Heq. subst shell'. eauto.
    + intros (config & Hcfg & Hlt). exists shell, config. auto.
  - intros r Hr. apply Hchar in Hr.
    destruct Hr as (shell & config & Hcfg & Hr). exists shell.
    split; [eauto |]. tauto.
Qed.

Lemma recommendations_name_the_sparse_configs_witness :
  aliasAdvice "bash" ∈ generateRecommendations runtimeA sparseData.
Proof.
  apply (recommendations_name_the_sparse_configs
           runtimeA sparseData runtimeA_ok).
  exists emptyConfig. split; [reflexivity |]. vm_compute. lia.
Defined.

(** ** Plugin managers and Oh My Zsh *)




